(** * Multi-LLM Assistant: the orchestration core, embedded and verified

    A shallow embedding of the TypeScript sources of the Multi-LLM Assistant
    (model configuration, the [runRole] invocation service with its 429
    fallback, the debater output parser, the debate context builder, the
    round runner and the addendum handling of the debate page, the
    configuration of the provider, the two HTTP routes and the conversation
    history), followed by the theorems about them.

    Conventions of the embedding.
    - A JavaScript string is the list of its UTF-16 code units.
    - [undefined] / [null] are [None]; a thrown exception is the [Err] side
      of a result.
    - Objects used as maps ([RoundResults], [RoleModelMap], [process.env],
      parsed JSON objects) are [gmap]s.
    - The effects of [runRole] (provider calls, [sleep]) are recorded in a
      trace that is returned next to the outcome.
    - Built-ins of the JavaScript runtime whose behaviour is fixed outside
      the repository ([JSON.parse], [String.prototype.toLowerCase]) and the
      network ([fetch], the provider) are parameters. *)

From Stdlib Require Import ZArith NArith QArith Qround String Ascii List Lia Bool.
From Stdlib Require Import Sorting.Sorted Sorting.Permutation.
From stdpp Require Import base decidable option list gmap fin_maps countable numbers.

Set Warnings "-register-all".

Local Open Scope Z_scope.
Local Open Scope list_scope.

(* ===================================================================== *)
(** * 1. JavaScript strings *)
(* ===================================================================== *)

Module Js.

(** A UTF-16 code unit and a string of them. *)
Definition code_unit := N.
Definition jsstring := list code_unit.

(** ** String literals

    Rocq string literals are byte strings; source text is UTF-8. [utf16]
    decodes the bytes to code points and re-encodes them in UTF-16, which is
    what a TypeScript literal with the same text denotes. *)

Definition surrogates (cp : N) : list code_unit :=
  if (cp <? 65536)%N then [cp]
  else
    let v := (cp - 65536)%N in
    [(55296 + N.shiftr v 10)%N; (56320 + N.land v 1023)%N].

Definition cont (b : N) : N := N.land b 63.

Fixpoint utf16_of_bytes (bs : list N) : jsstring :=
  match bs with
  | [] => []
  | b0 :: r0 =>
    if (b0 <? 192)%N then b0 :: utf16_of_bytes r0
    else
      match r0 with
      | [] => [b0]
      | b1 :: r1 =>
        if (b0 <? 224)%N
        then (N.shiftl (N.land b0 31) 6 + cont b1)%N :: utf16_of_bytes r1
        else
          match r1 with
          | [] => [b0; b1]
          | b2 :: r2 =>
            if (b0 <? 240)%N
            then (N.shiftl (N.land b0 15) 12 + N.shiftl (cont b1) 6 + cont b2)%N
                   :: utf16_of_bytes r2
            else
              match r2 with
              | [] => [b0; b1; b2]
              | b3 :: r3 =>
                surrogates (N.shiftl (N.land b0 7) 18 + N.shiftl (cont b1) 12
                            + N.shiftl (cont b2) 6 + cont b3)%N
                  ++ utf16_of_bytes r3
              end
          end
      end
  end.

Fixpoint bytes_of_string (s : string) : list N :=
  match s with
  | EmptyString => []
  | String a r => N_of_ascii a :: bytes_of_string r
  end.

Definition utf16 (s : string) : jsstring := utf16_of_bytes (bytes_of_string s).

Definition LF : code_unit := 10%N.
Definition nl : jsstring := [LF].

(** ** Truthiness and length *)

(** [!s] for a string: the empty string is the only falsy string. *)
Definition is_empty (s : jsstring) : bool :=
  match s with [] => true | _ => false end.

Definition truthy (s : jsstring) : bool := negb (is_empty s).

(** [!x] for an optional string ([undefined], [null] or empty). *)
Definition truthy_opt (o : option jsstring) : bool :=
  match o with Some s => truthy s | None => false end.

(** ** [String.prototype.trim]

    ECMAScript strips WhiteSpace and LineTerminator code points; all of them
    are in the basic plane, so the test is on single code units. *)
Definition isWhiteSpace (c : code_unit) : bool :=
  ((9 <=? c) && (c <=? 13) || (c =? 32) || (c =? 160) || (c =? 5760)
   || (8192 <=? c) && (c <=? 8202) || (c =? 8232) || (c =? 8233)
   || (c =? 8239) || (c =? 8287) || (c =? 12288) || (c =? 65279))%N.

Fixpoint trimStart (s : jsstring) : jsstring :=
  match s with
  | c :: r => if isWhiteSpace c then trimStart r else s
  | [] => []
  end.

Definition trimEnd (s : jsstring) : jsstring := rev (trimStart (rev s)).

Definition trim (s : jsstring) : jsstring := trimEnd (trimStart s).

(** ** Searching and slicing *)

Definition eqb_cu (a b : code_unit) : bool := (a =? b)%N.

Fixpoint eqb (s t : jsstring) : bool :=
  match s, t with
  | [], [] => true
  | a :: s', b :: t' => eqb_cu a b && eqb s' t'
  | _, _ => false
  end.

Fixpoint startsWith (s prefix : jsstring) : bool :=
  match prefix, s with
  | [], _ => true
  | p :: prefix', c :: s' => eqb_cu p c && startsWith s' prefix'
  | _ :: _, [] => false
  end.

(** [s.includes(needle)] *)
Fixpoint includes (s needle : jsstring) : bool :=
  startsWith s needle ||
  match s with
  | [] => false
  | _ :: s' => includes s' needle
  end.

(** [s.indexOf(c)] for a one-character needle, [None] for [-1]. *)
Fixpoint indexOf (s : jsstring) (c : code_unit) : option nat :=
  match s with
  | [] => None
  | a :: r => if eqb_cu a c then Some O else option_map S (indexOf r c)
  end.

(** [s.lastIndexOf(c)] for a one-character needle, [None] for [-1]. *)
Fixpoint lastIndexOf (s : jsstring) (c : code_unit) : option nat :=
  match s with
  | [] => None
  | a :: r =>
    match lastIndexOf r c with
    | Some i => Some (S i)
    | None => if eqb_cu a c then Some O else None
    end
  end.

(** [s.slice(from, to)] for indexes within [0 .. length]. *)
Definition slice (s : jsstring) (from to : nat) : jsstring :=
  firstn (to - from) (skipn from s).

(** [parts.join(sep)] *)
Fixpoint join (sep : jsstring) (parts : list jsstring) : jsstring :=
  match parts with
  | [] => []
  | [p] => p
  | p :: rest => p ++ sep ++ join sep rest
  end.

(** [s.split(",")] for a one-character separator: never empty, the pieces
  between consecutive separators. *)
Fixpoint split (s : jsstring) (sep : code_unit) : list jsstring :=
  match s with
  | [] => [[]]
  | c :: r =>
    if eqb_cu c sep then [] :: split r sep
    else
      match split r sep with
      | p :: ps => (c :: p) :: ps
      | [] => [[c]]
      end
  end.

(** [arr.includes(x)] on an array of strings. *)
Definition array_includes (arr : list jsstring) (x : jsstring) : bool :=
  existsb (eqb x) arr.

(** [Array.from(new Set(arr))]: the first occurrence of each string, in
  order. *)
Fixpoint dedupe_from (seen : list jsstring) (arr : list jsstring) : list jsstring :=
  match arr with
  | [] => []
  | x :: r =>
    if array_includes seen x then dedupe_from seen r
    else x :: dedupe_from (x :: seen) r
  end.

Definition dedupe (arr : list jsstring) : list jsstring := dedupe_from [] arr.

(** ** Numbers in template literals *)

Definition digit (d : Z) : code_unit := Z.to_N (48 + d).

Fixpoint digits_fuel (fuel : nat) (n : Z) (acc : jsstring) : jsstring :=
  match fuel with
  | O => acc
  | S f =>
    let acc' := digit (n mod 10) :: acc in
    if n <? 10 then acc' else digits_fuel f (n / 10) acc'
  end.

(** [String(n)] for an integer [n]. *)
Definition of_int (n : Z) : jsstring :=
  if n <? 0 then utf16 "-" ++ digits_fuel (S (Z.to_nat (Z.log2 (- n)))) (- n) []
  else digits_fuel (S (Z.to_nat (Z.log2 n))) n [].

(** [toUpperCase] on a string of ASCII letters, digits and punctuation (the
  role names it is applied to are such strings). *)
Definition ascii_upper (c : code_unit) : code_unit :=
  if ((97 <=? c) && (c <=? 122))%N then (c - 32)%N else c.

Definition toUpperCase_ascii (s : jsstring) : jsstring := map ascii_upper s.

End Js.

Abbreviation jsstring := Js.jsstring.
Abbreviation utf16 := Js.utf16.

(* ===================================================================== *)
(** * 2. Values shared by the modules: numbers, JSON, exceptions *)
(* ===================================================================== *)

(** A JavaScript [number]. Every finite double is a rational, and
  [Math.floor], [Math.min] and the comparisons used by the sources are
  exact on them. *)
Inductive JsNumber :=
| NaN
| Infinity (negative : bool)
| Finite (q : Q).

(** A value produced by [JSON.parse]. *)
Inductive JsonValue :=
| JNull
| JBool (b : bool)
| JNum (n : JsNumber)
| JStr (s : jsstring)
| JArr (items : list JsonValue)
| JObj (props : gmap jsstring JsonValue).

(** [class OpenRouterHttpError extends Error] (providers/openrouter.ts). *)
Record OpenRouterHttpError := {
  status : Z;
  responseBody : jsstring;
  message : jsstring
}.

(** The constructor, with its default message
  [`OpenRouter request failed (${status}): ${responseBody.slice(0, 400)}`]. *)
Definition newOpenRouterHttpError
    (status : Z) (responseBody : jsstring) (message : option jsstring)
  : OpenRouterHttpError :=
  {| status := status;
     responseBody := responseBody;
     message :=
       match message with
       | Some m => m
       | None =>
         utf16 "OpenRouter request failed (" ++ Js.of_int status ++ utf16 "): "
           ++ Js.slice responseBody 0 400
       end |}.

(** What a [throw] can carry. *)
Inductive Thrown :=
| HttpError (e : OpenRouterHttpError)
| OtherError (message : jsstring)
| NonError.

(** The completion of a call: a value, or an exception. *)
Inductive Completion (A : Type) :=
| Returns (a : A)
| Throws (t : Thrown).
Arguments Returns {A} a.
Arguments Throws {A} t.

(* ===================================================================== *)
(** * 3. lib/llm/types.ts *)
(* ===================================================================== *)

Inductive LlmRole := refiner | debater_a | debater_b | debater_c | summarizer.

Definition LLM_ROLES : list LlmRole :=
  [refiner; debater_a; debater_b; debater_c; summarizer].

#[global] Instance LlmRole_eq_dec : EqDecision LlmRole.
Proof. solve_decision. Defined.

#[global] Instance LlmRole_countable : Countable LlmRole.
Proof.
  refine (inj_countable'
    (fun r => match r with
              | refiner => 0%nat | debater_a => 1%nat | debater_b => 2%nat
              | debater_c => 3%nat | summarizer => 4%nat end)
    (fun n => match n with
              | 0%nat => refiner | 1%nat => debater_a | 2%nat => debater_b
              | 3%nat => debater_c | _ => summarizer end) _).
  intros []; reflexivity.
Defined.

(** The string a role is at run time. *)
Definition roleName (r : LlmRole) : jsstring :=
  match r with
  | refiner => utf16 "refiner"
  | debater_a => utf16 "debater_a"
  | debater_b => utf16 "debater_b"
  | debater_c => utf16 "debater_c"
  | summarizer => utf16 "summarizer"
  end.

(** [type RoleModelMap = Partial<Record<LlmRole, string>>] *)
Abbreviation RoleModelMap := (gmap LlmRole jsstring).

Inductive ChatRole := system | user | assistant.

Record ChatMessage := {
  msg_role : ChatRole;
  msg_content : jsstring
}.

Record ChatCompletionParams := {
  cp_model : jsstring;
  cp_messages : list ChatMessage;
  cp_temperature : option JsNumber;
  cp_maxTokens : option Z
}.

Record ModelUsage := {
  promptTokens : option JsNumber;
  completionTokens : option JsNumber;
  totalTokens : option JsNumber
}.

Record ModelResponse := {
  mr_content : jsstring;
  mr_model : jsstring;
  mr_usage : option ModelUsage;
  mr_raw : option JsonValue
}.

(** [interface ModelProvider] *)
Record ModelProvider := {
  chatCompletion : ChatCompletionParams -> Completion ModelResponse
}.

(** [process.env] *)
Abbreviation Env := (gmap jsstring jsstring).

(* ===================================================================== *)
(** * 4. lib/llm/model-config.ts *)
(* ===================================================================== *)

Definition BASE_AVAILABLE_MODELS : list jsstring :=
  [ utf16 "openai/gpt-oss-120b:free";
    utf16 "qwen/qwen3-next-80b-a3b-instruct:free";
    utf16 "google/gemma-3-27b-it:free";
    utf16 "meta-llama/llama-3.3-70b-instruct:free";
    utf16 "deepseek/deepseek-r1-0528:free";
    utf16 "deepseek/deepseek-v3.2" ].

Definition comma : Js.code_unit := 44%N.
Definition slash : Js.code_unit := 47%N.

Definition parseModelList (raw : option jsstring) : list jsstring :=
  match raw with
  | None => []
  | Some raw =>
    if Js.is_empty raw then []
    else List.filter (fun item => (0 <? length item)%nat)
                     (map Js.trim (Js.split raw comma))
  end.

Definition getAvailableModels (env : Env) : list jsstring :=
  let customModels :=
    parseModelList (Js.trim <$> env !! utf16 "OPENROUTER_MODELS") in
  let extraModels :=
    parseModelList (Js.trim <$> env !! utf16 "OPENROUTER_EXTRA_MODELS") in
  let seed :=
    if (0 <? length customModels)%nat then customModels
    else BASE_AVAILABLE_MODELS in
  let merged := seed ++ extraModels in
  Js.dedupe merged.

Definition DEFAULT_ROLE_MODEL_MAP (r : LlmRole) : jsstring :=
  match r with
  | refiner => utf16 "qwen/qwen3-next-80b-a3b-instruct:free"
  | debater_a => utf16 "openai/gpt-oss-120b:free"
  | debater_b => utf16 "google/gemma-3-27b-it:free"
  | debater_c => utf16 "meta-llama/llama-3.3-70b-instruct:free"
  | summarizer => utf16 "deepseek/deepseek-v3.2"
  end.

(** The pattern [/^[a-z0-9._-]+\/[a-z0-9._:-]+$/i]. Without the [u] flag,
  case-insensitive matching never maps a character outside ASCII onto an
  ASCII one, so the two classes are the ASCII letters of both cases, the
  digits and the listed punctuation. *)
Definition isAsciiAlnum (c : Js.code_unit) : bool :=
  ((97 <=? c) && (c <=? 122) || (65 <=? c) && (c <=? 90)
   || (48 <=? c) && (c <=? 57))%N.

(** [[a-z0-9._-]] under [/i] *)
Definition isVendorChar (c : Js.code_unit) : bool :=
  (isAsciiAlnum c || (c =? 46) || (c =? 95) || (c =? 45))%N.

(** [[a-z0-9._:-]] under [/i] *)
Definition isModelNameChar (c : Js.code_unit) : bool :=
  (isVendorChar c || (c =? 58))%N.

(** The matcher: no class contains the slash, so the vendor part is what
  precedes the first slash and the rest must be slash-free. *)
Definition matchesModelIdPattern (s : jsstring) : bool :=
  match Js.indexOf s slash with
  | None => false
  | Some i =>
    let vendor := firstn i s in
    let name := skipn (S i) s in
    Js.truthy vendor && forallb isVendorChar vendor
    && Js.truthy name && forallb isModelNameChar name
  end.

Section ModelConfigOver.
(** The two module-level inputs of the resolver, abstracted: the list
    [getAvailableModels()] returns and the table of per-role defaults. *)
Variable available : list jsstring.
Variable defaults : LlmRole -> jsstring.

Definition isAllowedModelIn (model : jsstring) : bool :=
  let normalized := Js.trim model in
  if (length normalized =? 0)%nat then false
  else if Js.array_includes available normalized then true
  else matchesModelIdPattern normalized.

Definition noModelsError : Thrown :=
  OtherError
    (utf16 "No available models configured. Please set OPENROUTER_MODELS in .env.local.").

Definition resolveModelForRoleWith
    (r : LlmRole) (roleModelMap : option RoleModelMap) : Completion jsstring :=
  let fromRequest := Js.trim <$> (roleModelMap ≫= fun m => m !! r) in
  let afterRequest :=
    let fromDefaults := defaults r in
    if isAllowedModelIn fromDefaults then Returns fromDefaults
    else
      let firstAvailableModel := head available in
      match firstAvailableModel with
      | Some m => if Js.truthy m then Returns m else Throws noModelsError
      | None => Throws noModelsError
      end in
  match fromRequest with
  | Some m =>
    if Js.truthy m && isAllowedModelIn m then Returns m else afterRequest
  | None => afterRequest
  end.
End ModelConfigOver.

Definition isAllowedModel (env : Env) (model : jsstring) : bool :=
  isAllowedModelIn (getAvailableModels env) model.

Definition supportsSystemPrompt (model : jsstring) : bool :=
  let normalized := Js.trim model in
  negb (Js.startsWith normalized (utf16 "google/gemma")).

Definition resolveModelForRole
    (env : Env) (r : LlmRole) (roleModelMap : option RoleModelMap)
  : Completion jsstring :=
  resolveModelForRoleWith (getAvailableModels env) DEFAULT_ROLE_MODEL_MAP
    r roleModelMap.

(* ===================================================================== *)
(** * 5. lib/llm/service.ts *)
(* ===================================================================== *)

Definition getFallbackModels (env : Env) (primaryModel : jsstring) : list jsstring :=
  List.filter (fun model => negb (Js.eqb model primaryModel))
              (getAvailableModels env).

Definition defaultRoleMaxTokens (r : LlmRole) : Z :=
  match r with
  | refiner => 500
  | debater_a => 800
  | debater_b => 800
  | debater_c => 800
  | summarizer => 900
  end.

(** ** [Number.parseInt(s, 10)] *)

Inductive ParsedInt :=
| ParsedNaN
| ParsedInfinity (negative : bool)
| ParsedInteger (z : Z).

Definition isDigit (c : Js.code_unit) : bool := ((48 <=? c) && (c <=? 57))%N.

Fixpoint leadingDigits (s : jsstring) : jsstring :=
  match s with
  | c :: r => if isDigit c then c :: leadingDigits r else []
  | [] => []
  end.

Definition decimalValue (ds : jsstring) : Z :=
  fold_left (fun acc c => acc * 10 + (Z.of_N c - 48)) ds 0.

(** The Number value of a non-negative integer: the nearest double, ties to
  even, [None] when it overflows to [Infinity]. *)
Definition roundToDouble (m : Z) : option Z :=
  let bits := Z.log2 m + 1 in
  if bits <=? 53 then Some m
  else
    let e := bits - 53 in
    let q := Z.shiftr m e in
    let r := Z.land m (Z.ones e) in
    let half := Z.shiftl 1 (e - 1) in
    let q' := if (half <? r) || ((r =? half) && Z.odd q) then q + 1 else q in
    let v := Z.shiftl q' e in
    if Z.shiftl 1 1024 <=? v then None else Some v.

Definition Number_parseInt10 (s : jsstring) : ParsedInt :=
  let s := Js.trimStart s in
  let '(negative, s) :=
    match s with
    | c :: r => if (c =? 45)%N then (true, r)
                else if (c =? 43)%N then (false, r) else (false, s)
    | [] => (false, s)
    end in
  let ds := leadingDigits s in
  if Js.is_empty ds then ParsedNaN
  else
    match roundToDouble (decimalValue ds) with
    | None => ParsedInfinity negative
    | Some v => ParsedInteger (if negative then - v else v)
    end.

Definition parsePositiveInt (raw : option jsstring) : option Z :=
  match raw with
  | None => None
  | Some raw =>
    if Js.is_empty raw then None
    else
      match Number_parseInt10 (Js.trim raw) with
      | ParsedInteger value => if value <=? 0 then None else Some value
      | _ => None
      end
  end.

(** [Math.floor] of a finite number. *)
Definition Math_floor (q : Q) : Z := Qfloor q.

(** [override > 0] for a finite number. *)
Definition isPositive (q : Q) : bool := 0 <? Qnum q.

Definition resolveMaxTokens (env : Env) (r : LlmRole) (override : option JsNumber) : Z :=
  let hardCap :=
    default 4096 (parsePositiveInt (env !! utf16 "OPENROUTER_MAX_TOKENS_CAP")) in
  let perRoleEnvKey :=
    utf16 "OPENROUTER_MAX_TOKENS_" ++ Js.toUpperCase_ascii (roleName r) in
  let fromEnv := parsePositiveInt (env !! perRoleEnvKey) in
  let fromOverride :=
    match override with
    | Some (Finite q) => if isPositive q then Some (Math_floor q) else None
    | _ => None
    end in
  let baseValue :=
    match fromOverride with
    | Some v => v
    | None => default (defaultRoleMaxTokens r) fromEnv
    end in
  Z.min baseValue hardCap.

Definition buildMessagesForModel
    (model systemPrompt userPrompt : jsstring) : list ChatMessage :=
  if supportsSystemPrompt model then
    [ {| msg_role := system; msg_content := systemPrompt |};
      {| msg_role := user; msg_content := userPrompt |} ]
  else
    [ {| msg_role := user;
         msg_content :=
           utf16 "System instruction:" ++ Js.nl ++ systemPrompt ++ Js.nl ++ Js.nl
             ++ utf16 "User prompt:" ++ Js.nl ++ userPrompt |} ].

Module RunRoleInput.
Record t := {
    role : LlmRole;
    userPrompt : jsstring;
    model : option jsstring;
    roleModelMap : option RoleModelMap;
    allowFallback : option bool;
    systemPrompt : option jsstring;
    temperature : option JsNumber;
    maxTokens : option JsNumber
  }.
End RunRoleInput.

(** ** The effects of a run: provider calls and sleeps, in order *)

Inductive Event :=
| ChatCall (params : ChatCompletionParams)
| Sleep (ms : Z).

(** A computation that appends to the trace of events and returns or throws. *)
Definition Run (A : Type) : Type := list Event -> Completion A * list Event.

#[global] Instance Run_ret : MRet Run := fun A a t => (Returns a, t).

#[global] Instance Run_bind : MBind Run := fun A B k m t =>
  match m t with
  | (Returns a, t') => k a t'
  | (Throws e, t') => (Throws e, t')
  end.

Definition throw {A} (e : Thrown) : Run A := fun t => (Throws e, t).

Definition lift {A} (c : Completion A) : Run A := fun t => (c, t).

(** [try { m } catch (e) { h e }] *)
Definition try_catch {A} (m : Run A) (h : Thrown -> Run A) : Run A := fun t =>
  match m t with
  | (Returns a, t') => (Returns a, t')
  | (Throws e, t') => h e t'
  end.

(** [await sleep(ms)] *)
Definition sleep (ms : Z) : Run unit := fun t => (Returns tt, t ++ [Sleep ms]).

(** [await provider.chatCompletion(params)] *)
Definition chat (provider : ModelProvider) (params : ChatCompletionParams)
  : Run ModelResponse :=
  fun t => (chatCompletion provider params, t ++ [ChatCall params]).

(** How the [for] loop of the fallback ends: by the [return] inside it, or
  by running out of candidates. Both carry the local [attemptedModels]. *)
Inductive LoopExit :=
| Returned (response : ModelResponse) (attemptedModels : list jsstring)
| Exhausted (attemptedModels : list jsstring).

Definition is429 (error : Thrown) : bool :=
  match error with
  | HttpError e => status e =? 429
  | _ => false
  end.

Definition rateLimitedMessage (attemptedModels : list jsstring) : jsstring :=
  utf16 "OpenRouter free models are currently rate-limited. Tried: "
    ++ Js.join (utf16 ", ") attemptedModels
    ++ utf16 ". Please retry shortly or use BYOK (your own provider key).".

Section Service.
Variable env : Env.
(** The five prompt texts of [defaultSystemPrompts]. *)
Variable defaultSystemPrompts : LlmRole -> jsstring.
(** [getProvider()]: the provider, or the exception of its constructor. *)
Variable getProvider : Completion ModelProvider.

Section Invocation.
Variable input : RunRoleInput.t.

Definition explicitModel : option jsstring :=
  Js.trim <$> RunRoleInput.model input.

Definition effectiveAllowFallback : bool :=
  default (negb (Js.truthy_opt explicitModel)) (RunRoleInput.allowFallback input).

Definition effectiveSystemPrompt : jsstring :=
  default (defaultSystemPrompts (RunRoleInput.role input))
          (RunRoleInput.systemPrompt input).

(** The parameters of the call made for [model]. *)
Definition request (model : jsstring) : ChatCompletionParams :=
  {| cp_model := model;
     cp_messages :=
       buildMessagesForModel model effectiveSystemPrompt
         (RunRoleInput.userPrompt input);
     cp_temperature := RunRoleInput.temperature input;
     cp_maxTokens :=
       Some (resolveMaxTokens env (RunRoleInput.role input)
               (RunRoleInput.maxTokens input)) |}.

Fixpoint fallbackLoop (provider : ModelProvider)
    (candidates : list jsstring) (attemptedModels : list jsstring)
  : Run LoopExit :=
  match candidates with
  | [] => mret (Exhausted attemptedModels)
  | fallbackModel :: rest =>
    let attemptedModels := attemptedModels ++ [fallbackModel] in
    try_catch
      (_ ← sleep 200;
       response ← chat provider (request fallbackModel);
       mret (Returned response attemptedModels))
      (fun fallbackError =>
         if negb (is429 fallbackError) then throw fallbackError
         else fallbackLoop provider rest attemptedModels)
  end.

Definition resolvedModel : Completion jsstring :=
  match explicitModel with
  | Some m =>
    if Js.truthy m then Returns m
    else resolveModelForRole env (RunRoleInput.role input)
           (RunRoleInput.roleModelMap input)
  | None =>
    resolveModelForRole env (RunRoleInput.role input)
      (RunRoleInput.roleModelMap input)
  end.

Definition runRole : Run ModelResponse :=
  model ← lift resolvedModel;
  provider ← lift getProvider;
  try_catch
    (chat provider (request model))
    (fun error =>
       match error with
       | HttpError e =>
         if negb (status e =? 429) || negb effectiveAllowFallback
         then throw error
         else
           exit ← fallbackLoop provider (getFallbackModels env model) [model];
           match exit with
           | Returned response _ => mret response
           | Exhausted attemptedModels =>
             throw (HttpError
                      (newOpenRouterHttpError 429 (responseBody e)
                         (Some (rateLimitedMessage attemptedModels))))
           end
       | _ => throw error
       end).
End Invocation.
End Service.

(* ===================================================================== *)
(** * 6. app/debate/page.tsx *)
(* ===================================================================== *)

(** The three debater roles of [LlmRole], under names that stay in reach
  where the page declares its own [DebaterRole]. *)
Abbreviation llm_debater_a := debater_a.
Abbreviation llm_debater_b := debater_b.
Abbreviation llm_debater_c := debater_c.

Module DebatePage.

Inductive DebaterRole := debater_a | debater_b | debater_c.

#[global] Instance DebaterRole_eq_dec : EqDecision DebaterRole.
Proof. solve_decision. Defined.

#[global] Instance DebaterRole_countable : Countable DebaterRole.
Proof.
  refine (inj_countable'
    (fun r => match r with
              | debater_a => 0%nat | debater_b => 1%nat | debater_c => 2%nat end)
    (fun n => match n with
              | 0%nat => debater_a | 1%nat => debater_b | _ => debater_c end) _).
  intros []; reflexivity.
Defined.

Definition toLlmRole (r : DebaterRole) : LlmRole :=
  match r with
  | debater_a => llm_debater_a
  | debater_b => llm_debater_b
  | debater_c => llm_debater_c
  end.

(** [type DebateRound = 1 | 2] *)
Inductive DebateRound := Round1 | Round2.

Definition roundNumber (r : DebateRound) : Z :=
  match r with Round1 => 1 | Round2 => 2 end.

Inductive SummaryMode := hidden | round1 | round2.
Inductive UiLang := zh | en.

Definition DEBATER_ROLES : list DebaterRole := [debater_a; debater_b; debater_c].

Definition INTERNAL_ROLE_LABELS (r : DebaterRole) : jsstring :=
  match r with
  | debater_a => utf16 "模型1"
  | debater_b => utf16 "模型2"
  | debater_c => utf16 "模型3"
  end.

Definition ROLE_LABELS_BY_LANG (lang : UiLang) (r : DebaterRole) : jsstring :=
  match lang, r with
  | zh, debater_a => utf16 "模型1"
  | zh, debater_b => utf16 "模型2"
  | zh, debater_c => utf16 "模型3"
  | en, debater_a => utf16 "Model 1"
  | en, debater_b => utf16 "Model 2"
  | en, debater_c => utf16 "Model 3"
  end.

Definition ROLE_SPEAKERS_BY_LANG (lang : UiLang) (r : DebaterRole) : jsstring :=
  match lang, r with
  | zh, debater_a => utf16 "1号辩手"
  | zh, debater_b => utf16 "2号辩手"
  | zh, debater_c => utf16 "3号辩手"
  | en, debater_a => utf16 "Debater 1"
  | en, debater_b => utf16 "Debater 2"
  | en, debater_c => utf16 "Debater 3"
  end.

(** The body of a reply of [/api/llm/test], as its two declared shapes. *)
Inductive TestResponse :=
| TestSuccessResponse (role : LlmRole) (model content : jsstring)
| TestErrorResponse (error details : option jsstring).

Record DebaterParsedOutput := {
  speaker : jsstring;
  newPerspectives : list jsstring;
  counterpoints : list jsstring
}.

Record DebaterResult := {
  model : jsstring;
  rawContent : jsstring;
  parsed : option DebaterParsedOutput;
  error : option jsstring
}.

(** [type RoundResults = Partial<Record<DebaterRole, DebaterResult>>] *)
Abbreviation RoundResults := (gmap DebaterRole DebaterResult).

Definition openBrace : Js.code_unit := 123%N.
Definition closeBrace : Js.code_unit := 125%N.

Section Parser.
(** [JSON.parse]: the parsed value, or [None] when it throws. *)
Variable JSON_parse : jsstring -> option JsonValue.

Definition parseJsonObject (raw : jsstring) : option (gmap jsstring JsonValue) :=
  let trimmed := Js.trim raw in
  if Js.is_empty trimmed then None
  else
    let fallback :=
      let firstBrace := Js.indexOf trimmed openBrace in
      let lastBrace := Js.lastIndexOf trimmed closeBrace in
      match firstBrace, lastBrace with
      | Some firstBrace, Some lastBrace =>
        if (firstBrace <? lastBrace)%nat then
          match JSON_parse (Js.slice trimmed firstBrace (lastBrace + 1)) with
          | Some (JObj parsed) => Some parsed
          | Some _ => None
          | None => None
          end
        else None
      | _, _ => None
      end in
    match JSON_parse trimmed with
    | Some (JObj parsed) => Some parsed
    | Some _ => fallback
    | None => fallback
    end.

Definition readContentsArray (value : option JsonValue) : list jsstring :=
  match value with
  | Some (JArr items) =>
    List.filter (fun item => (0 <? length item)%nat)
      (map (fun item =>
              match item with
              | JObj props =>
                match props !! utf16 "contents" with
                | Some (JStr maybeContents) => Js.trim maybeContents
                | _ => []
                end
              | _ => []
              end)
           items)
  | _ => []
  end.

Definition parseDebaterOutput (raw fallbackSpeaker : jsstring)
  : option DebaterParsedOutput :=
  match parseJsonObject raw with
  | None => None
  | Some parsed =>
    let speakerRaw := parsed !! utf16 "speaker" in
    let speaker :=
      match speakerRaw with
      | Some (JStr speakerRaw) =>
        if (0 <? length (Js.trim speakerRaw))%nat then Js.trim speakerRaw
        else fallbackSpeaker
      | _ => fallbackSpeaker
      end in
    let newPerspectives := readContentsArray (parsed !! utf16 "new_perspectives") in
    let counterpoints := readContentsArray (parsed !! utf16 "counterpoints") in
    if (length newPerspectives =? 0)%nat && (length counterpoints =? 0)%nat
    then None
    else Some {| speaker := speaker;
                 newPerspectives := newPerspectives;
                 counterpoints := counterpoints |}
  end.
End Parser.

Definition defaultErrorMessage : jsstring := utf16 "Request failed. Please retry.".

Definition getErrorMessage (raw : TestResponse) : jsstring :=
  match raw with
  | TestErrorResponse error details =>
    match error, details with
    | Some e, Some d =>
      if Js.truthy e && Js.truthy d then e ++ Js.nl ++ d
      else if Js.truthy e then e else defaultErrorMessage
    | Some e, None => if Js.truthy e then e else defaultErrorMessage
    | None, _ => defaultErrorMessage
    end
  | TestSuccessResponse _ _ _ => defaultErrorMessage
  end.

Definition overflowPhrases : list jsstring :=
  [ utf16 "context length"; utf16 "maximum context"; utf16 "max context";
    utf16 "max tokens"; utf16 "token limit"; utf16 "prompt is too long";
    utf16 "too many tokens" ].

Section Hint.
(** [String.prototype.toLowerCase] *)
Variable toLowerCase : jsstring -> jsstring.

Definition mayBeOverflow (msg : jsstring) : bool :=
  let normalized := toLowerCase msg in
  existsb (Js.includes normalized) overflowPhrases.

Definition withContextOverflowHint (msg : jsstring) (language : UiLang) : jsstring :=
  if negb (mayBeOverflow msg) then msg
  else
    match language with
    | en =>
      utf16 "Context is too long. Reduce rounds or shorten input, then retry."
        ++ Js.nl ++ Js.nl ++ utf16 "Original error: " ++ msg
    | zh =>
      utf16 "上下文过长，请减少轮次或缩短输入后重试。"
        ++ Js.nl ++ Js.nl ++ utf16 "原始错误：" ++ msg
    end.
End Hint.

Definition hasRoundCompleted (results : RoundResults) : bool :=
  forallb (fun r => bool_decide (is_Some (results !! r))) DEBATER_ROLES.

Definition hasAnyRoundResult (results : RoundResults) : bool :=
  existsb (fun r => bool_decide (is_Some (results !! r))) DEBATER_ROLES.

Definition normalizeOptionalText (raw : option jsstring) : option jsstring :=
  match raw with
  | None => None
  | Some raw =>
    if Js.is_empty raw then None
    else
      let normalized := Js.trim raw in
      if (0 <? length normalized)%nat then Some normalized else None
  end.

Definition extractParsedLines (result : DebaterResult) : list jsstring :=
  match parsed result with
  | None => []
  | Some p =>
    imap (fun index item =>
            utf16 "- 新视角" ++ Js.of_int (Z.of_nat index + 1) ++ utf16 ": " ++ item)
         (newPerspectives p)
    ++
    imap (fun index item =>
            utf16 "- 反驳" ++ Js.of_int (Z.of_nat index + 1) ++ utf16 ": " ++ item)
         (counterpoints p)
  end.

(** The body shared by the two loops of [buildDebateContext]: [None] is a
  [continue], [Some section] is the string pushed. *)
Definition contextEntry (label : jsstring) (result : option DebaterResult)
  : option jsstring :=
  match result with
  | None => None
  | Some result =>
    if Js.truthy_opt (error result) then None
    else
      match parsed result with
      | None => None
      | Some p =>
        let lines := extractParsedLines result in
        if (length lines =? 0)%nat then None
        else Some (label ++ utf16 " " ++ speaker p ++ Js.nl ++ Js.join Js.nl lines)
      end
  end.

(** [for (const role of roles) { ...; sections.push(...) }] *)
Definition pushEntries (label : jsstring) (results : RoundResults)
    (roles : list DebaterRole) (sections : list jsstring) : list jsstring :=
  fold_left
    (fun sections role =>
       match contextEntry label (results !! role) with
       | None => sections
       | Some section => sections ++ [section]
       end)
    roles sections.

(** [DEBATER_ROLES.indexOf(currentRole)] *)
Definition roleIndex (r : DebaterRole) : nat :=
  match r with debater_a => 0 | debater_b => 1 | debater_c => 2 end.

Definition currentRoundLabel (currentRound : DebateRound) : jsstring :=
  utf16 "第" ++ Js.of_int (roundNumber currentRound) ++ utf16 "轮".

(** The array [sections] at the end of [buildDebateContext]. *)
Definition debateContextSections
    (currentRole : DebaterRole) (currentRound : DebateRound)
    (round1Results currentRoundResults : RoundResults) : list jsstring :=
  let sections := [] in
  let sections :=
    match currentRound with
    | Round2 => pushEntries (utf16 "第一轮") round1Results DEBATER_ROLES sections
    | Round1 => sections
    end in
  let currentIndex := roleIndex currentRole in
  let previousRoles := firstn currentIndex DEBATER_ROLES in
  pushEntries (currentRoundLabel currentRound) currentRoundResults
    previousRoles sections.

Definition buildDebateContext
    (currentRole : DebaterRole) (currentRound : DebateRound)
    (round1Results currentRoundResults : RoundResults) : jsstring :=
  Js.join (Js.nl ++ Js.nl)
    (debateContextSections currentRole currentRound round1Results currentRoundResults).

Definition buildPromptForRole
    (basePrompt : jsstring) (r : DebaterRole) (currentRound : DebateRound)
    (round1Results currentRoundResults : RoundResults)
    (addendum : option jsstring) : jsstring :=
  let normalizedAddendum :=
    match currentRound with
    | Round2 => normalizeOptionalText addendum
    | Round1 => None
    end in
  let context := buildDebateContext r currentRound round1Results currentRoundResults in
  let addendumSection :=
    match normalizedAddendum with
    | Some a =>
      if Js.truthy a then
        utf16 "以下是第一轮后用户补充信息（独立输入）：" ++ Js.nl
          ++ utf16 "[User Addendum After Round 1 / 第一轮后用户补充信息]" ++ Js.nl
          ++ a ++ Js.nl
      else []
    | None => []
    end in
  let contextSection :=
    if Js.truthy context then
      utf16 "以下是你可用的前序有效观点：" ++ Js.nl ++ context ++ Js.nl
    else [] in
  if Js.is_empty addendumSection && Js.is_empty contextSection then
    basePrompt ++ Js.nl ++ Js.nl
      ++ utf16 "当前是第" ++ Js.of_int (roundNumber currentRound)
      ++ utf16 "轮讨论，请保持输出简短易懂。语言要求：根据用户输入与聊天记录的主要语言作答，用户用英文则输出英文，用户用中文则输出中文。"
  else
    basePrompt ++ Js.nl ++ Js.nl
      ++ utf16 "当前是第" ++ Js.of_int (roundNumber currentRound) ++ utf16 "轮讨论。" ++ Js.nl
      ++ addendumSection ++ contextSection ++ Js.nl ++ Js.nl
      ++ utf16 "请基于以上内容提出你的新视角与反驳，保持既定 JSON 结构并且不要输出额外文本。".

(** The part of the loop body of [buildSummaryBlock] reached by a result
  without error. *)
Definition summaryChunkOfOutput (roleName : jsstring) (result : DebaterResult)
  : jsstring :=
  match parsed result with
  | Some p =>
    let lines := extractParsedLines result in
    if (0 <? length lines)%nat
    then speaker p ++ Js.nl ++ Js.join Js.nl lines
    else speaker p ++ utf16 ": 无有效 contents"
  | None =>
    roleName ++ utf16 ": "
      ++ (if Js.truthy (rawContent result) then rawContent result else utf16 "无输出")
  end.

Definition summaryChunk (results : RoundResults) (r : DebaterRole) : jsstring :=
  let roleName := INTERNAL_ROLE_LABELS r in
  match results !! r with
  | None => roleName ++ utf16 ": 无输出"
  | Some result =>
    if Js.truthy_opt (error result)
    then roleName ++ utf16 ": 调用失败 -> " ++ default [] (error result)
    else summaryChunkOfOutput roleName result
  end.

Definition buildSummaryBlock (roundLabel : jsstring) (results : RoundResults) : jsstring :=
  let chunks := map (summaryChunk results) DEBATER_ROLES in
  roundLabel ++ Js.nl ++ Js.join (Js.nl ++ Js.nl) chunks.

Definition buildSummaryPrompt
    (finalPrompt : jsstring) (round1Results : RoundResults)
    (round2Results : option RoundResults) (addendum : option jsstring) : jsstring :=
  let normalizedAddendum := normalizeOptionalText addendum in
  let blocks :=
    [buildSummaryBlock (utf16 "第一轮讨论结果") round1Results]
    ++ match round2Results with
       | Some round2Results => [buildSummaryBlock (utf16 "第二轮讨论结果") round2Results]
       | None => []
       end in
  let addendumSection :=
    match normalizedAddendum with
    | Some a =>
      if Js.truthy a then
        utf16 "第一轮后用户补充信息 / User Addendum After Round 1:" ++ Js.nl
          ++ a ++ Js.nl ++ Js.nl
      else []
    | None => []
    end in
  utf16 "用户正式问题：" ++ Js.nl ++ finalPrompt ++ Js.nl ++ Js.nl
    ++ addendumSection
    ++ utf16 "请根据以下辩论结果生成总结（简短、清晰、可执行）：" ++ Js.nl
    ++ Js.join (Js.nl ++ Js.nl) blocks ++ Js.nl ++ Js.nl
    ++ utf16 "输出要求：" ++ Js.nl
    ++ utf16 "1) 严格输出 JSON，遵循你既定的输出 schema（new_perspectives/counterpoints）。" ++ Js.nl
    ++ utf16 "2) 先给最终建议，再给推荐做法与不推荐做法。" ++ Js.nl
    ++ utf16 "3) 推荐做法可为 1 条或多条，不强制 3-5 条。" ++ Js.nl
    ++ utf16 "4) 语言要求：根据用户输入与聊天记录的主要语言输出，用户用英文则输出英文，用户用中文则输出中文。".

(** ** The state of the page

    The [useState] cells read or written by the round and summary handlers.
    (The cells of the history panel and of the model loader are left out:
    these handlers do not read them, and the write of the history record
    after a successful summary is outside this model.) *)
Record PageState := {
  uiLang : UiLang;
  debaterModels : DebaterRole -> jsstring;
  summarizerModel : jsstring;
  finalPrompt : jsstring;
  pageError : jsstring;
  round1Results : RoundResults;
  round2Results : RoundResults;
  summaryResult : jsstring;
  summarySourceRound : option DebateRound;
  round2AddendumDraft : jsstring;
  round2AddendumCommitted : option jsstring;
  round2Started : bool;
  summaryMode : SummaryMode;
  isRunningDebate : bool;
  runningRound : option DebateRound;
  runningRole : option DebaterRole;
  isRunningSummary : bool;
  debateError : jsstring;
  summaryError : jsstring
}.

(** The setters: each replaces one cell. *)
Definition setRound1Results (v : RoundResults) (s : PageState) : PageState :=
  {| uiLang := uiLang s; debaterModels := debaterModels s;
     summarizerModel := summarizerModel s; finalPrompt := finalPrompt s;
     pageError := pageError s; round1Results := v; round2Results := round2Results s;
     summaryResult := summaryResult s; summarySourceRound := summarySourceRound s;
     round2AddendumDraft := round2AddendumDraft s;
     round2AddendumCommitted := round2AddendumCommitted s;
     round2Started := round2Started s; summaryMode := summaryMode s;
     isRunningDebate := isRunningDebate s; runningRound := runningRound s;
     runningRole := runningRole s; isRunningSummary := isRunningSummary s;
     debateError := debateError s; summaryError := summaryError s |}.

Definition setRound2Results (v : RoundResults) (s : PageState) : PageState :=
  {| uiLang := uiLang s; debaterModels := debaterModels s;
     summarizerModel := summarizerModel s; finalPrompt := finalPrompt s;
     pageError := pageError s; round1Results := round1Results s; round2Results := v;
     summaryResult := summaryResult s; summarySourceRound := summarySourceRound s;
     round2AddendumDraft := round2AddendumDraft s;
     round2AddendumCommitted := round2AddendumCommitted s;
     round2Started := round2Started s; summaryMode := summaryMode s;
     isRunningDebate := isRunningDebate s; runningRound := runningRound s;
     runningRole := runningRole s; isRunningSummary := isRunningSummary s;
     debateError := debateError s; summaryError := summaryError s |}.

Definition setSummaryResult (v : jsstring) (s : PageState) : PageState :=
  {| uiLang := uiLang s; debaterModels := debaterModels s;
     summarizerModel := summarizerModel s; finalPrompt := finalPrompt s;
     pageError := pageError s; round1Results := round1Results s;
     round2Results := round2Results s; summaryResult := v;
     summarySourceRound := summarySourceRound s;
     round2AddendumDraft := round2AddendumDraft s;
     round2AddendumCommitted := round2AddendumCommitted s;
     round2Started := round2Started s; summaryMode := summaryMode s;
     isRunningDebate := isRunningDebate s; runningRound := runningRound s;
     runningRole := runningRole s; isRunningSummary := isRunningSummary s;
     debateError := debateError s; summaryError := summaryError s |}.

Definition setSummarySourceRound (v : option DebateRound) (s : PageState) : PageState :=
  {| uiLang := uiLang s; debaterModels := debaterModels s;
     summarizerModel := summarizerModel s; finalPrompt := finalPrompt s;
     pageError := pageError s; round1Results := round1Results s;
     round2Results := round2Results s; summaryResult := summaryResult s;
     summarySourceRound := v; round2AddendumDraft := round2AddendumDraft s;
     round2AddendumCommitted := round2AddendumCommitted s;
     round2Started := round2Started s; summaryMode := summaryMode s;
     isRunningDebate := isRunningDebate s; runningRound := runningRound s;
     runningRole := runningRole s; isRunningSummary := isRunningSummary s;
     debateError := debateError s; summaryError := summaryError s |}.

Definition setRound2AddendumDraft (v : jsstring) (s : PageState) : PageState :=
  {| uiLang := uiLang s; debaterModels := debaterModels s;
     summarizerModel := summarizerModel s; finalPrompt := finalPrompt s;
     pageError := pageError s; round1Results := round1Results s;
     round2Results := round2Results s; summaryResult := summaryResult s;
     summarySourceRound := summarySourceRound s; round2AddendumDraft := v;
     round2AddendumCommitted := round2AddendumCommitted s;
     round2Started := round2Started s; summaryMode := summaryMode s;
     isRunningDebate := isRunningDebate s; runningRound := runningRound s;
     runningRole := runningRole s; isRunningSummary := isRunningSummary s;
     debateError := debateError s; summaryError := summaryError s |}.

Definition setRound2AddendumCommitted (v : option jsstring) (s : PageState) : PageState :=
  {| uiLang := uiLang s; debaterModels := debaterModels s;
     summarizerModel := summarizerModel s; finalPrompt := finalPrompt s;
     pageError := pageError s; round1Results := round1Results s;
     round2Results := round2Results s; summaryResult := summaryResult s;
     summarySourceRound := summarySourceRound s;
     round2AddendumDraft := round2AddendumDraft s; round2AddendumCommitted := v;
     round2Started := round2Started s; summaryMode := summaryMode s;
     isRunningDebate := isRunningDebate s; runningRound := runningRound s;
     runningRole := runningRole s; isRunningSummary := isRunningSummary s;
     debateError := debateError s; summaryError := summaryError s |}.

Definition setRound2Started (v : bool) (s : PageState) : PageState :=
  {| uiLang := uiLang s; debaterModels := debaterModels s;
     summarizerModel := summarizerModel s; finalPrompt := finalPrompt s;
     pageError := pageError s; round1Results := round1Results s;
     round2Results := round2Results s; summaryResult := summaryResult s;
     summarySourceRound := summarySourceRound s;
     round2AddendumDraft := round2AddendumDraft s;
     round2AddendumCommitted := round2AddendumCommitted s; round2Started := v;
     summaryMode := summaryMode s; isRunningDebate := isRunningDebate s;
     runningRound := runningRound s; runningRole := runningRole s;
     isRunningSummary := isRunningSummary s; debateError := debateError s;
     summaryError := summaryError s |}.

Definition setSummaryMode (v : SummaryMode) (s : PageState) : PageState :=
  {| uiLang := uiLang s; debaterModels := debaterModels s;
     summarizerModel := summarizerModel s; finalPrompt := finalPrompt s;
     pageError := pageError s; round1Results := round1Results s;
     round2Results := round2Results s; summaryResult := summaryResult s;
     summarySourceRound := summarySourceRound s;
     round2AddendumDraft := round2AddendumDraft s;
     round2AddendumCommitted := round2AddendumCommitted s;
     round2Started := round2Started s; summaryMode := v;
     isRunningDebate := isRunningDebate s; runningRound := runningRound s;
     runningRole := runningRole s; isRunningSummary := isRunningSummary s;
     debateError := debateError s; summaryError := summaryError s |}.

Definition setIsRunningDebate (v : bool) (s : PageState) : PageState :=
  {| uiLang := uiLang s; debaterModels := debaterModels s;
     summarizerModel := summarizerModel s; finalPrompt := finalPrompt s;
     pageError := pageError s; round1Results := round1Results s;
     round2Results := round2Results s; summaryResult := summaryResult s;
     summarySourceRound := summarySourceRound s;
     round2AddendumDraft := round2AddendumDraft s;
     round2AddendumCommitted := round2AddendumCommitted s;
     round2Started := round2Started s; summaryMode := summaryMode s;
     isRunningDebate := v; runningRound := runningRound s;
     runningRole := runningRole s; isRunningSummary := isRunningSummary s;
     debateError := debateError s; summaryError := summaryError s |}.

Definition setRunningRound (v : option DebateRound) (s : PageState) : PageState :=
  {| uiLang := uiLang s; debaterModels := debaterModels s;
     summarizerModel := summarizerModel s; finalPrompt := finalPrompt s;
     pageError := pageError s; round1Results := round1Results s;
     round2Results := round2Results s; summaryResult := summaryResult s;
     summarySourceRound := summarySourceRound s;
     round2AddendumDraft := round2AddendumDraft s;
     round2AddendumCommitted := round2AddendumCommitted s;
     round2Started := round2Started s; summaryMode := summaryMode s;
     isRunningDebate := isRunningDebate s; runningRound := v;
     runningRole := runningRole s; isRunningSummary := isRunningSummary s;
     debateError := debateError s; summaryError := summaryError s |}.

Definition setRunningRole (v : option DebaterRole) (s : PageState) : PageState :=
  {| uiLang := uiLang s; debaterModels := debaterModels s;
     summarizerModel := summarizerModel s; finalPrompt := finalPrompt s;
     pageError := pageError s; round1Results := round1Results s;
     round2Results := round2Results s; summaryResult := summaryResult s;
     summarySourceRound := summarySourceRound s;
     round2AddendumDraft := round2AddendumDraft s;
     round2AddendumCommitted := round2AddendumCommitted s;
     round2Started := round2Started s; summaryMode := summaryMode s;
     isRunningDebate := isRunningDebate s; runningRound := runningRound s;
     runningRole := v; isRunningSummary := isRunningSummary s;
     debateError := debateError s; summaryError := summaryError s |}.

Definition setIsRunningSummary (v : bool) (s : PageState) : PageState :=
  {| uiLang := uiLang s; debaterModels := debaterModels s;
     summarizerModel := summarizerModel s; finalPrompt := finalPrompt s;
     pageError := pageError s; round1Results := round1Results s;
     round2Results := round2Results s; summaryResult := summaryResult s;
     summarySourceRound := summarySourceRound s;
     round2AddendumDraft := round2AddendumDraft s;
     round2AddendumCommitted := round2AddendumCommitted s;
     round2Started := round2Started s; summaryMode := summaryMode s;
     isRunningDebate := isRunningDebate s; runningRound := runningRound s;
     runningRole := runningRole s; isRunningSummary := v; debateError := debateError s;
     summaryError := summaryError s |}.

Definition setDebateError (v : jsstring) (s : PageState) : PageState :=
  {| uiLang := uiLang s; debaterModels := debaterModels s;
     summarizerModel := summarizerModel s; finalPrompt := finalPrompt s;
     pageError := pageError s; round1Results := round1Results s;
     round2Results := round2Results s; summaryResult := summaryResult s;
     summarySourceRound := summarySourceRound s;
     round2AddendumDraft := round2AddendumDraft s;
     round2AddendumCommitted := round2AddendumCommitted s;
     round2Started := round2Started s; summaryMode := summaryMode s;
     isRunningDebate := isRunningDebate s; runningRound := runningRound s;
     runningRole := runningRole s; isRunningSummary := isRunningSummary s;
     debateError := v; summaryError := summaryError s |}.

Definition setSummaryError (v : jsstring) (s : PageState) : PageState :=
  {| uiLang := uiLang s; debaterModels := debaterModels s;
     summarizerModel := summarizerModel s; finalPrompt := finalPrompt s;
     pageError := pageError s; round1Results := round1Results s;
     round2Results := round2Results s; summaryResult := summaryResult s;
     summarySourceRound := summarySourceRound s;
     round2AddendumDraft := round2AddendumDraft s;
     round2AddendumCommitted := round2AddendumCommitted s;
     round2Started := round2Started s; summaryMode := summaryMode s;
     isRunningDebate := isRunningDebate s; runningRound := runningRound s;
     runningRole := runningRole s; isRunningSummary := isRunningSummary s;
     debateError := debateError s; summaryError := v |}.

Module TestRequestBody.
(** The JSON body posted to [/api/llm/test]. *)
Record t := {
    role : LlmRole;
    model : jsstring;
    prompt : jsstring;
    systemPrompt : option jsstring;
    allowFallback : option bool
  }.
End TestRequestBody.

(** What [await fetch(...)] followed by [await response.json()] gives: an
  exception (the network fails, or the body is not JSON of the declared
  shape), or [response.ok] and the decoded body. *)
Inductive FetchOutcome :=
| FetchThrows (t : Thrown)
| FetchResponds (ok : bool) (data : TestResponse).

(** The live state while a handler runs: the cells, and the requests sent
  so far. *)
Record Live := {
  page : PageState;
  requests : list TestRequestBody.t
}.

Definition Act (A : Type) : Type := Live -> A * Live.

#[global] Instance Act_ret : MRet Act := fun A a l => (a, l).

#[global] Instance Act_bind : MBind Act := fun A B k m l =>
  let '(a, l') := m l in k a l'.

(** A call of a setter. *)
Definition modify (f : PageState -> PageState) : Act unit := fun l =>
  (tt, {| page := f (page l); requests := requests l |}).

(** [error.message] of a caught value that is an [Error]. *)
Definition errorMessage (t : Thrown) : option jsstring :=
  match t with
  | HttpError e => Some (message e)
  | OtherError m => Some m
  | NonError => None
  end.

Section Handlers.
Variable JSON_parse : jsstring -> option JsonValue.
Variable toLowerCase : jsstring -> jsstring.
(** The six prompt texts of [roundAwarePrompts]. *)
Variable roundAwarePrompts : DebaterRole -> DebateRound -> jsstring.
(** The server behind [/api/llm/test]. *)
Variable fetchTest : TestRequestBody.t -> FetchOutcome.
(** What other event handlers do to the cells while a request is awaited. *)
Variable whileAwaiting : TestRequestBody.t -> PageState -> PageState.

(** [await fetch("/api/llm/test", ...)] and [await response.json()] *)
Definition fetch (body : TestRequestBody.t) : Act FetchOutcome := fun l =>
  (fetchTest body,
   {| page := whileAwaiting body (page l); requests := requests l ++ [body] |}).

Section Render.
(** The render whose closures the handlers are: they read these cells,
    whatever the live ones have become. *)
Variable snap : PageState.

Definition tr (zhText enText : jsstring) : jsstring :=
  match uiLang snap with zh => zhText | en => enText end.

Definition roleLabels : DebaterRole -> jsstring := ROLE_LABELS_BY_LANG (uiLang snap).
Definition roleSpeakers : DebaterRole -> jsstring := ROLE_SPEAKERS_BY_LANG (uiLang snap).
Definition round1Completed : bool := hasRoundCompleted (round1Results snap).
Definition round2Completed : bool := hasRoundCompleted (round2Results snap).

Definition debaterRequest (r : DebaterRole) (model prompt systemPrompt : jsstring)
  : TestRequestBody.t :=
  {| TestRequestBody.role := toLlmRole r;
     TestRequestBody.model := model;
     TestRequestBody.prompt := prompt;
     TestRequestBody.systemPrompt := Some systemPrompt;
     TestRequestBody.allowFallback := Some true |}.

(** What [runSingleDebater] makes of the reply: its [throw], or the
    result it returns. *)
Definition debaterCompletion (r : DebaterRole) (outcome : FetchOutcome)
  : Completion DebaterResult :=
  match outcome with
  | FetchThrows t => Throws t
  | FetchResponds true (TestSuccessResponse _ dataModel dataContent) =>
    let rawContent := Js.trim dataContent in
    Returns {| model := dataModel;
               rawContent := rawContent;
               parsed := parseDebaterOutput JSON_parse rawContent (roleSpeakers r);
               error := None |}
  | FetchResponds _ data => Throws (OtherError (getErrorMessage data))
  end.

Definition runSingleDebater (r : DebaterRole) (model prompt systemPrompt : jsstring)
  : Act (Completion DebaterResult) :=
  outcome ← fetch (debaterRequest r model prompt systemPrompt);
  mret (debaterCompletion r outcome).

(** The [try]/[catch] of the loop body of [runDebateRound]. *)
Definition resultOfCompletion (model : jsstring) (c : Completion DebaterResult)
  : DebaterResult :=
  match c with
  | Returns result => result
  | Throws t =>
    let msg :=
      match errorMessage t with
      | Some m => withContextOverflowHint toLowerCase m (uiLang snap)
      | None => tr (utf16 "调用失败") (utf16 "Request failed")
      end in
    {| model := model; rawContent := []; parsed := None; error := Some msg |}
  end.

Section Round.
Variable round : DebateRound.
Variable prompt : jsstring.
Variable addendum : option jsstring.

Definition stableRound1Results : RoundResults :=
  match round with Round2 => round1Results snap | Round1 => ∅ end.

Definition chainedPrompt (r : DebaterRole) (currentResults : RoundResults)
  : jsstring :=
  buildPromptForRole prompt r round stableRound1Results currentResults addendum.

(** The loop of [runDebateRound] over the remaining [roles]; it
    returns the local [currentResults]. *)
Fixpoint roundLoop (roles : list DebaterRole) (currentResults : RoundResults)
  : Act RoundResults :=
  match roles with
  | [] => mret currentResults
  | r :: rest =>
    _ ← modify (setRunningRole (Some r));
    let model := debaterModels snap r in
    let systemPrompt := roundAwarePrompts r round in
    c ← runSingleDebater r model (chainedPrompt r currentResults) systemPrompt;
    let result := resultOfCompletion model c in
    let currentResults := <[r := result]> currentResults in
    _ ← modify (match round with
                | Round1 => setRound1Results currentResults
                | Round2 => setRound2Results currentResults
                end);
    roundLoop rest currentResults
  end.

Definition runDebateRound : Act RoundResults := roundLoop DEBATER_ROLES ∅.
End Round.

Definition handleRunRound1 : Act unit :=
  _ ← modify (setDebateError []);
  _ ← modify (setSummaryError []);
  _ ← modify (setSummaryResult []);
  _ ← modify (setSummarySourceRound None);
  if Js.truthy (pageError snap) then mret tt
  else
    let prompt := Js.trim (finalPrompt snap) in
    if Js.is_empty prompt then
      modify (setDebateError
                (tr (utf16 "请先在步骤2输入你的正式 Prompt。")
                    (utf16 "Please enter your final prompt in Step 2 first.")))
    else
      match List.find (fun r => Js.is_empty (debaterModels snap r)) DEBATER_ROLES with
      | Some r =>
        modify (setDebateError
                  (tr (utf16 "请先为" ++ roleLabels r ++ utf16 "选择模型。")
                      (utf16 "Please select a model for " ++ roleLabels r ++ utf16 ".")))
      | None =>
        _ ← modify (setRound1Results ∅);
        _ ← modify (setRound2Results ∅);
        _ ← modify (setRound2AddendumDraft []);
        _ ← modify (setRound2AddendumCommitted None);
        _ ← modify (setRound2Started false);
        _ ← modify (setSummaryMode hidden);
        _ ← modify (setIsRunningDebate true);
        _ ← modify (setRunningRound (Some Round1));
        _ ← modify (setRunningRole None);
        _ ← runDebateRound Round1 prompt None;
        _ ← modify (setRunningRole None);
        _ ← modify (setRunningRound None);
        modify (setIsRunningDebate false)
      end.

Definition handleRunRound2 : Act unit :=
  _ ← modify (setDebateError []);
  _ ← modify (setSummaryError []);
  _ ← modify (setSummaryResult []);
  _ ← modify (setSummarySourceRound None);
  if negb round1Completed then
    modify (setDebateError
              (tr (utf16 "请先完成第一轮讨论。") (utf16 "Please complete Round 1 first.")))
  else
    let prompt := Js.trim (finalPrompt snap) in
    if Js.is_empty prompt then
      modify (setDebateError
                (tr (utf16 "请先在步骤2输入你的正式 Prompt。")
                    (utf16 "Please enter your final prompt in Step 2 first.")))
    else
      _ ← modify (setRound2Results ∅);
      let committedAddendum := normalizeOptionalText (Some (round2AddendumDraft snap)) in
      _ ← modify (setRound2AddendumCommitted committedAddendum);
      _ ← modify (setRound2Started true);
      _ ← modify (setSummaryMode hidden);
      _ ← modify (setIsRunningDebate true);
      _ ← modify (setRunningRound (Some Round2));
      _ ← modify (setRunningRole None);
      _ ← runDebateRound Round2 prompt committedAddendum;
      _ ← modify (setRunningRole None);
      _ ← modify (setRunningRound None);
      _ ← modify (setIsRunningDebate false);
      modify (setSummaryMode round2).

(** The addendum argument [handleGenerateSummary] passes on. *)
Definition summaryAddendum (useRound2 : bool) : option jsstring :=
  if useRound2 then round2AddendumCommitted snap
  else normalizeOptionalText (Some (round2AddendumDraft snap)).

Definition summaryRequest (summaryPrompt : jsstring) : TestRequestBody.t :=
  {| TestRequestBody.role := summarizer;
     TestRequestBody.model := summarizerModel snap;
     TestRequestBody.prompt := summaryPrompt;
     TestRequestBody.systemPrompt := None;
     TestRequestBody.allowFallback := Some true |}.

Definition handleGenerateSummary (useRound2 : bool) : Act unit :=
  _ ← modify (setSummaryError []);
  _ ← modify (setSummaryResult []);
  if negb round1Completed then
    modify (setSummaryError
              (tr (utf16 "请先完成第一轮讨论，再生成总结。")
                  (utf16 "Please complete Round 1 before generating a summary.")))
  else if useRound2 && negb round2Completed then
    modify (setSummaryError
              (tr (utf16 "第二轮尚未完成，无法基于两轮生成总结。")
                  (utf16 "Round 2 is not finished yet. Cannot summarize both rounds.")))
  else if Js.is_empty (summarizerModel snap) then
    modify (setSummaryError
              (tr (utf16 "请先选择总结模型。")
                  (utf16 "Please select a summarizer model first.")))
  else
    let prompt := Js.trim (finalPrompt snap) in
    if Js.is_empty prompt then
      modify (setSummaryError
                (tr (utf16 "缺少正式 Prompt，无法生成总结。")
                    (utf16 "Final prompt is missing. Cannot generate summary.")))
    else
      let summaryPrompt :=
        buildSummaryPrompt prompt (round1Results snap)
          (if useRound2 then Some (round2Results snap) else None)
          (summaryAddendum useRound2) in
      _ ← modify (setIsRunningSummary true);
      outcome ← fetch (summaryRequest summaryPrompt);
      _ ← match outcome with
          | FetchResponds true (TestSuccessResponse _ _ dataContent) =>
            let content := Js.trim dataContent in
            let sourceRound := if useRound2 then Round2 else Round1 in
            _ ← modify (setSummaryResult content);
            modify (setSummarySourceRound (Some sourceRound))
          | FetchResponds _ data =>
            modify (setSummaryError
                      (withContextOverflowHint toLowerCase (getErrorMessage data)
                         (uiLang snap)))
          | FetchThrows t =>
            modify (setSummaryError
                      match errorMessage t with
                      | Some m => withContextOverflowHint toLowerCase m (uiLang snap)
                      | None => tr (utf16 "总结生成失败，请稍后重试。")
                                   (utf16 "Summary generation failed. Please retry.")
                      end)
          end;
      modify (setIsRunningSummary false).

Definition handleSkipRound2AndSummarize : Act unit :=
  _ ← modify (setRound2Started false);
  _ ← modify (setSummaryMode round1);
  handleGenerateSummary false.
End Render.
End Handlers.

End DebatePage.

(* ===================================================================== *)
(** * 6a. lib/llm/providers/openrouter.ts: content and configuration *)
(* ===================================================================== *)

Module OpenRouter.

Definition defaultBaseUrl : jsstring := utf16 "https://openrouter.ai/api/v1".




Definition missingEnvError (key : jsstring) : Thrown :=
  OtherError (utf16 "Missing required environment variable: " ++ key).

Definition mustGetEnv (env : Env) (key : jsstring) : Completion jsstring :=
  match env !! key with
  | None => Throws (missingEnvError key)
  | Some value =>
    if Js.is_empty value || (length (Js.trim value) =? 0)%nat
    then Throws (missingEnvError key)
    else Returns (Js.trim value)
  end.

(** What [/^Bearer\s+/i] leaves of [key] when it matches: the six letters
    are compared without case (only ASCII letters fold onto ASCII letters
    when the [u] flag is absent), at least one white space character must
    follow, and [\s+] takes all of them. [\s] is the set [trim] strips. *)
Definition afterBearer (key : jsstring) : option jsstring :=
  let rest := skipn 6 key in
  if Js.eqb (Js.toUpperCase_ascii (firstn 6 key)) (utf16 "BEARER")
     && match rest with c :: _ => Js.isWhiteSpace c | [] => false end
  then Some (Js.trimStart rest)
  else None.

Definition normalizeApiKey (raw : jsstring) : jsstring :=
  let key := Js.trim raw in
  let key := match afterBearer key with Some rest => rest | None => key end in
  let key :=
    if Js.startsWith key (utf16 "Sk-or-v1-") then utf16 "s" ++ skipn 1 key
    else key in
  key.

(** The fields the constructor of [OpenRouterProvider] sets. *)
Record Config := {
  apiKey : jsstring;
  baseUrl : jsstring;
  referer : option jsstring;
  appTitle : option jsstring
}.

Definition urlKeyError : Thrown :=
  OtherError
    (utf16 "OPENROUTER_API_KEY looks like a URL. Please set it to an API key (starts with sk-or-v1-).").

(** [new OpenRouterProvider()]: the fields, or the exception thrown. *)
Definition newOpenRouterProvider (env : Env) : Completion Config :=
  match mustGetEnv env (utf16 "OPENROUTER_API_KEY") with
  | Throws t => Throws t
  | Returns value =>
    let apiKey := normalizeApiKey value in
    let baseUrl :=
      match Js.trim <$> env !! utf16 "OPENROUTER_BASE_URL" with
      | Some url => if Js.truthy url then url else defaultBaseUrl
      | None => defaultBaseUrl
      end in
    let referer := Js.trim <$> env !! utf16 "OPENROUTER_HTTP_REFERER" in
    let appTitle := Js.trim <$> env !! utf16 "OPENROUTER_X_TITLE" in
    if Js.startsWith apiKey (utf16 "http") then Throws urlKeyError
    else Returns {| apiKey := apiKey; baseUrl := baseUrl;
                    referer := referer; appTitle := appTitle |}
  end.


End OpenRouter.

(* ===================================================================== *)
(** * 6b. app/api/llm/models/route.ts and app/api/llm/test/route.ts *)
(* ===================================================================== *)

Module ModelsRoute.

(** The [data] of the reply. *)
Record Data := {
  roles : list LlmRole;
  availableModels : list jsstring;
  defaultRoleModels : LlmRole -> jsstring;
  effectiveRoleModels : gmap LlmRole jsstring
}.

(** [LLM_ROLES.map((role) => [role, resolveModelForRole(role)])]: the
    entries, or the exception of the first call that throws. *)
Fixpoint roleEntries (env : Env) (roles : list LlmRole)
  : Completion (list (LlmRole * jsstring)) :=
  match roles with
  | [] => Returns []
  | role :: rest =>
    match resolveModelForRole env role None with
    | Throws t => Throws t
    | Returns model =>
      match roleEntries env rest with
      | Throws t => Throws t
      | Returns entries => Returns ((role, model) :: entries)
      end
    end
  end.

(** [Object.fromEntries]: a later entry replaces an earlier one. *)
Definition fromEntries (entries : list (LlmRole * jsstring)) : gmap LlmRole jsstring :=
  fold_left (fun obj entry => <[entry.1 := entry.2]> obj) entries ∅.

Definition GET (env : Env) : Completion Data :=
  match roleEntries env LLM_ROLES with
  | Throws t => Throws t
  | Returns entries =>
    Returns {| roles := LLM_ROLES;
               availableModels := getAvailableModels env;
               defaultRoleModels := DEFAULT_ROLE_MODEL_MAP;
               effectiveRoleModels := fromEntries entries |}
  end.

End ModelsRoute.

Module TestRoute.

(** [type TestRequestBody], each field absent or of its declared type. The
    role is kept as the string it is on the wire, since the handler checks
    it; [roleModelMap] is the list [Object.entries] gives, in its order. *)
Record TestRequestBody := {
  role : option jsstring;
  model : option jsstring;
  roleModelMap : option (list (LlmRole * jsstring));
  allowFallback : option bool;
  prompt : option jsstring;
  systemPrompt : option jsstring;
  temperature : option JsNumber
}.

(** [NextResponse.json(payload, { status })], the status being 200 when
    none is given. *)
Record Response := {
  statusCode : Z;
  payload : DebatePage.TestResponse
}.

(** The role a string names, if it is one of [LLM_ROLES]
    ([isValidRole]). *)
Definition isValidRole (value : jsstring) : option LlmRole :=
  List.find (fun r => Js.eqb (roleName r) value) LLM_ROLES.

(** The object whose entries are [entries]. *)
Definition objectOfEntries (entries : list (LlmRole * jsstring)) : RoleModelMap :=
  fold_left (fun obj entry => <[entry.1 := entry.2]> obj) entries ∅.

Definition badRequest (error : jsstring) : Response :=
  {| statusCode := 400;
     payload := DebatePage.TestErrorResponse (Some error) None |}.

(** The [catch] block of the handler. *)
Definition errorResponse (error : Thrown) : Response :=
  match error with
  | HttpError e =>
    {| statusCode := status e;
       payload := DebatePage.TestErrorResponse
                    (Some (message e)) (Some (Js.slice (responseBody e) 0 400)) |}
  | OtherError msg =>
    {| statusCode := 500;
       payload := DebatePage.TestErrorResponse (Some msg) None |}
  | NonError =>
    {| statusCode := 500;
       payload := DebatePage.TestErrorResponse (Some (utf16 "Unknown server error")) None |}
  end.

Section Handler.
Variable env : Env.
Variable defaultSystemPrompts : LlmRole -> jsstring.
Variable getProvider : Completion ModelProvider.

(** The input [runRole] is called with. *)
Definition runRoleInput (body : TestRequestBody) (role : LlmRole)
    (model : option jsstring) (prompt : jsstring) : RunRoleInput.t :=
  {| RunRoleInput.role := role;
     RunRoleInput.userPrompt := prompt;
     RunRoleInput.model := model;
     RunRoleInput.roleModelMap := objectOfEntries <$> roleModelMap body;
     RunRoleInput.allowFallback := allowFallback body;
     RunRoleInput.systemPrompt := systemPrompt body;
     RunRoleInput.temperature := temperature body;
     RunRoleInput.maxTokens := None |}.

(** The [try] block, once the body is read. *)
Definition respond (body : TestRequestBody) : Run Response :=
  let role := default (utf16 "refiner") (role body) in
  let prompt := Js.trim <$> prompt body in
  match isValidRole role with
  | None => mret (badRequest (utf16 "Invalid role: " ++ role))
  | Some validRole =>
    if negb (Js.truthy_opt prompt) then mret (badRequest (utf16 "prompt is required"))
    else
      let model := Js.trim <$> model body in
      if Js.truthy_opt model && negb (isAllowedModel env (default [] model)) then
        mret (badRequest
                (utf16 "Unsupported model: " ++ default [] model
                   ++ utf16 ". Please choose a model from /api/llm/models"))
      else
        let invalidRoleEntry :=
          roleModelMap body ≫=
            List.find (fun entry => negb (isAllowedModel env entry.2)) in
        match invalidRoleEntry with
        | Some entry =>
          mret (badRequest (utf16 "Unsupported model in roleModelMap: " ++ entry.2))
        | None =>
          result ← runRole env defaultSystemPrompts getProvider
                     (runRoleInput body validRole model (default [] prompt));
          mret {| statusCode := 200;
                  payload := DebatePage.TestSuccessResponse
                               validRole (mr_model result) (mr_content result) |}
        end
  end.

(** [POST]: [request] is what [await request.json()] completes with. The
    trace holds the provider calls and the pauses made on the way. *)
Definition POST (request : Completion TestRequestBody)
  : list Event -> Response * list Event := fun t =>
  match (body ← lift request; respond body) t with
  | (Returns response, t') => (response, t')
  | (Throws error, t') => (errorResponse error, t')
  end.
End Handler.

End TestRoute.

(* ===================================================================== *)
(** * 6c. lib/workflow/history.ts *)
(* ===================================================================== *)

Module History.

Definition MAX_HISTORY : Z := 3.

Record ConversationHistoryRecord := {
  id : jsstring;
  createdAt : jsstring;
  updatedAt : jsstring;
  uiLang : DebatePage.UiLang;
  rawPrompt : jsstring;
  refinerSuggestion : jsstring;
  finalPrompt : jsstring;
  debaterModels : DebatePage.DebaterRole -> jsstring;
  summarizerModel : jsstring;
  round1Results : DebatePage.RoundResults;
  round2Results : DebatePage.RoundResults;
  round2Started : bool;
  round2AddendumDraft : jsstring;
  round2AddendumCommitted : option jsstring;
  summaryResult : jsstring;
  summarySourceRound : option DebatePage.DebateRound
}.

(** [{ ...record, createdAt, updatedAt }] *)
Definition withTimes (record : ConversationHistoryRecord) (created updated : jsstring)
  : ConversationHistoryRecord :=
  {| id := id record; createdAt := created; updatedAt := updated;
     uiLang := uiLang record; rawPrompt := rawPrompt record;
     refinerSuggestion := refinerSuggestion record;
     finalPrompt := finalPrompt record; debaterModels := debaterModels record;
     summarizerModel := summarizerModel record;
     round1Results := round1Results record; round2Results := round2Results record;
     round2Started := round2Started record;
     round2AddendumDraft := round2AddendumDraft record;
     round2AddendumCommitted := round2AddendumCommitted record;
     summaryResult := summaryResult record;
     summarySourceRound := summarySourceRound record |}.

(** The browser as the module sees it: whether [window.localStorage]
    exists, and the records [readRawHistoryList] decodes from the item
    stored under [HISTORY_STORAGE_KEY] (none when the item is missing, is
    no JSON array, or holds no object of the record shape). *)
Record Browser := {
  canUseBrowserStorage : bool;
  stored : list ConversationHistoryRecord
}.

Definition readRawHistoryList (b : Browser) : list ConversationHistoryRecord :=
  if canUseBrowserStorage b then stored b else [].

Definition writeHistoryList (records : list ConversationHistoryRecord) (b : Browser)
  : Browser :=
  if canUseBrowserStorage b
  then {| canUseBrowserStorage := true; stored := records |}
  else b.

(** [Array.prototype.sort] with a comparator: the sort is stable, so with a
    comparator that orders by a key the result is the one of any stable
    sort; here, insertion from the right. [compare a b > 0] puts [b]
    first. *)
Fixpoint insertSorted {A} (compare : A -> A -> Z) (x : A) (sorted : list A) : list A :=
  match sorted with
  | [] => [x]
  | y :: rest =>
    if 0 <? compare x y then y :: insertSorted compare x rest
    else x :: sorted
  end.

Definition sort {A} (compare : A -> A -> Z) (items : list A) : list A :=
  foldr (insertSorted compare) [] items.

(** [findIndex] *)
Fixpoint findIndex {A} (p : A -> bool) (items : list A) : option nat :=
  match items with
  | [] => None
  | x :: rest => if p x then Some O else S <$> findIndex p rest
  end.

Section Clock.
(** [Date.parse]: the time value in milliseconds, [None] for [NaN]. *)
Variable Date_parse : jsstring -> option Z.

Definition toTimeNumber (value : jsstring) : Z :=
  default 0 (Date_parse value).

(** [maxHistory] is an integer; [None] is the default parameter. *)
Definition pruneToMaxHistory (records : list ConversationHistoryRecord)
    (maxHistory : option Z) : list ConversationHistoryRecord :=
  let maxHistory := default MAX_HISTORY maxHistory in
  let sorted :=
    sort (fun a b => toTimeNumber (updatedAt b) - toTimeNumber (updatedAt a)) records in
  firstn (Z.to_nat (Z.max 0 maxHistory)) sorted.

Definition listHistoryRecords (b : Browser) : list ConversationHistoryRecord :=
  pruneToMaxHistory (readRawHistoryList b) None.

Definition getHistoryRecordById (b : Browser) (id' : jsstring)
  : option ConversationHistoryRecord :=
  let normalizedId := Js.trim id' in
  if Js.is_empty normalizedId then None
  else List.find (fun record => Js.eqb (id record) normalizedId) (listHistoryRecords b).

(** [nowIso] is [new Date().toISOString()] at the call. The result is the
    list returned and the browser after the write. *)
Definition upsertHistoryRecord (nowIso : jsstring) (record : ConversationHistoryRecord)
    (b : Browser) : list ConversationHistoryRecord * Browser :=
  let current := readRawHistoryList b in
  let existingIndex := findIndex (fun item => Js.eqb (id item) (id record)) current in
  let current :=
    match existingIndex with
    | Some existingIndex =>
      match current !! existingIndex with
      | Some existing =>
        <[existingIndex := withTimes record (createdAt existing) nowIso]> current
      | None => current
      end
    | None =>
      current ++ [withTimes record
                    (if Js.truthy (createdAt record) then createdAt record else nowIso)
                    nowIso]
    end in
  let pruned := pruneToMaxHistory current None in
  (pruned, writeHistoryList pruned b).
End Clock.

End History.

(* ===================================================================== *)
(** * 6d. Helpers shared by app/page.tsx and app/debate/page.tsx *)
(* ===================================================================== *)


(* ===================================================================== *)
(** * 7. The vocabulary of the statements

    Definitions that only the theorems use: observations on a run, the
    declarative readings the code is compared with, and the sample data on
    which the theorems are instantiated. *)
(* ===================================================================== *)

Import DebatePage.

(** [needle] occurs in [s]. *)
Definition occursIn (needle s : jsstring) : Prop :=
  exists pre post, s = pre ++ needle ++ post.

(** ** Service *)


(** The precedence as the specification words it: the explicit model counts
    only if it is present and allowed. *)
Definition specifiedResolution (env : Env) (input : RunRoleInput.t)
  : Completion jsstring :=
  let byRole :=
    resolveModelForRole env (RunRoleInput.role input)
      (RunRoleInput.roleModelMap input) in
  match explicitModel input with
  | Some m => if Js.truthy m && isAllowedModel env m then Returns m else byRole
  | None => byRole
  end.

(** The models of the provider calls of a trace, in order. *)
Definition calledModels (t : list Event) : list jsstring :=
  flat_map (fun ev => match ev with ChatCall p => [cp_model p] | Sleep _ => [] end) t.

Section FallbackVocabulary.
Variable env : Env.
Variable defaultSystemPrompts : LlmRole -> jsstring.
Variable input : RunRoleInput.t.
Variable provider : ModelProvider.

(** The call for [m] is answered by a rate-limit error. *)
Definition rateLimited (m : jsstring) : Prop :=
  exists e,
    chatCompletion provider (request env defaultSystemPrompts input m) = Throws e /\
    is429 e = true.

(** The events of retrying [models] one after the other. *)
Definition retryEvents (models : list jsstring) : list Event :=
  flat_map
    (fun m => [Sleep 200; ChatCall (request env defaultSystemPrompts input m)])
    models.
End FallbackVocabulary.

(** ** Parser *)

(** What an array element contributes: its trimmed [contents] when the
    element is an object whose [contents] is a string that is not blank. *)
Definition keptContent (item : JsonValue) : option jsstring :=
  match item with
  | JObj props =>
    match props !! utf16 "contents" with
    | Some (JStr s) => if Js.is_empty (Js.trim s) then None else Some (Js.trim s)
    | _ => None
    end
  | _ => None
  end.

(** The kept contents of a field, in order; nothing when the field is absent
    or no array. *)
Definition keptContents (value : option JsonValue) : list jsstring :=
  match value with
  | Some (JArr items) => omap keptContent items
  | _ => []
  end.

Section ParserVocabulary.
Variable JSON_parse : jsstring -> option JsonValue.

(** The object a text parses to, when it parses and to an object. *)
Definition parsesToObject (text : jsstring) : option (gmap jsstring JsonValue) :=
  match JSON_parse text with
  | Some (JObj props) => Some props
  | _ => None
  end.

(** The substring from the first opening brace to the last closing brace,
    when there is an opening brace and the last closing one comes after it. *)
Definition braceSubstring (text : jsstring) : option jsstring :=
  match Js.indexOf text openBrace, Js.lastIndexOf text closeBrace with
  | Some i, Some j => if (i <? j)%nat then Some (Js.slice text i (j + 1)) else None
  | _, _ => None
  end.

(** The object found in a trimmed text: from the whole of it, else from its
    brace substring. *)
Definition objectFound (trimmed : jsstring) : option (gmap jsstring JsonValue) :=
  match parsesToObject trimmed with
  | Some props => Some props
  | None => braceSubstring trimmed ≫= parsesToObject
  end.
End ParserVocabulary.

(** ** Context block *)

(** A recorded result is shown in a context block: it is present, carries
    no error text, and its structured output is non-null with an entry. *)
Definition shown (result : option DebaterResult) : Prop :=
  exists res p,
    result = Some res /\ Js.truthy_opt (error res) = false /\
    parsed res = Some p /\
    (newPerspectives p <> [] \/ counterpoints p <> []).

(** The rendering of a result under a round label. *)
Definition rendering (label : jsstring) (res : DebaterResult) (p : DebaterParsedOutput)
  : jsstring :=
  label ++ utf16 " " ++ speaker p ++ Js.nl ++ Js.join Js.nl (extractParsedLines res).

(** The entries a context block takes from [results] for [roles]. *)
Definition entriesOf (label : jsstring) (results : RoundResults)
    (roles : list DebaterRole) : list jsstring :=
  omap (fun r => contextEntry label (results !! r)) roles.

(** The context block as the specification words it: an output is shown
    exactly when it is non-null. *)
Definition specifiedEntry (label : jsstring) (result : option DebaterResult)
  : option jsstring :=
  match result with
  | Some res =>
    match parsed res with
    | Some p => Some (rendering label res p)
    | None => None
    end
  | None => None
  end.

Definition specifiedSections
    (currentRole : DebaterRole) (currentRound : DebateRound)
    (round1Results current : RoundResults) : list jsstring :=
  match currentRound with
  | Round2 =>
    omap (fun r => specifiedEntry (utf16 "第一轮") (round1Results !! r)) DEBATER_ROLES
  | Round1 => []
  end
  ++ omap (fun r => specifiedEntry (currentRoundLabel currentRound) (current !! r))
       (firstn (roleIndex currentRole) DEBATER_ROLES).

(** ** Round runner *)

(** The cell a round publishes its results to. *)
Definition roundResultsCell (round : DebateRound) (s : PageState) : RoundResults :=
  match round with
  | Round1 => round1Results s
  | Round2 => round2Results s
  end.

(** The text put before the original message of an overflow error. *)
Definition overflowHint (language : UiLang) : jsstring :=
  match language with
  | en =>
    utf16 "Context is too long. Reduce rounds or shorten input, then retry."
      ++ Js.nl ++ Js.nl ++ utf16 "Original error: "
  | zh =>
    utf16 "上下文过长，请减少轮次或缩短输入后重试。"
      ++ Js.nl ++ Js.nl ++ utf16 "原始错误："
  end.

Section RoundVocabulary.
Variable JSON_parse : jsstring -> option JsonValue.
Variable toLowerCase : jsstring -> jsstring.
Variable roundAwarePrompts : DebaterRole -> DebateRound -> jsstring.
Variable fetchTest : TestRequestBody.t -> FetchOutcome.
Variable whileAwaiting : TestRequestBody.t -> PageState -> PageState.
Variable snap : PageState.
Variable round : DebateRound.
Variable prompt : jsstring.
Variable addendum : option jsstring.

(** The request sent for participant [r] when the earlier participants have
    left [currentResults]. *)
Definition invocationRequest (currentResults : RoundResults) (r : DebaterRole)
  : TestRequestBody.t :=
  debaterRequest r (debaterModels snap r)
    (chainedPrompt snap round prompt addendum r currentResults)
    (roundAwarePrompts r round).

(** How that invocation completes. *)
Definition invocation (currentResults : RoundResults) (r : DebaterRole)
  : Completion DebaterResult :=
  debaterCompletion JSON_parse snap r (fetchTest (invocationRequest currentResults r)).

(** The result recorded for it. *)
Definition slotOf (currentResults : RoundResults) (r : DebaterRole) : DebaterResult :=
  resultOfCompletion toLowerCase snap (debaterModels snap r) (invocation currentResults r).

(** The local results after the iterations for [roles]. *)
Fixpoint resultsAfter (roles : list DebaterRole) (currentResults : RoundResults)
  : RoundResults :=
  match roles with
  | [] => currentResults
  | r :: rest => resultsAfter rest (<[r := slotOf currentResults r]> currentResults)
  end.

(** The requests of the iterations for [roles]. *)
Fixpoint requestsOf (roles : list DebaterRole) (currentResults : RoundResults)
  : list TestRequestBody.t :=
  match roles with
  | [] => []
  | r :: rest =>
    invocationRequest currentResults r
      :: requestsOf rest (<[r := slotOf currentResults r]> currentResults)
  end.

(** The live state after the iteration for [r]. *)
Definition liveAfterStep (r : DebaterRole) (currentResults : RoundResults) (live : Live)
  : Live :=
  {| page :=
       match round with
       | Round1 => setRound1Results (<[r := slotOf currentResults r]> currentResults)
       | Round2 => setRound2Results (<[r := slotOf currentResults r]> currentResults)
       end
         (whileAwaiting (invocationRequest currentResults r)
            (setRunningRole (Some r) (page live)));
     requests := requests live ++ [invocationRequest currentResults r] |}.
End RoundVocabulary.

(** ** Addendum *)

(** Other handlers that only edit the draft while a request is awaited. *)
Definition draftEdits (edit : TestRequestBody.t -> PageState -> jsstring)
  : TestRequestBody.t -> PageState -> PageState :=
  fun body s => setRound2AddendumDraft (edit body s) s.

(** No other handler runs while a request is awaited. *)
Definition undisturbed : TestRequestBody.t -> PageState -> PageState :=
  fun _ s => s.

(** The summary request a render sends when its guards pass. *)
Definition summaryRequestOf (snap : PageState) (useRound2 : bool) : TestRequestBody.t :=
  summaryRequest snap
    (buildSummaryPrompt (Js.trim (finalPrompt snap)) (round1Results snap)
       (if useRound2 then Some (round2Results snap) else None)
       (summaryAddendum snap useRound2)).

(** The cells a running round leaves alone when the only other activity is
    the editing of the draft. *)
Definition kept (s : PageState) :=
  (uiLang s, debaterModels s, summarizerModel s, finalPrompt s,
   round1Results s, round2AddendumCommitted s).

Section AddendumVocabulary.
Variable JSON_parse : jsstring -> option JsonValue.
Variable toLowerCase : jsstring -> jsstring.
Variable roundAwarePrompts : DebaterRole -> DebateRound -> jsstring.
Variable fetchTest : TestRequestBody.t -> FetchOutcome.

(** The three requests of a round, given the addendum it was started with. *)
Definition roundRequests (snap : PageState) (rd : DebateRound) (prompt : jsstring)
    (addendum : option jsstring) : list TestRequestBody.t :=
  requestsOf JSON_parse toLowerCase roundAwarePrompts fetchTest snap rd prompt addendum
    DEBATER_ROLES ∅.

(** The three results of a round, given the addendum it was started with. *)
Definition roundResults (snap : PageState) (rd : DebateRound) (prompt : jsstring)
    (addendum : option jsstring) : RoundResults :=
  resultsAfter JSON_parse toLowerCase roundAwarePrompts fetchTest snap rd prompt addendum
    DEBATER_ROLES ∅.
End AddendumVocabulary.

(** ** Sample data *)

Definition modelM : jsstring := utf16 "m/a".
Definition modelN : jsstring := utf16 "n/b".
Definition modelO : jsstring := utf16 "o/c".

(** A pool [M, N, O]. *)
Definition sampleEnv : Env := {[ utf16 "OPENROUTER_MODELS" := utf16 "m/a,n/b,o/c" ]}.

Definition samplePrompts : LlmRole -> jsstring := fun _ => utf16 "system".

(** A request for the refiner whose role map names [M]; no explicit model. *)
Definition sampleInput : RunRoleInput.t :=
  {| RunRoleInput.role := refiner;
     RunRoleInput.userPrompt := utf16 "hello";
     RunRoleInput.model := None;
     RunRoleInput.roleModelMap := Some {[ refiner := modelM ]};
     RunRoleInput.allowFallback := None;
     RunRoleInput.systemPrompt := None;
     RunRoleInput.temperature := None;
     RunRoleInput.maxTokens := None |}.

(** The same request with [M] pinned as the explicit model. *)
Definition pinnedInput : RunRoleInput.t :=
  {| RunRoleInput.role := refiner;
     RunRoleInput.userPrompt := utf16 "hello";
     RunRoleInput.model := Some (utf16 " m/a ");
     RunRoleInput.roleModelMap := None;
     RunRoleInput.allowFallback := None;
     RunRoleInput.systemPrompt := None;
     RunRoleInput.temperature := None;
     RunRoleInput.maxTokens := None |}.

(** A request whose explicit model is neither in the pool nor of the
    vendor/name shape, next to an allowed entry of the role map. *)
Definition unlistedInput : RunRoleInput.t :=
  {| RunRoleInput.role := refiner;
     RunRoleInput.userPrompt := utf16 "hello";
     RunRoleInput.model := Some (utf16 "gpt-4");
     RunRoleInput.roleModelMap := Some {[ refiner := utf16 "openai/gpt-oss-120b:free" ]};
     RunRoleInput.allowFallback := None;
     RunRoleInput.systemPrompt := None;
     RunRoleInput.temperature := None;
     RunRoleInput.maxTokens := None |}.

Definition rateLimitError : OpenRouterHttpError :=
  newOpenRouterHttpError 429 (utf16 "busy") None.

Definition serverError : OpenRouterHttpError :=
  newOpenRouterHttpError 500 (utf16 "down") None.

Definition responseFrom (m : jsstring) : ModelResponse :=
  {| mr_content := utf16 "answer of " ++ m;
     mr_model := m;
     mr_usage := None;
     mr_raw := None |}.

(** [M] is rate-limited, every other model answers. *)
Definition providerMN : ModelProvider :=
  {| chatCompletion := fun p =>
       if Js.eqb (cp_model p) modelM then Throws (HttpError rateLimitError)
       else Returns (responseFrom (cp_model p)) |}.

(** Every model is rate-limited. *)
Definition providerLimited : ModelProvider :=
  {| chatCompletion := fun _ => Throws (HttpError rateLimitError) |}.

(** [M] is rate-limited, every other model fails with status 500. *)
Definition providerBroken : ModelProvider :=
  {| chatCompletion := fun p =>
       if Js.eqb (cp_model p) modelM then Throws (HttpError rateLimitError)
       else Throws (HttpError serverError) |}.

(** Every model fails with status 500. *)
Definition providerDown : ModelProvider :=
  {| chatCompletion := fun _ => Throws (HttpError serverError) |}.

Definition someOutput : DebaterParsedOutput :=
  {| speaker := utf16 "Debater 1";
     newPerspectives := [utf16 "ship weekly"];
     counterpoints := [] |}.

Definition goodResult : DebaterResult :=
  {| model := modelM;
     rawContent := utf16 "raw";
     parsed := Some someOutput;
     error := None |}.

(** A result that carries both an error text and a structured output. *)
Definition erroredWithOutput : DebaterResult :=
  {| model := modelM;
     rawContent := utf16 "raw";
     parsed := Some someOutput;
     error := Some (utf16 "timeout") |}.

(** A result whose structured output is non-null and has no entry. *)
Definition outputWithoutEntries : DebaterResult :=
  {| model := modelM;
     rawContent := utf16 "raw";
     parsed := Some {| speaker := utf16 "Debater 1";
                       newPerspectives := []; counterpoints := [] |};
     error := None |}.

Definition sampleRound1 : RoundResults :=
  {[ debater_a := goodResult; debater_b := goodResult; debater_c := goodResult ]}.

Definition sampleSnap : PageState :=
  {| uiLang := en;
     debaterModels := fun _ => modelM;
     summarizerModel := modelN;
     finalPrompt := utf16 " How do we ship? ";
     pageError := [];
     round1Results := sampleRound1;
     round2Results := ∅;
     summaryResult := [];
     summarySourceRound := None;
     round2AddendumDraft := utf16 " budget is fixed ";
     round2AddendumCommitted := None;
     round2Started := false;
     summaryMode := hidden;
     isRunningDebate := false;
     runningRound := None;
     runningRole := None;
     isRunningSummary := false;
     debateError := [];
     summaryError := [] |}.

Definition sampleLive : Live := {| page := sampleSnap; requests := [] |}.

(** An object holding one perspective and no speaker. *)
Definition sampleObject : gmap jsstring JsonValue :=
  {[ utf16 "new_perspectives"
     := JArr [JObj {[ utf16 "contents" := JStr (utf16 " x ") ]}] ]}.

(** A runtime whose [JSON.parse] answers every text with that object. *)
Definition sampleParse : jsstring -> option JsonValue :=
  fun _ => Some (JObj sampleObject).

(** Lower-casing of the ASCII letters. *)
Definition sampleLower : jsstring -> jsstring :=
  map (fun c => if ((65 <=? c) && (c <=? 90))%N then (c + 32)%N else c).

(** A server that is unreachable. *)
Definition sampleFetch : TestRequestBody.t -> FetchOutcome :=
  fun _ => FetchThrows (OtherError (utf16 "Maximum context length exceeded")).

Definition samplePromptTable : DebaterRole -> DebateRound -> jsstring :=
  fun _ _ => utf16 "debate".

(** ** Token variables *)

(** The step by which [decimalValue] reads one more digit. *)
Definition step10 (acc : Z) (c : Js.code_unit) : Z := acc * 10 + (Z.of_N c - 48).

(** ** Recorded results and further samples *)

(** A result as the round runner records it: what [runDebateRound] makes
    of the completion of one call of [runSingleDebater], under some runtime
    and some render. These are the only results the page puts into the maps
    that [buildDebateContext] reads. *)
Definition recorded (result : DebaterResult) : Prop :=
  exists JSON_parse toLowerCase snap model r outcome,
    result
    = resultOfCompletion toLowerCase snap model
        (debaterCompletion JSON_parse snap r outcome).

(** A map of results that the round runner has written. *)
Definition recordedResults (results : RoundResults) : Prop :=
  forall r result, results !! r = Some result -> recorded result.

(** The sample request with [N] as the entry of the role map. *)
Definition sampleInputN : RunRoleInput.t :=
  {| RunRoleInput.role := refiner;
     RunRoleInput.userPrompt := utf16 "hello";
     RunRoleInput.model := None;
     RunRoleInput.roleModelMap := Some {[ refiner := modelN ]};
     RunRoleInput.allowFallback := None;
     RunRoleInput.systemPrompt := None;
     RunRoleInput.temperature := None;
     RunRoleInput.maxTokens := None |}.

(** The result recorded for participant A when the server answers. *)
Definition answeredResult : DebaterResult :=
  resultOfCompletion sampleLower sampleSnap modelM
    (debaterCompletion sampleParse sampleSnap debater_a
       (FetchResponds true (TestSuccessResponse llm_debater_a modelM (utf16 " {} ")))).

(** The result recorded for participant A when the server is unreachable. *)
Definition failedResult : DebaterResult :=
  resultOfCompletion sampleLower sampleSnap modelM
    (debaterCompletion sampleParse sampleSnap debater_a
       (FetchThrows (OtherError (utf16 "timeout")))).

(** ** History *)

(** A record, for the instances. *)
Definition sampleRecord (id updatedAt : jsstring) : History.ConversationHistoryRecord :=
  {| History.id := id;
     History.createdAt := utf16 "1";
     History.updatedAt := updatedAt;
     History.uiLang := en;
     History.rawPrompt := utf16 " raw ";
     History.refinerSuggestion := [];
     History.finalPrompt := [];
     History.debaterModels := fun _ => modelM;
     History.summarizerModel := modelN;
     History.round1Results := ∅;
     History.round2Results := ∅;
     History.round2Started := false;
     History.round2AddendumDraft := [];
     History.round2AddendumCommitted := None;
     History.summaryResult := [];
     History.summarySourceRound := None |}.

(** A clock that reads a time stamp written as a decimal numeral. *)
Definition sampleDateParse : jsstring -> option Z :=
  fun s => if forallb isDigit s && Js.truthy s then Some (decimalValue s) else None.

(** A browser that holds four records. *)
Definition sampleBrowser : History.Browser :=
  {| History.canUseBrowserStorage := true;
     History.stored :=
       [ sampleRecord (utf16 "a") (utf16 "10");
         sampleRecord (utf16 "b") (utf16 "40");
         sampleRecord (utf16 "c") (utf16 "30");
         sampleRecord (utf16 "d") (utf16 "20") ] |}.

(** ** Handlers *)

(** The cells that hold what followed round 1: round 2, the addendum and
    the summary. *)
Definition afterRound1 (s : PageState) :=
  (round2Results s, round2AddendumDraft s, round2AddendumCommitted s,
   round2Started s, summaryResult s, summarySourceRound s, summaryMode s).

(** The cells that say what is running. *)
Definition busy (s : PageState) := (isRunningDebate s, runningRound s, runningRole s).

(* ===================================================================== *)
(** * 8. Facts about the string operations *)
(* ===================================================================== *)

Module JsFacts.

Lemma eqb_cu_eq a b : Js.eqb_cu a b = true <-> a = b.
Proof. unfold Js.eqb_cu. apply N.eqb_eq. Qed.

Lemma eqb_eq s t : Js.eqb s t = true <-> s = t.
Proof.
  revert t. induction s as [|a s IH]; intros [|b t]; simpl; try (split; congruence).
  rewrite andb_true_iff, eqb_cu_eq, IH. split.
  - intros [-> ->]. reflexivity.
  - intros [= -> ->]. auto.
Qed.

Lemma eqb_refl s : Js.eqb s s = true.
Proof. apply eqb_eq. reflexivity. Qed.

Lemma eqb_neq s t : Js.eqb s t = false <-> s <> t.
Proof.
  rewrite <- eqb_eq. destruct (Js.eqb s t); split; congruence.
Qed.

Lemma array_includes_In arr x : Js.array_includes arr x = true <-> x ∈ arr.
Proof.
  unfold Js.array_includes. rewrite existsb_exists. split.
  - intros (y & Hy & E). apply eqb_eq in E. subst. apply list_elem_of_In. assumption.
  - intros H. exists x. split; [apply list_elem_of_In; assumption | apply eqb_refl].
Qed.

Lemma array_includes_not_In arr x : Js.array_includes arr x = false <-> x ∉ arr.
Proof.
  rewrite <- array_includes_In. destruct (Js.array_includes arr x); split; congruence.
Qed.

(** ** [trim] *)

Lemma trimStart_split s :
  exists ws, s = ws ++ Js.trimStart s /\ forallb Js.isWhiteSpace ws = true.
Proof.
  induction s as [|c r (ws & E & W)]; simpl.
  - exists []. auto.
  - destruct (Js.isWhiteSpace c) eqn:Hc.
    + exists (c :: ws). simpl. rewrite Hc, W. split; [congruence | reflexivity].
    + exists []. auto.
Qed.

Lemma trimStart_head s c r :
  Js.trimStart s = c :: r -> Js.isWhiteSpace c = false.
Proof.
  induction s as [|a s IH]; simpl; [discriminate|].
  destruct (Js.isWhiteSpace a) eqn:Ha; [assumption|].
  intros [= -> ->]. assumption.
Qed.

Lemma trimStart_fixed c r :
  Js.isWhiteSpace c = false -> Js.trimStart (c :: r) = c :: r.
Proof. intros H. simpl. rewrite H. reflexivity. Qed.

Lemma trimStart_idem s : Js.trimStart (Js.trimStart s) = Js.trimStart s.
Proof.
  destruct (Js.trimStart s) as [|c r] eqn:E; [reflexivity|].
  apply trimStart_fixed. eapply trimStart_head; eassumption.
Qed.

Lemma trimEnd_split s :
  exists ws, s = Js.trimEnd s ++ ws /\ forallb Js.isWhiteSpace ws = true.
Proof.
  destruct (trimStart_split (rev s)) as (ws & E & W).
  exists (rev ws). split.
  - unfold Js.trimEnd. rewrite <- rev_app_distr, <- E, rev_involutive. reflexivity.
  - rewrite forallb_forall in *. intros x Hx. apply W. apply in_rev. assumption.
Qed.

Lemma trimEnd_idem s : Js.trimEnd (Js.trimEnd s) = Js.trimEnd s.
Proof.
  unfold Js.trimEnd. rewrite rev_involutive, trimStart_idem. reflexivity.
Qed.

Lemma trimEnd_nil : Js.trimEnd [] = [].
Proof. reflexivity. Qed.

Lemma trim_head s c r : Js.trim s = c :: r -> Js.isWhiteSpace c = false.
Proof.
  unfold Js.trim. intros E.
  destruct (trimEnd_split (Js.trimStart s)) as (ws & E' & _).
  rewrite E in E'. simpl in E'.
  eapply trimStart_head. exact E'.
Qed.

Lemma trim_idem s : Js.trim (Js.trim s) = Js.trim s.
Proof.
  assert (H : Js.trimStart (Js.trim s) = Js.trim s).
  { destruct (Js.trim s) as [|c r] eqn:E; [reflexivity|].
    apply trimStart_fixed. eapply trim_head; eassumption. }
  unfold Js.trim at 1. rewrite H. unfold Js.trim. apply trimEnd_idem.
Qed.

Lemma trim_nil : Js.trim [] = [].
Proof. reflexivity. Qed.

Lemma is_empty_true s : Js.is_empty s = true <-> s = [].
Proof. destruct s; cbn; split; done. Qed.

Lemma is_empty_true' s : s <> [] -> Js.is_empty s = false.
Proof. destruct s; [contradiction | reflexivity]. Qed.

Lemma truthy_true s : Js.truthy s = true <-> s <> [].
Proof. destruct s; cbn; split; done. Qed.

Lemma length_pos_nonempty (s : jsstring) : (0 <? length s)%nat = true <-> s <> [].
Proof. destruct s; cbn; split; done. Qed.

Lemma length_zero_empty (s : jsstring) : (length s =? 0)%nat = true <-> s = [].
Proof. destruct s; cbn; split; done. Qed.

(** ** [join] *)

Lemma join_cons sep p rest :
  Js.join sep (p :: rest) = p ++ match rest with [] => [] | _ => sep ++ Js.join sep rest end.
Proof. destruct rest; simpl; [rewrite app_nil_r|]; reflexivity. Qed.

Lemma occursIn_join sep parts p : p ∈ parts -> occursIn p (Js.join sep parts).
Proof.
  induction parts as [|q parts IH]; [intros H; inversion H|].
  intros Hin. apply elem_of_cons in Hin as [-> | Hin]; rewrite join_cons.
  - exists [], (match parts with [] => [] | _ => sep ++ Js.join sep parts end).
    reflexivity.
  - destruct (IH Hin) as (pre & post & E).
    destruct parts as [|q' parts']; [inversion Hin|].
    exists (q ++ sep ++ pre), post. rewrite E.
    rewrite <- !app_assoc. reflexivity.
Qed.

(** ** [Array.from(new Set(...))] *)

Lemma dedupe_from_spec seen arr :
  NoDup (Js.dedupe_from seen arr) /\
  (forall x, x ∈ Js.dedupe_from seen arr <-> x ∈ arr /\ x ∉ seen).
Proof.
  revert seen. induction arr as [|a arr IH]; intros seen; simpl.
  - split; [constructor | intros x; rewrite elem_of_nil; tauto].
  - destruct (Js.array_includes seen a) eqn:Ha.
    + apply array_includes_In in Ha.
      destruct (IH seen) as [ND Hin]. split; [assumption|].
      intros x. rewrite Hin, elem_of_cons. split; [tauto|].
      intros [[-> | H] Hn]; [contradiction | tauto].
    + apply array_includes_not_In in Ha.
      destruct (IH (a :: seen)) as [ND Hin]. split.
      * constructor; [|assumption]. rewrite Hin, elem_of_cons. tauto.
      * intros x. rewrite !elem_of_cons, Hin, elem_of_cons.
        destruct (decide (x = a)) as [-> | Hne]; tauto.
Qed.

Lemma dedupe_NoDup arr : NoDup (Js.dedupe arr).
Proof. apply dedupe_from_spec. Qed.

Lemma dedupe_In arr x : x ∈ Js.dedupe arr <-> x ∈ arr.
Proof.
  unfold Js.dedupe. destruct (dedupe_from_spec [] arr) as [_ H].
  rewrite H, elem_of_nil. tauto.
Qed.

End JsFacts.

(* ===================================================================== *)
(** * 9. Model configuration and token budget *)
(* ===================================================================== *)

Lemma trim_default r : Js.trim (DEFAULT_ROLE_MODEL_MAP r) = DEFAULT_ROLE_MODEL_MAP r.
Proof. destruct r; vm_compute; reflexivity. Qed.

Lemma default_matches_pattern r :
  matchesModelIdPattern (DEFAULT_ROLE_MODEL_MAP r) = true.
Proof. destruct r; vm_compute; reflexivity. Qed.

Lemma default_nonempty r : DEFAULT_ROLE_MODEL_MAP r <> [].
Proof. destruct r; vm_compute; discriminate. Qed.

Lemma isAllowedModelIn_pattern available model :
  Js.trim model <> [] -> matchesModelIdPattern (Js.trim model) = true ->
  isAllowedModelIn available model = true.
Proof.
  intros Hne Hm. unfold isAllowedModelIn.
  destruct (length (Js.trim model) =? 0)%nat eqn:E.
  - apply JsFacts.length_zero_empty in E. contradiction.
  - destruct (Js.array_includes available (Js.trim model)); [reflexivity | assumption].
Qed.

Lemma default_allowed env r : isAllowedModel env (DEFAULT_ROLE_MODEL_MAP r) = true.
Proof.
  apply isAllowedModelIn_pattern; rewrite trim_default.
  - apply default_nonempty.
  - apply default_matches_pattern.
Qed.

(** C10. For every environment, role and caller-supplied role-model map:
    every static default matches the vendor/model-name pattern, so it is
    allowed whatever the pool is, and [resolveModelForRole] returns (it never
    throws its no-available-models error) either the trimmed map entry, which
    is then non-empty and allowed, or the static default of the role; the
    first-pool-entry branch and the error branch are never taken. *)
Theorem resolveModelForRole_never_throws
    (env : Env) (r : LlmRole) (roleModelMap : option RoleModelMap) :
  (forall r', matchesModelIdPattern (DEFAULT_ROLE_MODEL_MAP r') = true) /\
  (forall r', isAllowedModel env (DEFAULT_ROLE_MODEL_MAP r') = true) /\
  exists model,
    resolveModelForRole env r roleModelMap = Returns model /\
    ((exists entry,
         roleModelMap ≫= (fun m => m !! r) = Some entry /\
         model = Js.trim entry /\ model <> [] /\
         isAllowedModel env model = true)
     \/ model = DEFAULT_ROLE_MODEL_MAP r).
Proof.
  split; [apply default_matches_pattern|].
  split; [apply default_allowed|].
  unfold resolveModelForRole, resolveModelForRoleWith.
  fold (isAllowedModel env (DEFAULT_ROLE_MODEL_MAP r)).
  rewrite default_allowed.
  destruct (roleModelMap ≫= (fun m => m !! r)) as [entry|] eqn:E; simpl.
  - destruct (Js.truthy (Js.trim entry)) eqn:Ht; simpl.
    + destruct (isAllowedModelIn (getAvailableModels env) (Js.trim entry)) eqn:Ha.
      * exists (Js.trim entry). split; [reflexivity|]. left.
        exists entry. repeat split; try reflexivity.
        -- apply JsFacts.truthy_true. assumption.
        -- exact Ha.
      * eexists. split; [reflexivity | right; reflexivity].
    + eexists. split; [reflexivity | right; reflexivity].
  - eexists. split; [reflexivity | right; reflexivity].
Qed.








(** An override strictly between 0 and 1 passes the test [override > 0]
    and is floored to 0 afterwards. No caller passes one. *)
Lemma resolveMaxTokens_fractional_override_is_zero :
  resolveMaxTokens ∅ refiner (Some (Finite (1 # 2))) = 0.
Proof. vm_compute. reflexivity. Qed.





(* ===================================================================== *)
(** * 10. The default of [allowFallback] and the resolution precedence *)
(* ===================================================================== *)

(** C8. When the caller passes no [allowFallback], the value [runRole] uses
    is true exactly when no explicit model is pinned, a pinned model being
    one that is present and not blank: it is false exactly when one is. *)
Theorem allowFallback_default_iff_not_pinned (input : RunRoleInput.t) :
  RunRoleInput.allowFallback input = None ->
  (effectiveAllowFallback input = true <->
   ~ exists m, RunRoleInput.model input = Some m /\ Js.trim m <> [])
  /\ (effectiveAllowFallback input = false <->
      exists m, RunRoleInput.model input = Some m /\ Js.trim m <> []).
Proof.
  intros Hnone. unfold effectiveAllowFallback, explicitModel. rewrite Hnone. simpl.
  destruct (RunRoleInput.model input) as [m|]; simpl.
  - destruct (Js.trim m) as [|c t] eqn:E; simpl.
    + split; split; try done.
      * intros _ (m' & [= <-] & H). rewrite E in H. done.
      * intros (m' & [= <-] & H). rewrite E in H. done.
    + split; split; try done.
      * intros H. exfalso. apply H. exists m. rewrite E. done.
      * intros _. exists m. rewrite E. done.
  - split; split; try done.
    + intros _ (m' & ? & _). done.
    + intros (m' & ? & _). done.
Qed.

(** C8 at the sample requests: the one without an explicit model falls
    back by default, the one that pins [M] does not. *)
Lemma allowFallback_default_at_samples :
  effectiveAllowFallback sampleInput = true /\
  effectiveAllowFallback pinnedInput = false.
Proof.
  split.
  - apply (allowFallback_default_iff_not_pinned sampleInput eq_refl).
    intros (m & Hm & _). discriminate Hm.
  - apply (allowFallback_default_iff_not_pinned pinnedInput eq_refl).
    exists (utf16 " m/a "). split; [reflexivity | vm_compute; discriminate].
Defined.

Lemma parseModelList_entries_nonempty raw :
  Forall (fun m => m <> []) (parseModelList raw).
Proof.
  unfold parseModelList. destruct raw as [raw|]; [|constructor].
  destruct (Js.is_empty raw); [constructor|].
  apply List.Forall_forall. intros m Hm. apply filter_In in Hm as [_ Hm].
  apply JsFacts.length_pos_nonempty. assumption.
Qed.

Lemma BASE_entries_nonempty : Forall (fun m => m <> []) BASE_AVAILABLE_MODELS.
Proof. repeat constructor; discriminate. Qed.

(** The pool holds no empty string. *)
Lemma getAvailableModels_entries_nonempty env :
  Forall (fun m => m <> []) (getAvailableModels env).
Proof.
  unfold getAvailableModels. apply List.Forall_forall. intros m Hm.
  rewrite <- list_elem_of_In, JsFacts.dedupe_In, elem_of_app, !list_elem_of_In in Hm.
  destruct Hm as [Hm | Hm]; revert m Hm; apply List.Forall_forall.
  - destruct (0 <? length _)%nat.
    + apply parseModelList_entries_nonempty.
    + apply BASE_entries_nonempty.
  - apply parseModelList_entries_nonempty.
Qed.

(** The pool holds no model twice. *)
Lemma getAvailableModels_NoDup env : NoDup (getAvailableModels env).
Proof. apply JsFacts.dedupe_NoDup. Qed.

(** [runRole] itself does not test its explicit model: given "gpt-4",
    which is not allowed, it resolves to it. Its caller, the handler of
    [POST /api/llm/test], refuses such a body before the call. *)
Lemma explicit_model_used_without_allow_check :
  isAllowedModel ∅ (utf16 "gpt-4") = false /\
  resolvedModel ∅ unlistedInput = Returns (utf16 "gpt-4") /\
  specifiedResolution ∅ unlistedInput = Returns (utf16 "openai/gpt-oss-120b:free") /\
  resolvedModel ∅ unlistedInput <> specifiedResolution ∅ unlistedInput.
Proof.
  assert (A : isAllowedModel ∅ (utf16 "gpt-4") = false) by (vm_compute; reflexivity).
  assert (B : resolvedModel ∅ unlistedInput = Returns (utf16 "gpt-4"))
    by (vm_compute; reflexivity).
  assert (C : specifiedResolution ∅ unlistedInput
              = Returns (utf16 "openai/gpt-oss-120b:free")) by (vm_compute; reflexivity).
  repeat split; try assumption.
  rewrite B, C. vm_compute. discriminate.
Qed.

(** What [resolveModelForRoleWith] does once the role map gave nothing
    usable. *)
Lemma resolve_after_request
    (available : list jsstring) (defaults : LlmRole -> jsstring) (r : LlmRole) :
  let after :=
    if isAllowedModelIn available (defaults r) then Returns (defaults r)
    else
      match head available with
      | Some m => if Js.truthy m then Returns m else Throws noModelsError
      | None => Throws noModelsError
      end : Completion jsstring in
  (isAllowedModelIn available (defaults r) = true -> after = Returns (defaults r)) /\
  (isAllowedModelIn available (defaults r) = false ->
   forall first rest, available = first :: rest -> first <> [] ->
                      after = Returns first) /\
  (Forall (fun m => m <> []) available ->
   forall e, after = Throws e ->
             available = [] /\ isAllowedModelIn available (defaults r) = false
             /\ e = noModelsError).
Proof.
  cbv zeta. split; [|split].
  - intros ->. reflexivity.
  - intros -> first rest -> Hne.
    apply JsFacts.truthy_true in Hne. simpl. rewrite Hne. reflexivity.
  - intros Hall e.
    destruct (isAllowedModelIn available (defaults r)); [intros [=]|].
    destruct available as [|first rest]; simpl.
    + intros [= <-]. done.
    + inversion Hall as [|? ? Hne _]; subst.
      apply JsFacts.truthy_true in Hne. rewrite Hne. intros [=].
Qed.

(** [runRole] uses the explicit model whenever it is present and not
    blank, trimmed; with no such model it uses [resolveModelForRole].
    That one, for any pool
    and any table of defaults, returns the trimmed entry of the role map
    when it is present, not blank and allowed; else the static default when
    it is allowed; else the first entry of the pool; and on a pool without
    empty strings it throws only when the pool is empty and the default is
    not allowed, the error being the no-available-models one. *)
Lemma model_resolution_precedence :
  (forall (env : Env) (input : RunRoleInput.t),
      (forall m, RunRoleInput.model input = Some m -> Js.trim m <> [] ->
                 resolvedModel env input = Returns (Js.trim m)) /\
      ((forall m, RunRoleInput.model input = Some m -> Js.trim m = []) ->
       resolvedModel env input
       = resolveModelForRole env (RunRoleInput.role input)
           (RunRoleInput.roleModelMap input))) /\
  (forall (available : list jsstring) (defaults : LlmRole -> jsstring)
          (r : LlmRole) (roleModelMap : option RoleModelMap),
      let usable entry :=
        Js.trim entry <> [] /\ isAllowedModelIn available (Js.trim entry) = true in
      let fromRequest := roleModelMap ≫= (fun m => m !! r) in
      let resolved := resolveModelForRoleWith available defaults r roleModelMap in
      (forall entry, fromRequest = Some entry -> usable entry ->
                     resolved = Returns (Js.trim entry)) /\
      ((forall entry, fromRequest = Some entry -> ~ usable entry) ->
       (isAllowedModelIn available (defaults r) = true ->
        resolved = Returns (defaults r)) /\
       (isAllowedModelIn available (defaults r) = false ->
        forall first rest, available = first :: rest -> first <> [] ->
                           resolved = Returns first)) /\
      (Forall (fun m => m <> []) available ->
       forall e, resolved = Throws e ->
                 available = [] /\ isAllowedModelIn available (defaults r) = false
                 /\ e = noModelsError)).
Proof.
  split.
  - intros env input. unfold resolvedModel, explicitModel. split.
    + intros m -> Hne. simpl.
      apply JsFacts.truthy_true in Hne. rewrite Hne. reflexivity.
    + intros H. destruct (RunRoleInput.model input) as [m|]; simpl; [|reflexivity].
      rewrite (H m eq_refl). reflexivity.
  - intros available defaults r roleModelMap. cbv zeta.
    destruct (resolve_after_request available defaults r) as (Hd & Hf & Ht).
    unfold resolveModelForRoleWith.
    destruct (roleModelMap ≫= (fun m => m !! r)) as [entry|] eqn:E; simpl.
    + destruct (Js.truthy (Js.trim entry)) eqn:Htr; simpl.
      * destruct (isAllowedModelIn available (Js.trim entry)) eqn:Ha.
        -- split; [|split].
           ++ intros ? [= <-] _. reflexivity.
           ++ intros H. exfalso. apply (H entry eq_refl).
              split; [apply JsFacts.truthy_true|]; assumption.
           ++ intros _ e [=].
        -- split; [|split].
           ++ intros ? [= <-] [_ H]. congruence.
           ++ intros _. split; assumption.
           ++ assumption.
      * split; [|split].
        -- intros ? [= <-] [H _]. apply JsFacts.truthy_true in H. congruence.
        -- intros _. split; assumption.
        -- assumption.
    + split; [|split].
      * intros ? [=].
      * intros _. split; assumption.
      * assumption.
Qed.

(** At concrete inputs: the pinned sample resolves to its
    trimmed explicit model; with the pool [N] and a table of defaults that
    are not allowed, the resolver returns [N]; with an empty pool it throws. *)
Lemma model_resolution_at_samples :
  resolvedModel ∅ pinnedInput = Returns modelM /\
  resolveModelForRoleWith [modelN] (fun _ => utf16 "none") refiner None
  = Returns modelN /\
  (forall e,
      resolveModelForRoleWith [] (fun _ => utf16 "none") refiner None = Throws e ->
      e = noModelsError).
Proof.
  destruct model_resolution_precedence as [Hrun Hresolve].
  split; [|split].
  - apply (proj1 (Hrun ∅ pinnedInput) (utf16 " m/a ") eq_refl).
    vm_compute. discriminate.
  - destruct (Hresolve [modelN] (fun _ => utf16 "none") refiner None)
      as (_ & Hnext & _).
    refine (proj2 (Hnext _) _ modelN [] eq_refl _).
    + intros entry Hentry. discriminate Hentry.
    + vm_compute. reflexivity.
    + vm_compute. discriminate.
  - intros e He.
    destruct (Hresolve [] (fun _ => utf16 "none") refiner None) as (_ & _ & Hthrow).
    apply (Hthrow (Forall_nil _) e He).
Defined.

(* ===================================================================== *)
(** * 11. The fallback of [runRole] *)
(* ===================================================================== *)

Lemma calledModels_app t1 t2 :
  calledModels (t1 ++ t2) = calledModels t1 ++ calledModels t2.
Proof. unfold calledModels. apply flat_map_app. Qed.

(** The fallback candidates are the pool without the primary model. *)
Lemma getFallbackModels_elem env primaryModel m :
  m ∈ getFallbackModels env primaryModel <->
  m ∈ getAvailableModels env /\ m <> primaryModel.
Proof.
  unfold getFallbackModels.
  rewrite !list_elem_of_In, filter_In, negb_true_iff, JsFacts.eqb_neq.
  reflexivity.
Qed.

Lemma NoDup_List_filter {A} (f : A -> bool) (l : list A) :
  NoDup l -> NoDup (List.filter f l).
Proof.
  induction 1 as [|x l Hx ND IH]; simpl; [constructor|].
  destruct (f x); [|assumption].
  constructor; [|assumption].
  rewrite list_elem_of_In, filter_In, <- list_elem_of_In. tauto.
Qed.

Lemma getFallbackModels_NoDup env primaryModel :
  NoDup (getFallbackModels env primaryModel).
Proof. apply NoDup_List_filter, getAvailableModels_NoDup. Qed.

Section FallbackFacts.
Variable env : Env.
Variable defaultSystemPrompts : LlmRole -> jsstring.
Variable input : RunRoleInput.t.
Variable provider : ModelProvider.

Local Abbreviation req := (request env defaultSystemPrompts input).
Local Abbreviation loop := (fallbackLoop env defaultSystemPrompts input provider).
Local Abbreviation limited := (rateLimited env defaultSystemPrompts input provider).
Local Abbreviation retries := (retryEvents env defaultSystemPrompts input).

Lemma retryEvents_app l1 l2 : retries (l1 ++ l2) = retries l1 ++ retries l2.
Proof. apply flat_map_app. Qed.

Lemma calledModels_retryEvents models : calledModels (retries models) = models.
Proof.
  induction models as [|m models IH]; [reflexivity|].
  change (retries (m :: models)) with ([Sleep 200; ChatCall (req m)] ++ retries models).
  rewrite calledModels_app, IH. reflexivity.
Qed.

Lemma loop_step_429 m rest attempted t :
  limited m ->
  loop (m :: rest) attempted t
  = loop rest (attempted ++ [m]) (t ++ [Sleep 200; ChatCall (req m)]).
Proof.
  intros (e & He & H429). simpl.
  unfold try_catch, mbind, Run_bind, sleep, chat. simpl.
  rewrite He, H429. simpl.
  rewrite <- app_assoc. reflexivity.
Qed.

Lemma loop_step_returns m rest attempted t response :
  chatCompletion provider (req m) = Returns response ->
  loop (m :: rest) attempted t
  = (Returns (Returned response (attempted ++ [m])),
     t ++ [Sleep 200; ChatCall (req m)]).
Proof.
  intros He. simpl.
  unfold try_catch, mbind, Run_bind, sleep, chat, mret, Run_ret. simpl.
  rewrite He. rewrite <- app_assoc. reflexivity.
Qed.

Lemma loop_step_throws m rest attempted t e :
  chatCompletion provider (req m) = Throws e -> is429 e = false ->
  loop (m :: rest) attempted t
  = (Throws e, t ++ [Sleep 200; ChatCall (req m)]).
Proof.
  intros He Hn. simpl.
  unfold try_catch, mbind, Run_bind, sleep, chat, throw. simpl.
  rewrite He, Hn. simpl. rewrite <- app_assoc. reflexivity.
Qed.

Lemma loop_rate_limited_prefix pre rest attempted t :
  (forall m, m ∈ pre -> limited m) ->
  loop (pre ++ rest) attempted t
  = loop rest (attempted ++ pre) (t ++ retries pre).
Proof.
  revert attempted t. induction pre as [|m pre IH]; intros attempted t Hall.
  - simpl. rewrite !app_nil_r. reflexivity.
  - simpl app. rewrite loop_step_429 by (apply Hall; left).
    rewrite IH by (intros; apply Hall; right; assumption).
    change (retries (m :: pre)) with ([Sleep 200; ChatCall (req m)] ++ retries pre).
    rewrite <- !app_assoc. reflexivity.
Qed.

Lemma loop_all_rate_limited candidates attempted t :
  (forall m, m ∈ candidates -> limited m) ->
  loop candidates attempted t
  = (Returns (Exhausted (attempted ++ candidates)), t ++ retries candidates).
Proof.
  intros Hall. rewrite <- (app_nil_r candidates) at 1.
  rewrite loop_rate_limited_prefix by assumption. reflexivity.
Qed.

Lemma loop_first_success pre m post attempted t response :
  (forall m', m' ∈ pre -> limited m') ->
  chatCompletion provider (req m) = Returns response ->
  loop (pre ++ m :: post) attempted t
  = (Returns (Returned response (attempted ++ pre ++ [m])),
     t ++ retries (pre ++ [m])).
Proof.
  intros Hall He. rewrite loop_rate_limited_prefix by assumption.
  rewrite (loop_step_returns _ _ _ _ _ He).
  rewrite retryEvents_app, <- !app_assoc. reflexivity.
Qed.

Lemma loop_first_other_failure pre m post attempted t e :
  (forall m', m' ∈ pre -> limited m') ->
  chatCompletion provider (req m) = Throws e -> is429 e = false ->
  loop (pre ++ m :: post) attempted t
  = (Throws e, t ++ retries (pre ++ [m])).
Proof.
  intros Hall He Hn. rewrite loop_rate_limited_prefix by assumption.
  rewrite (loop_step_throws _ _ _ _ _ He Hn).
  rewrite retryEvents_app, <- !app_assoc. reflexivity.
Qed.
End FallbackFacts.

Section RunRoleFacts.
Variable env : Env.
Variable defaultSystemPrompts : LlmRole -> jsstring.
Variable getProvider : Completion ModelProvider.
Variable input : RunRoleInput.t.
Variable provider : ModelProvider.
Variable model : jsstring.

Hypothesis model_resolved : resolvedModel env input = Returns model.
Hypothesis provider_ready : getProvider = Returns provider.

Local Abbreviation req := (request env defaultSystemPrompts input).
Local Abbreviation run := (runRole env defaultSystemPrompts getProvider input).

Lemma runRole_primary_success response :
  chatCompletion provider (req model) = Returns response ->
  run [] = (Returns response, [ChatCall (req model)]).
Proof.
  intros He. unfold runRole.
  unfold mbind, Run_bind, lift, try_catch, chat.
  rewrite model_resolved, provider_ready. rewrite He. reflexivity.
Qed.

Lemma runRole_primary_failure error :
  chatCompletion provider (req model) = Throws error ->
  is429 error = false \/ effectiveAllowFallback input = false ->
  run [] = (Throws error, [ChatCall (req model)]).
Proof.
  intros He Hor. unfold runRole.
  unfold mbind, Run_bind, lift, try_catch, chat.
  rewrite model_resolved, provider_ready. rewrite He.
  destruct error as [e | msg |]; try reflexivity.
  simpl in Hor.
  destruct Hor as [-> | ->]; simpl; rewrite ?orb_true_r; reflexivity.
Qed.

Lemma runRole_enters_fallback e :
  chatCompletion provider (req model) = Throws (HttpError e) ->
  status e = 429 ->
  effectiveAllowFallback input = true ->
  run []
  = match fallbackLoop env defaultSystemPrompts input provider
            (getFallbackModels env model) [model] [ChatCall (req model)] with
    | (Returns (Returned response _), t) => (Returns response, t)
    | (Returns (Exhausted attemptedModels), t) =>
      (Throws (HttpError (newOpenRouterHttpError 429 (responseBody e)
                            (Some (rateLimitedMessage attemptedModels)))), t)
    | (Throws err, t) => (Throws err, t)
    end.
Proof.
  intros He Hs Ha. unfold runRole.
  unfold mbind, Run_bind, lift, try_catch, chat.
  rewrite model_resolved, provider_ready. rewrite He, Hs, Ha. simpl.
  destruct (fallbackLoop _ _ _ _ _ _ _) as [[[response att | att] | err] t];
    reflexivity.
Qed.
End RunRoleFacts.

Lemma filter_sublist {A} (f : A -> bool) (l : list A) : List.filter f l `sublist_of` l.
Proof.
  induction l as [|x l IH]; simpl; [constructor|].
  destruct (f x); [apply sublist_skip | apply sublist_cons]; exact IH.
Qed.

(** The fallback candidates come in the order of the pool. *)
Lemma getFallbackModels_sublist env primaryModel :
  getFallbackModels env primaryModel `sublist_of` getAvailableModels env.
Proof. apply filter_sublist. Qed.

(** C1, the claim as stated fails: the attempted models are not reported.
    On the pool [M, N, O] with [M] rate-limited, a run that starts with [M]
    calls [M] and [N], a run that starts with [N] calls [N] only, and both
    return the same value, the response of the provider for [N]: what
    [runRole] returns holds no trace of the models attempted before. *)
Lemma attempted_models_are_not_reported :
  calledModels
    (runRole sampleEnv samplePrompts (Returns providerMN) sampleInput []).2
  = [modelM; modelN] /\
  calledModels
    (runRole sampleEnv samplePrompts (Returns providerMN) sampleInputN []).2
  = [modelN] /\
  (runRole sampleEnv samplePrompts (Returns providerMN) sampleInput []).1
  = Returns (responseFrom modelN) /\
  (runRole sampleEnv samplePrompts (Returns providerMN) sampleInputN []).1
  = (runRole sampleEnv samplePrompts (Returns providerMN) sampleInput []).1.
Proof. repeat split; vm_compute; reflexivity. Qed.

(** C1, as amended. Take a run of [runRole] whose model resolves to
    [model], whose provider exists, whose fallback is enabled and whose
    primary call fails with status 429. The candidates are the models of
    the pool other than [model], in the order of the pool. If they read
    [pre ++ next :: post], every model of [pre] is rate-limited and [next]
    answers, then the run returns the answer of [next], and nothing else;
    its trace is the primary call followed, for each model of
    [pre ++ [next]] in order, by a sleep of 200 ms and the call; the models
    called are [model :: pre ++ [next]]; and no model of [post] is
    called. *)
Theorem fallback_returns_first_success
    (env : Env) (defaultSystemPrompts : LlmRole -> jsstring)
    (getProvider : Completion ModelProvider) (input : RunRoleInput.t)
    (provider : ModelProvider) (model : jsstring) (e : OpenRouterHttpError)
    (pre : list jsstring) (next : jsstring) (post : list jsstring)
    (response : ModelResponse) :
  let req := request env defaultSystemPrompts input in
  resolvedModel env input = Returns model ->
  getProvider = Returns provider ->
  effectiveAllowFallback input = true ->
  chatCompletion provider (req model) = Throws (HttpError e) ->
  status e = 429 ->
  getFallbackModels env model = pre ++ next :: post ->
  (forall m, m ∈ pre -> rateLimited env defaultSystemPrompts input provider m) ->
  chatCompletion provider (req next) = Returns response ->
  let outcome := fst (runRole env defaultSystemPrompts getProvider input []) in
  let trace := snd (runRole env defaultSystemPrompts getProvider input []) in
  (forall m, m ∈ getFallbackModels env model <->
             m ∈ getAvailableModels env /\ m <> model) /\
  getFallbackModels env model `sublist_of` getAvailableModels env /\
  outcome = Returns response /\
  trace = ChatCall (req model)
            :: flat_map (fun m => [Sleep 200; ChatCall (req m)]) (pre ++ [next]) /\
  calledModels trace = model :: pre ++ [next] /\
  (forall m, m ∈ post -> m ∉ calledModels trace).
Proof.
  cbv zeta. intros Hmodel Hprov Hallow Hprimary Hstatus Hsplit Hpre Hnext.
  pose proof (loop_first_success env defaultSystemPrompts input provider
                pre next post [model]
                [ChatCall (request env defaultSystemPrompts input model)]
                response Hpre Hnext) as Hloop.
  pose proof (runRole_enters_fallback env defaultSystemPrompts getProvider input
                provider model Hmodel Hprov e Hprimary Hstatus Hallow) as Hrun.
  rewrite Hsplit, Hloop in Hrun. simpl app in Hrun.
  rewrite Hrun, Hsplit. simpl fst. simpl snd.
  assert (Hcalled :
            calledModels
              (ChatCall (request env defaultSystemPrompts input model)
                 :: retryEvents env defaultSystemPrompts input (pre ++ [next]))
            = model :: pre ++ [next]).
  { change (calledModels (ChatCall ?p :: ?t)) with (cp_model p :: calledModels t).
    rewrite calledModels_retryEvents. reflexivity. }
  split; [intros m; rewrite <- Hsplit; apply getFallbackModels_elem|].
  split; [rewrite <- Hsplit; apply getFallbackModels_sublist|].
  split; [reflexivity|].
  split; [reflexivity|].
  split; [exact Hcalled|].
  intros m Hm.
  change (flat_map _ (pre ++ [next]))
    with (retryEvents env defaultSystemPrompts input (pre ++ [next])).
  rewrite Hcalled.
  pose proof (getFallbackModels_NoDup env model) as ND.
  assert (Hin : m ∈ getFallbackModels env model).
  { rewrite Hsplit. apply elem_of_app. right. right. assumption. }
  apply getFallbackModels_elem in Hin as [_ Hne].
  rewrite Hsplit in ND.
  apply list.NoDup_app in ND as (_ & Hdisj & ND2).
  apply list.NoDup_cons in ND2 as [Hnext_post _].
  rewrite elem_of_cons, elem_of_app, list_elem_of_singleton.
  intros [-> | [Hp | ->]]; [congruence | | contradiction].
  apply (Hdisj m Hp). right. assumption.
Qed.

(** C1 as amended, on the pool [M, N, O] with [M] rate-limited and [N]
    answering: the candidates are [N, O], the content returned is the one
    of [N], the models called are [M, N], and [O] is not called. *)
Lemma fallback_on_pool_M_N_O :
  let run := runRole sampleEnv samplePrompts (Returns providerMN) sampleInput [] in
  getAvailableModels sampleEnv = [modelM; modelN; modelO] /\
  getFallbackModels sampleEnv modelM = [modelN; modelO] /\
  fst run = Returns (responseFrom modelN) /\
  calledModels (snd run) = [modelM; modelN] /\
  (modelO ∉ calledModels (snd run)).
Proof.
  cbv zeta.
  assert (H := fallback_returns_first_success sampleEnv samplePrompts
                 (Returns providerMN) sampleInput providerMN modelM rateLimitError
                 [] modelN [modelO] (responseFrom modelN)).
  cbv zeta in H.
  destruct H as (_ & _ & Hout & _ & Hcalled & Hpost).
  - vm_compute. reflexivity.
  - reflexivity.
  - vm_compute. reflexivity.
  - vm_compute. reflexivity.
  - reflexivity.
  - vm_compute. reflexivity.
  - intros m Hm. apply elem_of_nil in Hm. destruct Hm.
  - vm_compute. reflexivity.
  - split; [vm_compute; reflexivity|].
    split; [vm_compute; reflexivity|].
    split; [exact Hout|].
    split; [exact Hcalled | apply Hpost; left].
Defined.

Lemma occursIn_rateLimitedMessage attemptedModels m :
  m ∈ attemptedModels -> occursIn m (rateLimitedMessage attemptedModels).
Proof.
  intros Hin. unfold rateLimitedMessage.
  destruct (JsFacts.occursIn_join (utf16 ", ") attemptedModels m Hin)
    as (pre & post & E).
  exists (utf16 "OpenRouter free models are currently rate-limited. Tried: " ++ pre).
  exists (post ++ utf16 ". Please retry shortly or use BYOK (your own provider key).").
  rewrite E, <- !app_assoc. reflexivity.
Qed.

(** C2. Take a run of [runRole] whose model resolves to [model] and whose
    provider exists. (1) If the primary call fails with an error that is not
    a 429, or fallback is disabled, the run throws that very error after the
    one call. (2) If fallback is entered and, after rate-limited candidates
    [pre], the candidate [next] fails with an error that is not a 429, the
    run throws that error and has called [model], [pre] and [next] only.
    (3) If fallback is entered and every candidate is rate-limited, the run
    throws one error of status 429 that carries the body of the primary
    error and whose message is the rate-limited message over
    [model :: candidates]; every attempted model occurs in that message. *)
Theorem failures_propagate_or_aggregate
    (env : Env) (defaultSystemPrompts : LlmRole -> jsstring)
    (getProvider : Completion ModelProvider) (input : RunRoleInput.t)
    (provider : ModelProvider) (model : jsstring) :
  resolvedModel env input = Returns model ->
  getProvider = Returns provider ->
  let req := request env defaultSystemPrompts input in
  let run := runRole env defaultSystemPrompts getProvider input [] in
  let retries := flat_map (fun m => [Sleep 200; ChatCall (req m)]) in
  (forall error,
      chatCompletion provider (req model) = Throws error ->
      is429 error = false \/ effectiveAllowFallback input = false ->
      run = (Throws error, [ChatCall (req model)])) /\
  (forall e pre next post err,
      chatCompletion provider (req model) = Throws (HttpError e) ->
      status e = 429 ->
      effectiveAllowFallback input = true ->
      getFallbackModels env model = pre ++ next :: post ->
      (forall m, m ∈ pre -> rateLimited env defaultSystemPrompts input provider m) ->
      chatCompletion provider (req next) = Throws err ->
      is429 err = false ->
      run = (Throws err, ChatCall (req model) :: retries (pre ++ [next])) /\
      calledModels (snd run) = model :: pre ++ [next]) /\
  (forall e,
      chatCompletion provider (req model) = Throws (HttpError e) ->
      status e = 429 ->
      effectiveAllowFallback input = true ->
      (forall m, m ∈ getFallbackModels env model ->
                 rateLimited env defaultSystemPrompts input provider m) ->
      exists aggregated,
        run = (Throws (HttpError aggregated),
               ChatCall (req model) :: retries (getFallbackModels env model)) /\
        status aggregated = 429 /\
        responseBody aggregated = responseBody e /\
        message aggregated = rateLimitedMessage (model :: getFallbackModels env model) /\
        (forall m, m ∈ model :: getFallbackModels env model ->
                   occursIn m (message aggregated))).
Proof.
  cbv zeta. intros Hmodel Hprov. split; [|split].
  - intros error He Hor.
    exact (runRole_primary_failure env defaultSystemPrompts getProvider input
             provider model Hmodel Hprov error He Hor).
  - intros e pre next post err Hprimary Hstatus Hallow Hsplit Hpre Hnext Hn.
    pose proof (runRole_enters_fallback env defaultSystemPrompts getProvider input
                  provider model Hmodel Hprov e Hprimary Hstatus Hallow) as Hrun.
    rewrite Hsplit in Hrun.
    rewrite (loop_first_other_failure env defaultSystemPrompts input provider
               pre next post [model] _ err Hpre Hnext Hn) in Hrun.
    simpl app in Hrun. rewrite Hrun. split; [reflexivity|].
    simpl snd.
    change (calledModels (ChatCall ?p :: ?t)) with (cp_model p :: calledModels t).
    change (flat_map _ (pre ++ [next]))
      with (retryEvents env defaultSystemPrompts input (pre ++ [next])).
    rewrite calledModels_retryEvents. reflexivity.
  - intros e Hprimary Hstatus Hallow Hall.
    pose proof (runRole_enters_fallback env defaultSystemPrompts getProvider input
                  provider model Hmodel Hprov e Hprimary Hstatus Hallow) as Hrun.
    rewrite (loop_all_rate_limited env defaultSystemPrompts input provider
               _ [model] _ Hall) in Hrun.
    simpl app in Hrun.
    eexists. split; [exact Hrun|].
    repeat split.
    intros m Hm. simpl message. apply occursIn_rateLimitedMessage. assumption.
Qed.

(** C2 on the pool [M, N, O]: a primary failure of status 500 is thrown
    after one call; with the explicit model pinned (fallback off by default)
    a 429 is thrown after one call; with [M] rate-limited and [N] failing
    with status 500 that failure is thrown and [O] is not called; with every
    model rate-limited the error thrown has status 429 and its message names
    [M], [N] and [O]. *)
Lemma failures_on_pool_M_N_O :
  runRole sampleEnv samplePrompts (Returns providerDown) sampleInput []
  = (Throws (HttpError serverError),
     [ChatCall (request sampleEnv samplePrompts sampleInput modelM)]) /\
  runRole sampleEnv samplePrompts (Returns providerLimited) pinnedInput []
  = (Throws (HttpError rateLimitError),
     [ChatCall (request sampleEnv samplePrompts pinnedInput modelM)]) /\
  (fst (runRole sampleEnv samplePrompts (Returns providerBroken) sampleInput [])
   = Throws (HttpError serverError) /\
   calledModels (snd (runRole sampleEnv samplePrompts (Returns providerBroken)
                        sampleInput []))
   = [modelM; modelN]) /\
  (exists aggregated,
      fst (runRole sampleEnv samplePrompts (Returns providerLimited) sampleInput [])
      = Throws (HttpError aggregated) /\
      status aggregated = 429 /\
      occursIn modelM (message aggregated) /\
      occursIn modelN (message aggregated) /\
      occursIn modelO (message aggregated)).
Proof.
  assert (Hm : resolvedModel sampleEnv sampleInput = Returns modelM)
    by (vm_compute; reflexivity).
  assert (Hp : resolvedModel sampleEnv pinnedInput = Returns modelM)
    by (vm_compute; reflexivity).
  assert (Hf : getFallbackModels sampleEnv modelM = [modelN; modelO])
    by (vm_compute; reflexivity).
  split; [|split; [|split]].
  - apply (proj1 (failures_propagate_or_aggregate sampleEnv samplePrompts
                    (Returns providerDown) sampleInput providerDown modelM
                    Hm eq_refl)).
    + reflexivity.
    + left. reflexivity.
  - apply (proj1 (failures_propagate_or_aggregate sampleEnv samplePrompts
                    (Returns providerLimited) pinnedInput providerLimited modelM
                    Hp eq_refl)).
    + reflexivity.
    + right. vm_compute. reflexivity.
  - destruct (proj1 (proj2 (failures_propagate_or_aggregate sampleEnv samplePrompts
                              (Returns providerBroken) sampleInput providerBroken
                              modelM Hm eq_refl))
                rateLimitError [] modelN [modelO] (HttpError serverError))
      as [Hrun Hcalled].
    + vm_compute. reflexivity.
    + reflexivity.
    + vm_compute. reflexivity.
    + exact Hf.
    + intros m H. apply elem_of_nil in H. destruct H.
    + vm_compute. reflexivity.
    + reflexivity.
    + split; [rewrite Hrun; reflexivity | exact Hcalled].
  - destruct (proj2 (proj2 (failures_propagate_or_aggregate sampleEnv samplePrompts
                              (Returns providerLimited) sampleInput providerLimited
                              modelM Hm eq_refl))
                rateLimitError)
      as (aggregated & Hrun & Hstatus & _ & _ & Hnames).
    + reflexivity.
    + reflexivity.
    + vm_compute. reflexivity.
    + intros m _. exists (HttpError rateLimitError). split; reflexivity.
    + exists aggregated. rewrite Hrun, Hf in *.
      split; [reflexivity|]. split; [exact Hstatus|].
      split; [|split]; apply Hnames; rewrite !elem_of_cons; auto.
Defined.

(* ===================================================================== *)
(** * 12. The parser of debater outputs *)
(* ===================================================================== *)

(** [readContentsArray] keeps the kept contents. *)
Lemma readContentsArray_kept value : readContentsArray value = keptContents value.
Proof.
  destruct value as [[| | | |items|]|]; try reflexivity.
  unfold readContentsArray, keptContents.
  induction items as [|item items IH]; [reflexivity|].
  simpl map. simpl List.filter. rewrite IH. clear IH.
  change (omap keptContent (item :: items))
    with (match keptContent item with
          | Some s => s :: omap keptContent items
          | None => omap keptContent items
          end).
  destruct item as [| | | | |props]; try reflexivity.
  unfold keptContent.
  destruct (props !! utf16 "contents") as [[| | |s| |]|]; try reflexivity.
  destruct (Js.trim s); reflexivity.
Qed.

Section ParserFacts.
Variable JSON_parse : jsstring -> option JsonValue.

Lemma parseJsonObject_found raw :
  parseJsonObject JSON_parse raw
  = if Js.is_empty (Js.trim raw) then None else objectFound JSON_parse (Js.trim raw).
Proof.
  unfold parseJsonObject, objectFound, parsesToObject, braceSubstring.
  destruct (Js.is_empty (Js.trim raw)); [reflexivity|].
  destruct (JSON_parse (Js.trim raw)) as [[| | | | |props]|];
    try reflexivity;
    destruct (Js.indexOf (Js.trim raw) openBrace) as [i|],
             (Js.lastIndexOf (Js.trim raw) closeBrace) as [j|];
    try reflexivity;
    destruct (i <? j)%nat; try reflexivity; simpl;
    destruct (JSON_parse (Js.slice (Js.trim raw) i (j + 1))) as [[| | | | |props']|];
    reflexivity.
Qed.

(** C3. For every behaviour of [JSON.parse], raw text and fallback label:
    [parseDebaterOutput] returns null exactly when the trimmed text is
    empty, or neither the trimmed text nor its brace substring parses to an
    object, or the object found keeps no contents in [new_perspectives] and
    none in [counterpoints]. When it returns an output, its two lists are the
    kept contents of those two fields of the object found, in order, and its
    speaker is the trimmed [speaker] string of the object when that is a
    string that is not blank, and the fallback label when the field is
    absent, blank or no string. *)
Theorem parseDebaterOutput_characterised (raw fallbackSpeaker : jsstring) :
  let trimmed := Js.trim raw in
  (parseDebaterOutput JSON_parse raw fallbackSpeaker = None <->
   trimmed = []
   \/ (parsesToObject JSON_parse trimmed = None /\
       forall sub, braceSubstring trimmed = Some sub ->
                   parsesToObject JSON_parse sub = None)
   \/ (exists props,
         objectFound JSON_parse trimmed = Some props /\
         keptContents (props !! utf16 "new_perspectives") = [] /\
         keptContents (props !! utf16 "counterpoints") = []))
  /\
  (forall out,
      parseDebaterOutput JSON_parse raw fallbackSpeaker = Some out ->
      exists props,
        trimmed <> [] /\
        objectFound JSON_parse trimmed = Some props /\
        newPerspectives out = keptContents (props !! utf16 "new_perspectives") /\
        counterpoints out = keptContents (props !! utf16 "counterpoints") /\
        (forall s, props !! utf16 "speaker" = Some (JStr s) -> Js.trim s <> [] ->
                   speaker out = Js.trim s) /\
        (props !! utf16 "speaker" = None -> speaker out = fallbackSpeaker) /\
        (forall s, props !! utf16 "speaker" = Some (JStr s) -> Js.trim s = [] ->
                   speaker out = fallbackSpeaker) /\
        (forall v, props !! utf16 "speaker" = Some v -> (forall s, v <> JStr s) ->
                   speaker out = fallbackSpeaker)).
Proof.
  cbv zeta. unfold parseDebaterOutput. rewrite parseJsonObject_found.
  destruct (Js.is_empty (Js.trim raw)) eqn:Hempty.
  { apply JsFacts.is_empty_true in Hempty. split; [|discriminate].
    split; [intros _; left; assumption | reflexivity]. }
  assert (Hne : Js.trim raw <> []).
  { intros E. rewrite E in Hempty. discriminate. }
  destruct (objectFound JSON_parse (Js.trim raw)) as [props|] eqn:Hfound.
  - rewrite !readContentsArray_kept.
    remember (keptContents (props !! utf16 "new_perspectives")) as np eqn:Enp.
    remember (keptContents (props !! utf16 "counterpoints")) as cp eqn:Ecp.
    destruct ((length np =? 0)%nat && (length cp =? 0)%nat) eqn:Hboth.
    + apply andb_true_iff in Hboth as [Hnp Hcp].
      destruct np; [|discriminate]. destruct cp; [|discriminate].
      split; [|discriminate].
      split; [|reflexivity]. intros _. right. right. exists props.
      rewrite <- Enp, <- Ecp. auto.
    + split.
      * split; [discriminate|].
        intros [E | [[Hwhole Hsub] | (props' & [= <-] & Hnp & Hcp)]].
        -- contradiction.
        -- exfalso. unfold objectFound in Hfound. rewrite Hwhole in Hfound.
           destruct (braceSubstring (Js.trim raw)) as [sub|]; [|discriminate].
           simpl in Hfound. rewrite (Hsub sub eq_refl) in Hfound. discriminate.
        -- rewrite <- Enp in Hnp. rewrite <- Ecp in Hcp.
           rewrite Hnp, Hcp in Hboth. discriminate.
      * intros out [= <-]. exists props. simpl.
        repeat split; try assumption.
        -- intros s -> Hs. apply JsFacts.length_pos_nonempty in Hs. rewrite Hs. reflexivity.
        -- intros ->. reflexivity.
        -- intros s -> Hs. rewrite Hs. reflexivity.
        -- intros v -> Hv. destruct v; try reflexivity. exfalso. eapply Hv. reflexivity.
  - split; [|discriminate].
    split; [|reflexivity]. intros _. right. left.
    unfold objectFound in Hfound.
    destruct (parsesToObject JSON_parse (Js.trim raw)); [discriminate|].
    split; [reflexivity|]. intros sub Hsub. rewrite Hsub in Hfound. exact Hfound.
Qed.
End ParserFacts.

(** C3 at concrete inputs: with a runtime whose [JSON.parse] gives an object
    holding one perspective " x " and no speaker, the output has the
    fallback speaker, the perspective "x" and no counterpoint; a blank text
    gives null. *)
Lemma parseDebaterOutput_at_samples :
  (exists out,
      parseDebaterOutput sampleParse (utf16 " {} ") (utf16 "fallback") = Some out /\
      speaker out = utf16 "fallback" /\
      newPerspectives out = [utf16 "x"] /\
      counterpoints out = []) /\
  parseDebaterOutput sampleParse (utf16 "   ") (utf16 "fallback") = None.
Proof.
  assert (Hobject : objectFound sampleParse (Js.trim (utf16 " {} ")) = Some sampleObject)
    by reflexivity.
  split.
  - destruct (parseDebaterOutput sampleParse (utf16 " {} ") (utf16 "fallback"))
      as [out|] eqn:E.
    + exists out. split; [reflexivity|].
      destruct (proj2 (parseDebaterOutput_characterised sampleParse (utf16 " {} ")
                         (utf16 "fallback")) out E)
        as (props & _ & Hfound & Hnp & Hcp & _ & Hfb & _).
      rewrite Hobject in Hfound. injection Hfound as <-.
      split; [apply Hfb; reflexivity|].
      split; [rewrite Hnp | rewrite Hcp]; reflexivity.
    + apply (proj1 (parseDebaterOutput_characterised sampleParse (utf16 " {} ")
                      (utf16 "fallback"))) in E.
      destruct E as [E | [[E _] | (props & Hfound & Hnp & _)]].
      * vm_compute in E. discriminate E.
      * unfold parsesToObject, sampleParse in E. discriminate E.
      * rewrite Hobject in Hfound. injection Hfound as <-.
        vm_compute in Hnp. discriminate Hnp.
  - apply (proj1 (parseDebaterOutput_characterised sampleParse (utf16 "   ")
                    (utf16 "fallback"))).
    left. vm_compute. reflexivity.
Defined.

(* ===================================================================== *)
(** * 13. The context block *)
(* ===================================================================== *)

Lemma imap_length {A B} (f : nat -> A -> B) (l : list A) :
  length (imap f l) = length l.
Proof.
  revert f. induction l as [|x l IH]; intros f; simpl; [reflexivity|].
  rewrite IH. reflexivity.
Qed.

Lemma extractParsedLines_length result p :
  parsed result = Some p ->
  length (extractParsedLines result)
  = (length (newPerspectives p) + length (counterpoints p))%nat.
Proof.
  intros E. unfold extractParsedLines. rewrite E.
  rewrite length_app, !imap_length. reflexivity.
Qed.

Lemma extractParsedLines_nonempty result p :
  parsed result = Some p ->
  (length (extractParsedLines result) =? 0)%nat = false <->
  newPerspectives p <> [] \/ counterpoints p <> [].
Proof.
  intros E. rewrite (extractParsedLines_length _ _ E).
  destruct (newPerspectives p), (counterpoints p); cbn; split;
    try done; try (intros _; auto; fail); intros [H | H]; done.
Qed.

Lemma contextEntry_Some label result section :
  contextEntry label result = Some section <->
  exists res p,
    result = Some res /\ Js.truthy_opt (error res) = false /\
    parsed res = Some p /\
    (newPerspectives p <> [] \/ counterpoints p <> []) /\
    section = rendering label res p.
Proof.
  unfold contextEntry. split.
  - destruct result as [res|]; [|discriminate].
    destruct (Js.truthy_opt (error res)) eqn:He; [discriminate|].
    destruct (parsed res) as [p|] eqn:Hp; [|discriminate].
    destruct (length (extractParsedLines res) =? 0)%nat eqn:Hl; [discriminate|].
    intros [= <-]. exists res, p. repeat split; try assumption.
    apply (extractParsedLines_nonempty res p Hp). assumption.
  - intros (res & p & -> & He & Hp & Hne & ->). rewrite He, Hp.
    apply (extractParsedLines_nonempty res p Hp) in Hne. rewrite Hne. reflexivity.
Qed.

Lemma contextEntry_shown label result :
  is_Some (contextEntry label result) <-> shown result.
Proof.
  split.
  - intros [section H]. apply contextEntry_Some in H
      as (res & p & ? & ? & ? & ? & _). exists res, p. repeat split; assumption.
  - intros (res & p & ? & ? & ? & ?). exists (rendering label res p).
    apply contextEntry_Some. exists res, p. repeat split; assumption.
Qed.

Lemma pushEntries_omap label results roles sections :
  pushEntries label results roles sections = sections ++ entriesOf label results roles.
Proof.
  unfold pushEntries, entriesOf. revert sections.
  induction roles as [|r roles IH]; intros sections; simpl.
  - rewrite app_nil_r. reflexivity.
  - rewrite IH. destruct (contextEntry label (results !! r)); simpl.
    + rewrite <- app_assoc. reflexivity.
    + reflexivity.
Qed.

Lemma debateContextSections_entries currentRole currentRound round1Results current :
  debateContextSections currentRole currentRound round1Results current
  = match currentRound with
    | Round2 => entriesOf (utf16 "第一轮") round1Results DEBATER_ROLES
    | Round1 => []
    end
    ++ entriesOf (currentRoundLabel currentRound) current
         (firstn (roleIndex currentRole) DEBATER_ROLES).
Proof.
  unfold debateContextSections.
  destruct currentRound; rewrite !pushEntries_omap; reflexivity.
Qed.

(** The roles before [currentRole] are those of a smaller index. *)
Lemma earlier_roles currentRole r :
  r ∈ firstn (roleIndex currentRole) DEBATER_ROLES <->
  (roleIndex r < roleIndex currentRole)%nat.
Proof.
  destruct currentRole, r; cbn; rewrite ?elem_of_cons, ?elem_of_nil;
    split; intros H; try lia; try tauto; try (intuition discriminate).
Qed.

Lemma entriesOf_cons label results r roles :
  entriesOf label results (r :: roles)
  = match contextEntry label (results !! r) with
    | Some section => section :: entriesOf label results roles
    | None => entriesOf label results roles
    end.
Proof. reflexivity. Qed.

Lemma entriesOf_ext label results results' roles :
  (forall r, r ∈ roles -> results !! r = results' !! r) ->
  entriesOf label results roles = entriesOf label results' roles.
Proof.
  induction roles as [|r roles IH]; intros H; [reflexivity|].
  rewrite !entriesOf_cons, (H r) by left.
  rewrite IH by (intros; apply H; right; assumption). reflexivity.
Qed.

Lemma entriesOf_elem label results roles section :
  section ∈ entriesOf label results roles <->
  exists r, r ∈ roles /\ contextEntry label (results !! r) = Some section.
Proof. unfold entriesOf. rewrite list_elem_of_omap. reflexivity. Qed.

(** On maps that the round runner does not write, the guards of the loop
    body matter: a result that carries both an error text and a structured
    output, or a structured output without entry, is left out. *)
Lemma guarded_results_are_left_out :
  (parsed erroredWithOutput <> None /\
   debateContextSections debater_b Round2 {[ debater_a := erroredWithOutput ]} ∅ = [] /\
   buildDebateContext debater_b Round2 {[ debater_a := erroredWithOutput ]} ∅ = [] /\
   specifiedSections debater_b Round2 {[ debater_a := erroredWithOutput ]} ∅
   = [rendering (utf16 "第一轮") erroredWithOutput someOutput]) /\
  (parsed outputWithoutEntries <> None /\
   debateContextSections debater_b Round2 {[ debater_a := outputWithoutEntries ]} ∅ = []).
Proof.
  repeat split; try discriminate; vm_compute; reflexivity.
Qed.

(** The context block on arbitrary maps. The context built for a
    participant is the join of sections that are exactly: in round 2, the rendering of the round-1
    result of every participant, in order and whatever its position, whose
    result is present, carries no error text and has a non-null structured
    output with at least one entry; then the rendering, under the label of
    the current round, of the current-round result of every participant at
    a position strictly before the participant's, under the same condition.
    So the context does not depend on the current-round results at the
    participant's position or after it, and in round 2 the output of a
    round-1 participant is among the sections if and only if its result is
    shown (present, without error text, non-null, with an entry). *)
Lemma debate_context_exact
    (currentRole : DebaterRole) (currentRound : DebateRound)
    (round1Results current : RoundResults) :
  let sections :=
    debateContextSections currentRole currentRound round1Results current in
  let earlier := firstn (roleIndex currentRole) DEBATER_ROLES in
  buildDebateContext currentRole currentRound round1Results current
  = Js.join (Js.nl ++ Js.nl) sections /\
  sections
  = match currentRound with
    | Round2 => entriesOf (utf16 "第一轮") round1Results DEBATER_ROLES
    | Round1 => []
    end
    ++ entriesOf (currentRoundLabel currentRound) current earlier /\
  (forall label results roles section,
      section ∈ entriesOf label results roles <->
      exists r res p,
        r ∈ roles /\ results !! r = Some res /\
        Js.truthy_opt (error res) = false /\ parsed res = Some p /\
        (newPerspectives p <> [] \/ counterpoints p <> []) /\
        section = rendering label res p) /\
  (forall r, r ∈ earlier <-> (roleIndex r < roleIndex currentRole)%nat) /\
  (forall current',
      (forall r, (roleIndex r < roleIndex currentRole)%nat ->
                 current' !! r = current !! r) ->
      buildDebateContext currentRole currentRound round1Results current'
      = buildDebateContext currentRole currentRound round1Results current) /\
  (currentRound = Round2 ->
   forall r,
     (exists section,
         contextEntry (utf16 "第一轮") (round1Results !! r) = Some section /\
         section ∈ sections)
     <-> shown (round1Results !! r)).
Proof.
  cbv zeta. split; [reflexivity|].
  split; [apply debateContextSections_entries|].
  split.
  { intros label results roles section. rewrite entriesOf_elem. split.
    - intros (r & Hr & H). apply contextEntry_Some in H
        as (res & p & ? & ? & ? & ? & ?). exists r, res, p. repeat split; assumption.
    - intros (r & res & p & Hr & ? & ? & ? & ? & ?). exists r. split; [assumption|].
      apply contextEntry_Some. exists res, p. repeat split; assumption. }
  split; [apply earlier_roles|].
  split.
  { intros current' Hagree. unfold buildDebateContext.
    rewrite !debateContextSections_entries. f_equal. f_equal.
    apply entriesOf_ext. intros r Hr. apply Hagree, earlier_roles. assumption. }
  intros -> r. rewrite debateContextSections_entries. split.
  - intros (section & H & _). apply (contextEntry_shown (utf16 "第一轮")).
    exists section. exact H.
  - intros Hs. apply (contextEntry_shown (utf16 "第一轮")) in Hs as [section H].
    exists section. split; [assumption|].
    apply elem_of_app. left. apply entriesOf_elem. exists r. split; [|assumption].
    destruct r; unfold DEBATER_ROLES; rewrite !elem_of_cons; auto.
Qed.

(** At concrete inputs: in round 2, what participant B gets
    does not change when a result is recorded for C in the current round,
    and the round-1 output of A, a good result, is among the sections. *)
Lemma debate_context_at_samples :
  buildDebateContext debater_b Round2 sampleRound1 {[ debater_c := goodResult ]}
  = buildDebateContext debater_b Round2 sampleRound1 ∅ /\
  (exists section,
      contextEntry (utf16 "第一轮") (sampleRound1 !! debater_a) = Some section /\
      section ∈ debateContextSections debater_b Round2 sampleRound1 ∅).
Proof.
  destruct (debate_context_exact debater_b Round2 sampleRound1 ∅)
    as (_ & _ & _ & _ & Hsame & Hround1).
  split.
  - apply Hsame. intros r Hr.
    destruct r; [reflexivity | cbn in Hr; lia | cbn in Hr; lia].
  - apply (Hround1 eq_refl debater_a).
    exists goodResult, someOutput.
    split; [reflexivity|]. split; [reflexivity|]. split; [reflexivity|].
    left. discriminate.
Defined.

Section RecordedFacts.

Lemma parseDebaterOutput_has_entry JSON_parse raw fallbackSpeaker p :
  parseDebaterOutput JSON_parse raw fallbackSpeaker = Some p ->
  newPerspectives p <> [] \/ counterpoints p <> [].
Proof.
  unfold parseDebaterOutput.
  destruct (parseJsonObject JSON_parse raw) as [obj|]; [|discriminate].
  cbv zeta.
  destruct ((length (readContentsArray (obj !! utf16 "new_perspectives")) =? 0)%nat
            && (length (readContentsArray (obj !! utf16 "counterpoints")) =? 0)%nat)
    eqn:E; [discriminate|].
  intros [= <-]. cbn [newPerspectives counterpoints].
  apply andb_false_iff in E as [E | E]; [left | right];
    intros Hnil; rewrite Hnil in E; discriminate.
Qed.

(** A recorded result with a structured output carries no error text, and
    the output has an entry. *)
Lemma recorded_output result p :
  recorded result -> parsed result = Some p ->
  Js.truthy_opt (error result) = false /\
  (newPerspectives p <> [] \/ counterpoints p <> []).
Proof.
  intros (JSON_parse & toLowerCase & snap & model & r & outcome & ->).
  destruct outcome as [t | [] [role dataModel dataContent | e d]];
    cbn [debaterCompletion resultOfCompletion parsed error];
    try discriminate.
  intros H. split; [reflexivity|].
  eapply parseDebaterOutput_has_entry. exact H.
Qed.

Lemma contextEntry_recorded label results r :
  recordedResults results ->
  contextEntry label (results !! r) = specifiedEntry label (results !! r).
Proof.
  intros Hrec. destruct (results !! r) as [res|] eqn:E; [|reflexivity].
  unfold contextEntry, specifiedEntry.
  destruct (parsed res) as [p|] eqn:Hp.
  - destruct (recorded_output res p (Hrec r res E) Hp) as [He Hne].
    rewrite He.
    apply (extractParsedLines_nonempty res p Hp) in Hne. rewrite Hne. reflexivity.
  - destruct (Js.truthy_opt (error res)); reflexivity.
Qed.

Lemma entriesOf_recorded label results roles :
  recordedResults results ->
  entriesOf label results roles
  = omap (fun r => specifiedEntry label (results !! r)) roles.
Proof.
  intros Hrec. induction roles as [|r roles IH]; [reflexivity|].
  rewrite entriesOf_cons, contextEntry_recorded, IH by assumption.
  simpl. destruct (specifiedEntry label (results !! r)); reflexivity.
Qed.

Lemma resultsAfter_recorded JSON_parse toLowerCase roundAwarePrompts fetchTest snap
    round prompt addendum roles current :
  recordedResults current ->
  recordedResults
    (resultsAfter JSON_parse toLowerCase roundAwarePrompts fetchTest snap round prompt
       addendum roles current).
Proof.
  revert current. induction roles as [|r roles IH]; intros current Hrec; [exact Hrec|].
  simpl. apply IH. intros r' result Hl.
  destruct (decide (r = r')) as [<- | Hne].
  - rewrite lookup_insert_eq in Hl. injection Hl as <-.
    unfold slotOf, invocation. repeat eexists.
  - rewrite lookup_insert_ne in Hl by assumption. eapply Hrec. exact Hl.
Qed.
End RecordedFacts.

(** C4. Take the maps the page gives to [buildDebateContext]: maps that
    hold results recorded by the round runner. The context built for the
    participant at a position is the join of sections that are exactly: in
    round 2, the rendering of the round-1 output of every participant whose
    round-1 structured output is non-null, whatever its position; then the
    rendering, under the label of the current round, of the current-round
    output of every participant at a position strictly before, whose
    structured output is non-null. So the context does not depend on the
    current-round results at the participant's position or after it; in
    round 2 the output of a round-1 participant is among the sections if
    and only if its structured output is non-null; and the results the
    runner goes on to record keep the map a map of recorded results. *)
Theorem debate_context_shows_the_non_null_outputs
    (currentRole : DebaterRole) (currentRound : DebateRound)
    (round1Results current : RoundResults) :
  recordedResults round1Results ->
  recordedResults current ->
  let sections :=
    debateContextSections currentRole currentRound round1Results current in
  buildDebateContext currentRole currentRound round1Results current
  = Js.join (Js.nl ++ Js.nl) sections /\
  sections = specifiedSections currentRole currentRound round1Results current /\
  (forall current',
      (forall r, (roleIndex r < roleIndex currentRole)%nat ->
                 current' !! r = current !! r) ->
      buildDebateContext currentRole currentRound round1Results current'
      = buildDebateContext currentRole currentRound round1Results current) /\
  (currentRound = Round2 ->
   forall r,
     (exists section,
         specifiedEntry (utf16 "第一轮") (round1Results !! r) = Some section /\
         section ∈ sections)
     <-> exists res p, round1Results !! r = Some res /\ parsed res = Some p) /\
  (forall JSON_parse toLowerCase roundAwarePrompts fetchTest snap round prompt
          addendum roles,
      recordedResults
        (resultsAfter JSON_parse toLowerCase roundAwarePrompts fetchTest snap round
           prompt addendum roles current)).
Proof.
  intros Hr1 Hcur. cbv zeta.
  assert (Hsections :
            debateContextSections currentRole currentRound round1Results current
            = specifiedSections currentRole currentRound round1Results current).
  { rewrite debateContextSections_entries. unfold specifiedSections.
    rewrite !entriesOf_recorded by assumption. reflexivity. }
  split; [reflexivity|]. split; [exact Hsections|]. split; [|split].
  - intros current' Hagree. unfold buildDebateContext.
    rewrite !debateContextSections_entries. f_equal. f_equal.
    apply entriesOf_ext. intros r Hr. apply Hagree, earlier_roles. assumption.
  - intros -> r. rewrite Hsections. unfold specifiedSections. split.
    + intros (section & H & _). unfold specifiedEntry in H.
      destruct (round1Results !! r) as [res|]; [|discriminate].
      destruct (parsed res) as [p|] eqn:Hp; [|discriminate].
      exists res, p. split; [reflexivity | assumption].
    + intros (res & p & Hres & Hp).
      exists (rendering (utf16 "第一轮") res p). split.
      * rewrite Hres. unfold specifiedEntry. rewrite Hp. reflexivity.
      * apply elem_of_app. left. apply list_elem_of_omap.
        exists r. split.
        -- destruct r; unfold DEBATER_ROLES; rewrite !elem_of_cons; auto.
        -- rewrite Hres. unfold specifiedEntry. rewrite Hp. reflexivity.
  - intros. apply resultsAfter_recorded. assumption.
Qed.

(** C4 at recorded results: participant A answered in round 1 and failed in
    round 2. The round-2 context of participant B holds the round-1 output
    of A and nothing of round 2. *)
Lemma debate_context_of_a_recorded_round :
  debateContextSections debater_b Round2
    {[ debater_a := answeredResult ]} {[ debater_a := failedResult ]}
  = specifiedSections debater_b Round2
      {[ debater_a := answeredResult ]} {[ debater_a := failedResult ]}.
Proof.
  apply (debate_context_shows_the_non_null_outputs debater_b Round2
           {[ debater_a := answeredResult ]} {[ debater_a := failedResult ]}).
  - intros r result H. apply lookup_singleton_Some in H as [_ <-].
    unfold recorded, answeredResult. repeat eexists.
  - intros r result H. apply lookup_singleton_Some in H as [_ <-].
    unfold recorded, failedResult. repeat eexists.
Defined.

(* ===================================================================== *)
(** * 14. The round runner *)
(* ===================================================================== *)

Lemma roundResultsCell_published (rd : DebateRound) (v : RoundResults) (s : PageState) :
  roundResultsCell rd
    (match rd with
     | Round1 => setRound1Results v
     | Round2 => setRound2Results v
     end s) = v.
Proof. destruct rd; reflexivity. Qed.

(** Three inserted slots make a round complete. *)
Lemma three_slots_completed (a b c : DebaterResult) :
  let results : RoundResults :=
    <[debater_c := c]> (<[debater_b := b]> (<[debater_a := a]> ∅)) in
  results !! debater_a = Some a /\
  results !! debater_b = Some b /\
  results !! debater_c = Some c /\
  hasRoundCompleted results = true.
Proof.
  cbv zeta.
  assert (Ha : (<[debater_c := c]> (<[debater_b := b]> (<[debater_a := a]> ∅))
                : RoundResults) !! debater_a = Some a).
  { rewrite !lookup_insert_ne by discriminate. apply lookup_insert_eq. }
  assert (Hb : (<[debater_c := c]> (<[debater_b := b]> (<[debater_a := a]> ∅))
                : RoundResults) !! debater_b = Some b).
  { rewrite lookup_insert_ne by discriminate. apply lookup_insert_eq. }
  assert (Hc : (<[debater_c := c]> (<[debater_b := b]> (<[debater_a := a]> ∅))
                : RoundResults) !! debater_c = Some c).
  { apply lookup_insert_eq. }
  split; [exact Ha|]. split; [exact Hb|]. split; [exact Hc|].
  unfold hasRoundCompleted, DEBATER_ROLES. simpl forallb.
  rewrite Ha, Hb, Hc. reflexivity.
Qed.

Section HintFacts.
Variable toLowerCase : jsstring -> jsstring.

Lemma withContextOverflowHint_cases msg language :
  withContextOverflowHint toLowerCase msg language
  = if mayBeOverflow toLowerCase msg then overflowHint language ++ msg else msg.
Proof.
  unfold withContextOverflowHint, overflowHint.
  destruct (mayBeOverflow toLowerCase msg); [|reflexivity].
  destruct language; simpl negb; cbv iota; rewrite <- ?app_assoc; reflexivity.
Qed.

Lemma mayBeOverflow_phrase msg :
  mayBeOverflow toLowerCase msg = true <->
  exists phrase, phrase ∈ overflowPhrases /\
                 Js.includes (toLowerCase msg) phrase = true.
Proof.
  unfold mayBeOverflow. rewrite existsb_exists. split.
  - intros (phrase & Hin & H). exists phrase. split; [|assumption].
    apply list_elem_of_In. assumption.
  - intros (phrase & Hin & H). exists phrase. split; [|assumption].
    apply list_elem_of_In. assumption.
Qed.
End HintFacts.

Section RoundFacts.
Variable JSON_parse : jsstring -> option JsonValue.
Variable toLowerCase : jsstring -> jsstring.
Variable roundAwarePrompts : DebaterRole -> DebateRound -> jsstring.
Variable fetchTest : TestRequestBody.t -> FetchOutcome.
Variable whileAwaiting : TestRequestBody.t -> PageState -> PageState.
Variable snap : PageState.
Variable round : DebateRound.
Variable prompt : jsstring.
Variable addendum : option jsstring.

Local Abbreviation loop :=
  (roundLoop JSON_parse toLowerCase roundAwarePrompts fetchTest whileAwaiting
     snap round prompt addendum).
Local Abbreviation sent :=
  (invocationRequest roundAwarePrompts snap round prompt addendum).
Local Abbreviation invoked :=
  (invocation JSON_parse roundAwarePrompts fetchTest snap round prompt addendum).
Local Abbreviation slot :=
  (slotOf JSON_parse toLowerCase roundAwarePrompts fetchTest snap round prompt addendum).
Local Abbreviation after :=
  (resultsAfter JSON_parse toLowerCase roundAwarePrompts fetchTest snap round prompt
     addendum).
Local Abbreviation sentFor :=
  (requestsOf JSON_parse toLowerCase roundAwarePrompts fetchTest snap round prompt
     addendum).
Local Abbreviation step :=
  (liveAfterStep JSON_parse toLowerCase roundAwarePrompts fetchTest whileAwaiting
     snap round prompt addendum).

Lemma roundLoop_cons r rest currentResults live :
  loop (r :: rest) currentResults live
  = loop rest (<[r := slot currentResults r]> currentResults)
      (step r currentResults live).
Proof. reflexivity. Qed.

Lemma roundLoop_spec roles currentResults live :
  fst (loop roles currentResults live) = after roles currentResults /\
  requests (snd (loop roles currentResults live))
  = requests live ++ sentFor roles currentResults /\
  (roles <> [] ->
   roundResultsCell round (page (snd (loop roles currentResults live)))
   = after roles currentResults).
Proof.
  revert currentResults live.
  induction roles as [|r rest IH]; intros currentResults live.
  - simpl. rewrite app_nil_r. repeat split. intros H. contradiction.
  - rewrite roundLoop_cons.
    destruct (IH (<[r := slot currentResults r]> currentResults)
                (step r currentResults live)) as (Hfst & Hrequests & Hpage).
    split; [exact Hfst|]. split.
    + rewrite Hrequests. simpl requests. rewrite <- app_assoc. reflexivity.
    + intros _. destruct rest as [|r' rest'].
      * simpl. apply roundResultsCell_published.
      * apply Hpage. discriminate.
Qed.

(** C5. For every server, every interference of other handlers, every
    render, round, prompt and addendum: after [runDebateRound] the local
    results hold a result for A, B and C, namely the one recorded for the
    invocation of each, made with the results of the participants before
    it; the round is complete; the results are what the round's cell holds;
    the three requests were sent, in order, whatever the earlier ones gave.
    An invocation that throws is recorded with the participant's model, an
    empty raw content, a null parsed output and an error text: the thrown
    message with the overflow hint when it is an [Error], a fixed text
    otherwise. The hint is put before the message exactly when the
    lower-cased message includes one of the overflow phrases. *)
Theorem round_populates_every_slot (live : Live) :
  let run :=
    runDebateRound JSON_parse toLowerCase roundAwarePrompts fetchTest whileAwaiting
      snap round prompt addendum live in
  let results := fst run in
  let slotA := slot ∅ debater_a in
  let afterA := <[debater_a := slotA]> (∅ : RoundResults) in
  let slotB := slot afterA debater_b in
  let afterB := <[debater_b := slotB]> afterA in
  let slotC := slot afterB debater_c in
  (results !! debater_a = Some slotA /\
   results !! debater_b = Some slotB /\
   results !! debater_c = Some slotC) /\
  (forall r, is_Some (results !! r)) /\
  hasRoundCompleted results = true /\
  roundResultsCell round (page (snd run)) = results /\
  requests (snd run)
  = requests live ++ [sent ∅ debater_a; sent afterA debater_b; sent afterB debater_c] /\
  (forall currentResults r t,
      invoked currentResults r = Throws t ->
      slot currentResults r
      = {| model := debaterModels snap r;
           rawContent := [];
           parsed := None;
           error :=
             Some match errorMessage t with
                  | Some m => withContextOverflowHint toLowerCase m (uiLang snap)
                  | None => tr snap (utf16 "调用失败") (utf16 "Request failed")
                  end |}) /\
  (forall m language,
      withContextOverflowHint toLowerCase m language
      = if mayBeOverflow toLowerCase m then overflowHint language ++ m else m) /\
  (forall m,
      mayBeOverflow toLowerCase m = true <->
      exists phrase, phrase ∈ overflowPhrases /\
                     Js.includes (toLowerCase m) phrase = true).
Proof.
  cbv zeta. unfold runDebateRound.
  destruct (roundLoop_spec DEBATER_ROLES ∅ live) as (Hfst & Hreq & Hcell).
  rewrite Hfst, Hreq, Hcell by discriminate.
  unfold DEBATER_ROLES. cbn [resultsAfter requestsOf].
  match goal with
  | |- context [<[debater_c := ?c]> (<[debater_b := ?b]> (<[debater_a := ?a]> ∅))] =>
    destruct (three_slots_completed a b c) as (Ha & Hb & Hc & Hdone)
  end.
  split; [auto|].
  split; [intros []; eauto|].
  split; [exact Hdone|].
  split; [reflexivity|].
  split; [reflexivity|].
  split.
  { intros currentResults r t Ht. unfold slotOf. rewrite Ht. reflexivity. }
  split; [apply withContextOverflowHint_cases | apply mayBeOverflow_phrase].
Qed.
End RoundFacts.

(** C5 at a concrete input: with a server that is unreachable and answers
    every request with an overflow message, round 1 still ends with three
    slots, three requests were sent, and the slot of A holds the hint
    followed by the message, and no parsed output. *)
Lemma round_with_unreachable_server :
  let run :=
    runDebateRound sampleParse sampleLower samplePromptTable sampleFetch undisturbed
      sampleSnap Round1 (utf16 "How do we ship?") None sampleLive in
  hasRoundCompleted (fst run) = true /\
  length (requests (snd run)) = 3%nat /\
  (exists res,
      fst run !! debater_a = Some res /\
      parsed res = None /\
      error res = Some (overflowHint en ++ utf16 "Maximum context length exceeded")).
Proof.
  cbv zeta.
  destruct (round_populates_every_slot sampleParse sampleLower samplePromptTable
              sampleFetch undisturbed sampleSnap Round1 (utf16 "How do we ship?")
              None sampleLive)
    as ((Ha & _ & _) & _ & Hdone & _ & Hsent & Hthrown & Hhint & _).
  split; [exact Hdone|].
  split; [rewrite Hsent; reflexivity|].
  eexists. split; [exact Ha|].
  rewrite (Hthrown ∅ debater_a
             (OtherError (utf16 "Maximum context length exceeded")) eq_refl).
  split; [reflexivity|].
  cbn [error errorMessage]. rewrite Hhint.
  replace (mayBeOverflow sampleLower (utf16 "Maximum context length exceeded"))
    with true by (vm_compute; reflexivity).
  reflexivity.
Defined.

(* ===================================================================== *)
(** * 15. The addendum: live draft and committed snapshot *)
(* ===================================================================== *)

Lemma normalizeOptionalText_idem a :
  normalizeOptionalText (normalizeOptionalText a) = normalizeOptionalText a.
Proof.
  destruct a as [raw|]; [|reflexivity]. simpl.
  destruct (Js.is_empty raw); [reflexivity|].
  destruct (Js.trim raw) as [|c t] eqn:E; [reflexivity|].
  assert (Ht : Js.trim (c :: t) = c :: t) by (rewrite <- E; apply JsFacts.trim_idem).
  change (normalizeOptionalText (Some (c :: t)) = Some (c :: t)).
  unfold normalizeOptionalText. rewrite Ht. reflexivity.
Qed.

(** [buildSummaryPrompt] normalises its addendum itself. *)
Lemma buildSummaryPrompt_normalized finalPrompt r1 r2 a :
  buildSummaryPrompt finalPrompt r1 r2 (normalizeOptionalText a)
  = buildSummaryPrompt finalPrompt r1 r2 a.
Proof. unfold buildSummaryPrompt. rewrite normalizeOptionalText_idem. reflexivity. Qed.

Section AddendumFacts.
Variable JSON_parse : jsstring -> option JsonValue.
Variable toLowerCase : jsstring -> jsstring.
Variable roundAwarePrompts : DebaterRole -> DebateRound -> jsstring.
Variable fetchTest : TestRequestBody.t -> FetchOutcome.

Local Abbreviation generateSummary w :=
  (handleGenerateSummary toLowerCase fetchTest w).
Local Abbreviation skipAndSummarize w :=
  (handleSkipRound2AndSummarize toLowerCase fetchTest w).
Local Abbreviation runRound2 w :=
  (handleRunRound2 JSON_parse toLowerCase roundAwarePrompts fetchTest w).
Local Abbreviation requestsOfRound :=
  (roundRequests JSON_parse toLowerCase roundAwarePrompts fetchTest).
Local Abbreviation resultsOfRound :=
  (roundResults JSON_parse toLowerCase roundAwarePrompts fetchTest).

Lemma handleGenerateSummary_requests whileAwaiting snap useRound2 live :
  round1Completed snap = true ->
  (useRound2 = true -> round2Completed snap = true) ->
  summarizerModel snap <> [] ->
  Js.trim (finalPrompt snap) <> [] ->
  requests (snd (generateSummary whileAwaiting snap useRound2 live))
  = requests live ++ [summaryRequestOf snap useRound2].
Proof.
  intros H1 H2 Hm Hp. unfold handleGenerateSummary.
  unfold mbind, Act_bind, modify, fetch, mret, Act_ret.
  rewrite H1. simpl negb. cbv iota.
  assert (E2 : useRound2 && negb (round2Completed snap) = false).
  { destruct useRound2; [|reflexivity]. rewrite H2 by reflexivity. reflexivity. }
  rewrite E2.
  apply JsFacts.is_empty_true' in Hm. apply JsFacts.is_empty_true' in Hp.
  rewrite Hm, Hp.
  destruct (fetchTest _) as [t | [] [] ]; reflexivity.
Qed.

Lemma roundLoop_keeps edit snap prompt addendum roles currentResults live :
  kept (page (snd (roundLoop JSON_parse toLowerCase roundAwarePrompts fetchTest
                     (draftEdits edit) snap Round2 prompt addendum
                     roles currentResults live)))
  = kept (page live).
Proof.
  revert currentResults live.
  induction roles as [|r rest IH]; intros currentResults live; [reflexivity|].
  rewrite roundLoop_cons, IH. reflexivity.
Qed.

Lemma roundResults_completed snap rd prompt addendum :
  hasRoundCompleted (resultsOfRound snap rd prompt addendum) = true.
Proof.
  unfold roundResults, DEBATER_ROLES. cbn [resultsAfter].
  match goal with
  | |- context [<[debater_c := ?c]> (<[debater_b := ?b]> (<[debater_a := ?a]> ∅))] =>
    destruct (three_slots_completed a b c) as (_ & _ & _ & Hdone)
  end.
  exact Hdone.
Qed.

Lemma handleRunRound2_effect whileAwaiting snap live :
  round1Completed snap = true ->
  Js.trim (finalPrompt snap) <> [] ->
  let snapshot := normalizeOptionalText (Some (round2AddendumDraft snap)) in
  let prompt := Js.trim (finalPrompt snap) in
  exists live0 live1,
    kept (page live0)
    = (uiLang (page live), debaterModels (page live), summarizerModel (page live),
       finalPrompt (page live), round1Results (page live), snapshot) /\
    requests live0 = requests live /\
    live1 = snd (runDebateRound JSON_parse toLowerCase roundAwarePrompts fetchTest
                   whileAwaiting snap Round2 prompt snapshot live0) /\
    kept (page (snd (runRound2 whileAwaiting snap live))) = kept (page live1) /\
    round2Results (page (snd (runRound2 whileAwaiting snap live)))
    = round2Results (page live1) /\
    requests (snd (runRound2 whileAwaiting snap live)) = requests live1.
Proof.
  intros H1 Hp. cbv zeta. unfold handleRunRound2.
  rewrite H1. apply JsFacts.is_empty_true' in Hp. rewrite Hp. simpl negb. cbv iota.
  unfold mbind, Act_bind, modify.
  match goal with
  | |- context [runDebateRound _ _ _ _ _ _ _ _ _ ?l] => set (live0 := l)
  end.
  exists live0.
  destruct (runDebateRound JSON_parse toLowerCase roundAwarePrompts fetchTest
              whileAwaiting snap Round2 (Js.trim (finalPrompt snap))
              (normalizeOptionalText (Some (round2AddendumDraft snap))) live0)
    as [res live1] eqn:E.
  exists live1. repeat split.
Qed.

(** C9. Skip path: when the guards of the summary pass, skipping round 2
    sends one request whose prompt is the summary prompt built with the live
    draft as addendum and with round 1 only, and the committed cell has no
    part in it: the request is the same whatever that cell holds.
    Two-round path: starting round 2 from a render commits the normalised
    draft of that render; the three requests of the round are built from
    that snapshot and are the same whether or not the draft is edited while
    they are awaited, and so are the results; and a two-round summary asked
    from any later render, whatever the draft has become, sends the summary
    prompt built with the snapshot, round 1 and those round-2 results. *)
Theorem addendum_live_on_skip_snapshot_on_round2 :
  (forall whileAwaiting snap live,
      round1Completed snap = true ->
      summarizerModel snap <> [] ->
      Js.trim (finalPrompt snap) <> [] ->
      let sent := requests (snd (skipAndSummarize whileAwaiting snap live)) in
      sent
      = requests live
          ++ [summaryRequest snap
                (buildSummaryPrompt (Js.trim (finalPrompt snap)) (round1Results snap)
                   None (Some (round2AddendumDraft snap)))] /\
      forall committed,
        requests (snd (skipAndSummarize whileAwaiting
                         (setRound2AddendumCommitted committed snap) live))
        = sent) /\
  (forall edit snap live,
      page live = snap ->
      round1Completed snap = true ->
      Js.trim (finalPrompt snap) <> [] ->
      let snapshot := normalizeOptionalText (Some (round2AddendumDraft snap)) in
      let prompt := Js.trim (finalPrompt snap) in
      let started := snd (runRound2 (draftEdits edit) snap live) in
      round2AddendumCommitted (page started) = snapshot /\
      requests started = requests live ++ requestsOfRound snap Round2 prompt snapshot /\
      requests started = requests (snd (runRound2 undisturbed snap live)) /\
      (exists second third,
          map TestRequestBody.prompt (requestsOfRound snap Round2 prompt snapshot)
          = [buildPromptForRole prompt debater_a Round2 (round1Results snap) ∅ snapshot;
             buildPromptForRole prompt debater_b Round2 (round1Results snap) second snapshot;
             buildPromptForRole prompt debater_c Round2 (round1Results snap) third snapshot]) /\
      round2Results (page started) = resultsOfRound snap Round2 prompt snapshot /\
      forall laterDraft live2,
        summarizerModel snap <> [] ->
        let rendered := setRound2AddendumDraft laterDraft (page started) in
        requests (snd (generateSummary (draftEdits edit) rendered true live2))
        = requests live2
            ++ [summaryRequest snap
                  (buildSummaryPrompt prompt (round1Results snap)
                     (Some (resultsOfRound snap Round2 prompt snapshot)) snapshot)]).
Proof.
  split.
  - intros whileAwaiting snap live H1 Hm Hp. cbv zeta.
    assert (Hskip : forall s l,
               requests (snd (skipAndSummarize whileAwaiting s l))
               = requests (snd (generateSummary whileAwaiting s false
                                  {| page := setSummaryMode round1
                                               (setRound2Started false (page l));
                                     requests := requests l |}))).
    { intros s l. reflexivity. }
    split.
    + rewrite Hskip, handleGenerateSummary_requests by (assumption || discriminate).
      unfold summaryRequestOf, summaryAddendum.
      rewrite buildSummaryPrompt_normalized. reflexivity.
    + intros committed.
      rewrite !Hskip, !handleGenerateSummary_requests by (assumption || discriminate).
      reflexivity.
  - intros edit snap live Hlive H1 Hp. cbv zeta.
    destruct (handleRunRound2_effect (draftEdits edit) snap live H1 Hp)
      as (live0 & live1 & Hk0 & Hr0 & -> & Hk & Hr2 & Hreq).
    destruct (handleRunRound2_effect undisturbed snap live H1 Hp)
      as (live0' & live1' & _ & Hr0' & -> & _ & _ & Hreq').
    unfold runDebateRound in *.
    destruct (roundLoop_spec JSON_parse toLowerCase roundAwarePrompts fetchTest
                (draftEdits edit) snap Round2 (Js.trim (finalPrompt snap))
                (normalizeOptionalText (Some (round2AddendumDraft snap)))
                DEBATER_ROLES ∅ live0) as (_ & Hsent & Hcell).
    destruct (roundLoop_spec JSON_parse toLowerCase roundAwarePrompts fetchTest
                undisturbed snap Round2 (Js.trim (finalPrompt snap))
                (normalizeOptionalText (Some (round2AddendumDraft snap)))
                DEBATER_ROLES ∅ live0') as (_ & Hsent' & _).
    specialize (Hcell ltac:(discriminate)).
    change (roundResultsCell Round2 ?s) with (round2Results s) in Hcell.
    rewrite roundLoop_keeps, Hk0, Hlive in Hk.
    injection Hk as Hlang Hmodels Hsum Hfinal Hr1 Hcommitted.
    rewrite Hcell in Hr2. rewrite Hsent, Hr0 in Hreq. rewrite Hsent', Hr0' in Hreq'.
    split; [exact Hcommitted|].
    split; [exact Hreq|].
    split; [rewrite Hreq, Hreq'; reflexivity|].
    split; [do 2 eexists; reflexivity|].
    split; [exact Hr2|].
    intros laterDraft live2 Hm.
    rewrite handleGenerateSummary_requests.
    + unfold summaryRequestOf, summaryRequest, summaryAddendum.
      cbn [setRound2AddendumDraft summarizerModel finalPrompt round1Results
           round2Results round2AddendumCommitted].
      rewrite Hsum, Hfinal, Hr1, Hr2, Hcommitted. reflexivity.
    + unfold round1Completed. cbn [setRound2AddendumDraft round1Results].
      rewrite Hr1. exact H1.
    + intros _. unfold round2Completed. cbn [setRound2AddendumDraft round2Results].
      rewrite Hr2. apply roundResults_completed.
    + cbn [setRound2AddendumDraft summarizerModel]. rewrite Hsum. exact Hm.
    + cbn [setRound2AddendumDraft finalPrompt]. rewrite Hfinal. exact Hp.
Qed.
End AddendumFacts.

(** C9 at a concrete render, whose draft is " budget is fixed " and whose
    round 1 is complete: skipping sends the summary built with that draft;
    after round 2 was started and the draft was then replaced by "changed",
    the committed snapshot is "budget is fixed" and the two-round summary is
    built with it. *)
Lemma addendum_at_sample_render :
  let snapshot := Some (utf16 "budget is fixed") in
  let prompt := utf16 "How do we ship?" in
  let started :=
    snd (handleRunRound2 sampleParse sampleLower samplePromptTable sampleFetch
           (draftEdits (fun _ _ => utf16 "changed")) sampleSnap sampleLive) in
  requests (snd (handleSkipRound2AndSummarize sampleLower sampleFetch undisturbed
                   sampleSnap sampleLive))
  = [summaryRequest sampleSnap
       (buildSummaryPrompt prompt sampleRound1 None (Some (utf16 " budget is fixed ")))] /\
  round2AddendumCommitted (page started) = snapshot /\
  requests (snd (handleGenerateSummary sampleLower sampleFetch
                   (draftEdits (fun _ _ => utf16 "changed"))
                   (setRound2AddendumDraft (utf16 "changed") (page started))
                   true sampleLive))
  = [summaryRequest sampleSnap
       (buildSummaryPrompt prompt sampleRound1
          (Some (roundResults sampleParse sampleLower samplePromptTable sampleFetch
                   sampleSnap Round2 prompt snapshot))
          snapshot)].
Proof.
  cbv zeta.
  assert (H1 : round1Completed sampleSnap = true) by (vm_compute; reflexivity).
  assert (Hm : summarizerModel sampleSnap <> []) by (vm_compute; discriminate).
  assert (Hp : Js.trim (finalPrompt sampleSnap) <> []) by (vm_compute; discriminate).
  assert (Hprompt : Js.trim (finalPrompt sampleSnap) = utf16 "How do we ship?")
    by (vm_compute; reflexivity).
  assert (Hsnapshot : normalizeOptionalText (Some (round2AddendumDraft sampleSnap))
                      = Some (utf16 "budget is fixed")) by (vm_compute; reflexivity).
  destruct (addendum_live_on_skip_snapshot_on_round2 sampleParse sampleLower
              samplePromptTable sampleFetch) as [Hskip Htwo].
  destruct (Hskip undisturbed sampleSnap sampleLive H1 Hm Hp) as [Hsent _].
  destruct (Htwo (fun _ _ => utf16 "changed") sampleSnap sampleLive eq_refl H1 Hp)
    as (Hcommitted & _ & _ & _ & _ & Hsummary).
  rewrite Hprompt, Hsnapshot in *.
  split; [exact Hsent|].
  split; [exact Hcommitted|].
  exact (Hsummary (utf16 "changed") sampleLive Hm).
Defined.

(* ===================================================================== *)
(** * 16. The pool and the allow test *)
(* ===================================================================== *)

(** ** The pool *)

Lemma parseModelList_entries_trimmed raw :
  Forall (fun m => Js.trim m = m) (parseModelList raw).
Proof.
  unfold parseModelList. destruct raw as [raw|]; [|constructor].
  destruct (Js.is_empty raw); [constructor|].
  apply List.Forall_forall. intros m Hm. apply filter_In in Hm as [Hm _].
  apply in_map_iff in Hm as (piece & <- & _). apply JsFacts.trim_idem.
Qed.

Lemma BASE_entries_trimmed : Forall (fun m => Js.trim m = m) BASE_AVAILABLE_MODELS.
Proof. repeat constructor. Qed.

Lemma getAvailableModels_entries_trimmed env :
  Forall (fun m => Js.trim m = m) (getAvailableModels env).
Proof.
  unfold getAvailableModels. apply List.Forall_forall. intros m Hm.
  rewrite <- list_elem_of_In, JsFacts.dedupe_In, elem_of_app, !list_elem_of_In in Hm.
  destruct Hm as [Hm | Hm]; revert m Hm; apply List.Forall_forall.
  - destruct (0 <? length _)%nat.
    + apply parseModelList_entries_trimmed.
    + apply BASE_entries_trimmed.
  - apply parseModelList_entries_trimmed.
Qed.

Lemma dedupe_nonempty arr : arr <> [] -> Js.dedupe arr <> [].
Proof. destruct arr as [|x r]; [contradiction|]. intros _. discriminate. Qed.

Lemma getAvailableModels_nonempty env : getAvailableModels env <> [].
Proof.
  unfold getAvailableModels. apply dedupe_nonempty.
  destruct (0 <? length _)%nat eqn:E.
  - destruct (parseModelList _) as [|x r]; [discriminate E | discriminate].
  - discriminate.
Qed.

Lemma listed_model_allowed env m :
  m ∈ getAvailableModels env -> isAllowedModel env m = true.
Proof.
  intros Hm.
  pose proof (getAvailableModels_entries_trimmed env) as Ht.
  pose proof (getAvailableModels_entries_nonempty env) as Hn.
  rewrite List.Forall_forall in Ht, Hn.
  pose proof Hm as Hin. apply list_elem_of_In in Hin.
  unfold isAllowedModel, isAllowedModelIn. rewrite (Ht m Hin).
  destruct (length m =? 0)%nat eqn:E.
  - apply JsFacts.length_zero_empty in E. destruct (Hn m Hin E).
  - apply JsFacts.array_includes_In in Hm. rewrite Hm. reflexivity.
Qed.

(** X1. The pool [getAvailableModels()] returns is never empty, holds no
    model twice, and each of its entries is a non-empty string without
    surrounding white space. *)
Theorem pool_nonempty_distinct_trimmed (env : Env) :
  getAvailableModels env <> [] /\
  NoDup (getAvailableModels env) /\
  forall m, m ∈ getAvailableModels env -> m <> [] /\ Js.trim m = m.
Proof.
  split; [apply getAvailableModels_nonempty|].
  split; [apply getAvailableModels_NoDup|].
  intros m Hm. apply list_elem_of_In in Hm. split.
  - pose proof (getAvailableModels_entries_nonempty env) as H.
    rewrite List.Forall_forall in H. apply H. assumption.
  - pose proof (getAvailableModels_entries_trimmed env) as H.
    rewrite List.Forall_forall in H. apply H. assumption.
Qed.

(** X2. Every model of the pool passes [isAllowedModel], whatever the
    environment: what [/api/llm/models] lists, [/api/llm/test] accepts. *)
Theorem every_pool_model_is_allowed (env : Env) (m : jsstring) :
  m ∈ getAvailableModels env -> isAllowedModel env m = true.
Proof. apply listed_model_allowed. Qed.

Lemma every_pool_model_is_allowed_witness :
  utf16 "deepseek/deepseek-v3.2" ∈ getAvailableModels ∅ /\
  isAllowedModel ∅ (utf16 "deepseek/deepseek-v3.2") = true.
Proof.
  assert (H : utf16 "deepseek/deepseek-v3.2" ∈ getAvailableModels ∅).
  { apply JsFacts.array_includes_In. vm_compute. reflexivity. }
  split; [exact H | exact (every_pool_model_is_allowed ∅ _ H)].
Defined.

(** X3. [isAllowedModel] looks at the trimmed id only: white space around
    an id changes nothing, and an id that is empty or blank is refused in
    every environment. *)
Theorem isAllowedModel_reads_trimmed_id (env : Env) (m : jsstring) :
  isAllowedModel env (Js.trim m) = isAllowedModel env m /\
  (Js.trim m = [] -> isAllowedModel env m = false).
Proof.
  unfold isAllowedModel, isAllowedModelIn. rewrite JsFacts.trim_idem.
  split; [reflexivity|]. intros ->. reflexivity.
Qed.

(* ===================================================================== *)
(** * 17. The calls of [runRole] *)
(* ===================================================================== *)

Lemma resolveModelForRole_returns env r roleModelMap :
  exists model, resolveModelForRole env r roleModelMap = Returns model.
Proof.
  unfold resolveModelForRole, resolveModelForRoleWith.
  fold (isAllowedModel env (DEFAULT_ROLE_MODEL_MAP r)).
  rewrite default_allowed.
  destruct (Js.trim <$> _) as [m|]; [|eexists; reflexivity].
  destruct (Js.truthy m && isAllowedModelIn (getAvailableModels env) m);
    eexists; reflexivity.
Qed.

Lemma resolvedModel_returns env input :
  exists model, resolvedModel env input = Returns model.
Proof.
  unfold resolvedModel.
  destruct (explicitModel input) as [m|]; [destruct (Js.truthy m)|];
    try (eexists; reflexivity); apply resolveModelForRole_returns.
Qed.

Lemma filter_length_NoDup (l : list jsstring) (x : jsstring) :
  NoDup l ->
  length (List.filter (fun m => negb (Js.eqb m x)) l)
  = (length l - (if bool_decide (x ∈ l) then 1 else 0))%nat.
Proof.
  induction 1 as [|a l Ha ND IH]; [reflexivity|]. simpl.
  destruct (Js.eqb a x) eqn:E; simpl.
  - apply JsFacts.eqb_eq in E. subst a.
    rewrite bool_decide_eq_true_2 by left.
    rewrite IH, bool_decide_eq_false_2 by assumption. lia.
  - apply JsFacts.eqb_neq in E. rewrite IH.
    destruct (bool_decide (x ∈ l)) eqn:D.
    + apply bool_decide_eq_true in D.
      rewrite bool_decide_eq_true_2 by (right; assumption).
      destruct l; [inversion D | simpl; lia].
    + apply bool_decide_eq_false in D.
      rewrite bool_decide_eq_false_2; [lia|].
      rewrite elem_of_cons. intros [-> | H]; [congruence | contradiction].
Qed.

(** X4. The fallback candidates never hold the primary model and hold no
    model twice; there is one candidate less than the pool has models when
    the primary model is in the pool, and as many when it is not. *)
Theorem getFallbackModels_size (env : Env) (primaryModel : jsstring) :
  (primaryModel ∉ getFallbackModels env primaryModel) /\
  NoDup (getFallbackModels env primaryModel) /\
  length (getFallbackModels env primaryModel)
  = (length (getAvailableModels env)
     - (if bool_decide (primaryModel ∈ getAvailableModels env) then 1 else 0))%nat.
Proof.
  split; [|split].
  - rewrite getFallbackModels_elem. tauto.
  - apply getFallbackModels_NoDup.
  - apply filter_length_NoDup, getAvailableModels_NoDup.
Qed.

Section TraceFacts.
Variable env : Env.
Variable defaultSystemPrompts : LlmRole -> jsstring.
Variable input : RunRoleInput.t.
Variable provider : ModelProvider.

Local Abbreviation req := (request env defaultSystemPrompts input).
Local Abbreviation loop := (fallbackLoop env defaultSystemPrompts input provider).
Local Abbreviation retries := (retryEvents env defaultSystemPrompts input).

(** Whatever the provider answers, the loop retries a prefix of its
    candidates, and what it returns or throws is the answer to the last
    call, unless the candidates are exhausted. *)
Lemma loop_trace candidates attempted t :
  exists k,
    snd (loop candidates attempted t) = t ++ retries (firstn k candidates) /\
    match fst (loop candidates attempted t) with
    | Returns (Returned response _) =>
      exists m, list.last (firstn k candidates) = Some m /\
                chatCompletion provider (req m) = Returns response
    | Returns (Exhausted attemptedModels) =>
      attemptedModels = attempted ++ candidates
    | Throws e =>
      exists m, list.last (firstn k candidates) = Some m /\
                chatCompletion provider (req m) = Throws e
    end.
Proof.
  revert attempted t. induction candidates as [|m rest IH]; intros attempted t.
  - exists 0%nat. simpl. rewrite !app_nil_r. split; reflexivity.
  - destruct (chatCompletion provider (req m)) as [response | e] eqn:He.
    + exists 1%nat. rewrite (loop_step_returns _ _ _ _ _ _ _ _ _ He).
      simpl. split; [reflexivity|]. exists m. split; [reflexivity | assumption].
    + destruct (is429 e) eqn:H429.
      * rewrite loop_step_429 by (exists e; split; assumption).
        destruct (IH (attempted ++ [m]) (t ++ [Sleep 200; ChatCall (req m)]))
          as (k & Ht & Hf).
        exists (S k). split.
        -- rewrite Ht. simpl. rewrite <- app_assoc. reflexivity.
        -- destruct (fst (loop rest _ _)) as [[response att | att] | e'].
           ++ destruct Hf as (m' & Hl & Hc). exists m'. split; [|assumption].
              simpl firstn. rewrite last_cons, Hl. reflexivity.
           ++ rewrite Hf, <- app_assoc. reflexivity.
           ++ destruct Hf as (m' & Hl & Hc). exists m'. split; [|assumption].
              simpl firstn. rewrite last_cons, Hl. reflexivity.
      * exists 1%nat. rewrite (loop_step_throws _ _ _ _ _ _ _ _ _ He H429).
        simpl. split; [reflexivity|]. exists m. split; [reflexivity | assumption].
Qed.

(** The trace of a run whose provider exists. *)
Lemma runRole_trace :
  exists model k,
    resolvedModel env input = Returns model /\
    snd (runRole env defaultSystemPrompts (Returns provider) input [])
    = ChatCall (req model) :: retries (firstn k (getFallbackModels env model)) /\
    forall response,
      fst (runRole env defaultSystemPrompts (Returns provider) input [])
      = Returns response ->
      exists m,
        list.last (model :: firstn k (getFallbackModels env model)) = Some m /\
        chatCompletion provider (req m) = Returns response.
Proof.
  destruct (resolvedModel_returns env input) as (model & Hmodel).
  exists model.
  destruct (chatCompletion provider (req model)) as [response | error] eqn:He.
  - exists 0%nat. split; [assumption|].
    rewrite (runRole_primary_success env defaultSystemPrompts (Returns provider)
               input provider model Hmodel eq_refl response He).
    split; [reflexivity|]. simpl. intros ? [= <-].
    exists model. split; [reflexivity | assumption].
  - destruct (is429 error && effectiveAllowFallback input) eqn:Hgo.
    + apply andb_true_iff in Hgo as [H429 Hallow].
      destruct error as [e | msg |]; try discriminate H429.
      simpl in H429. apply Z.eqb_eq in H429.
      rewrite (runRole_enters_fallback env defaultSystemPrompts (Returns provider)
                 input provider model Hmodel eq_refl e He H429 Hallow).
      destruct (loop_trace (getFallbackModels env model) [model] [ChatCall (req model)])
        as (k & Ht & Hf).
      exists k. split; [assumption|].
      destruct (loop _ _ _) as [[[response att | att] | err] t]; simpl in *.
      * split; [exact Ht|]. intros ? [= <-].
        destruct Hf as (m & Hl & Hc). exists m. split; [|assumption].
        destruct (firstn k (getFallbackModels env model)); [discriminate Hl|].
        exact Hl.
      * split; [exact Ht|]. discriminate.
      * split; [exact Ht|]. discriminate.
    + exists 0%nat. split; [assumption|].
      rewrite (runRole_primary_failure env defaultSystemPrompts (Returns provider)
                 input provider model Hmodel eq_refl error He).
      * split; [reflexivity|]. discriminate.
      * apply andb_false_iff in Hgo. exact Hgo.
Qed.
End TraceFacts.

(** X5. In every run of [runRole] whose provider exists, the trace is the
    call of the resolved model followed, for each model of a prefix of the
    fallback candidates, by a sleep of 200 ms and the call of that model.
    So no model is called twice, the primary model is called first, and
    there are at most as many calls as the pool has models, plus one. *)
Theorem runRole_calls_each_model_at_most_once
    (env : Env) (defaultSystemPrompts : LlmRole -> jsstring)
    (provider : ModelProvider) (input : RunRoleInput.t) :
  let trace := snd (runRole env defaultSystemPrompts (Returns provider) input []) in
  exists model k,
    resolvedModel env input = Returns model /\
    trace = ChatCall (request env defaultSystemPrompts input model)
              :: retryEvents env defaultSystemPrompts input
                   (firstn k (getFallbackModels env model)) /\
    calledModels trace = model :: firstn k (getFallbackModels env model) /\
    NoDup (calledModels trace) /\
    (length (calledModels trace) <= 1 + length (getAvailableModels env))%nat.
Proof.
  cbv zeta.
  destruct (runRole_trace env defaultSystemPrompts input provider)
    as (model & k & Hmodel & Ht & _).
  exists model, k. split; [assumption|]. split; [assumption|].
  assert (Hc : calledModels
                 (snd (runRole env defaultSystemPrompts (Returns provider) input []))
               = model :: firstn k (getFallbackModels env model)).
  { rewrite Ht.
    change (calledModels (ChatCall ?p :: ?t)) with (cp_model p :: calledModels t).
    rewrite calledModels_retryEvents. reflexivity. }
  split; [exact Hc|]. rewrite Hc. split.
  - apply list.NoDup_cons. split.
    + intros Hin. apply elem_of_take in Hin as (i & Hi & _).
      apply list_elem_of_lookup_2 in Hi.
      apply getFallbackModels_elem in Hi as [_ Hne]. congruence.
    + pose proof (getFallbackModels_NoDup env model) as ND.
      rewrite <- (take_drop k (getFallbackModels env model)) in ND.
      apply list.NoDup_app in ND as (ND & _). exact ND.
  - simpl. rewrite length_firstn.
    assert (length (getFallbackModels env model) <= length (getAvailableModels env))%nat.
    { unfold getFallbackModels. apply filter_length_le. }
    lia.
Qed.

(** X6. When [runRole] returns a response, that response is the answer of
    the provider to the last call of the run: a response is never taken
    from an earlier call, and no call follows the successful one. *)
Theorem runRole_returns_answer_of_last_call
    (env : Env) (defaultSystemPrompts : LlmRole -> jsstring)
    (provider : ModelProvider) (input : RunRoleInput.t) (response : ModelResponse) :
  fst (runRole env defaultSystemPrompts (Returns provider) input []) = Returns response ->
  exists earlier params,
    snd (runRole env defaultSystemPrompts (Returns provider) input [])
    = earlier ++ [ChatCall params] /\
    chatCompletion provider params = Returns response.
Proof.
  intros Hret.
  destruct (runRole_trace env defaultSystemPrompts input provider)
    as (model & k & Hmodel & Ht & Hf).
  destruct (Hf response Hret) as (m & Hl & Hc).
  rewrite Ht.
  destruct (firstn k (getFallbackModels env model)) as [|f l] using rev_ind.
  - simpl in Hl. injection Hl as <-.
    exists [], (request env defaultSystemPrompts input model).
    split; [reflexivity | assumption].
  - rewrite last_cons, last_snoc in Hl. injection Hl as <-.
    exists (ChatCall (request env defaultSystemPrompts input model)
              :: retryEvents env defaultSystemPrompts input l ++ [Sleep 200]),
           (request env defaultSystemPrompts input f).
    split; [|assumption].
    rewrite retryEvents_app. simpl. rewrite <- !app_assoc. reflexivity.
Qed.

Lemma runRole_returns_answer_of_last_call_witness :
  exists earlier params,
    snd (runRole sampleEnv samplePrompts (Returns providerMN) sampleInput [])
    = earlier ++ [ChatCall params] /\
    chatCompletion providerMN params = Returns (responseFrom modelN).
Proof.
  apply (runRole_returns_answer_of_last_call sampleEnv samplePrompts providerMN
           sampleInput (responseFrom modelN)).
  vm_compute. reflexivity.
Defined.

Lemma runRole_without_provider env defaultSystemPrompts input t trace :
  runRole env defaultSystemPrompts (Throws t) input trace = (Throws t, trace).
Proof.
  destruct (resolvedModel_returns env input) as (model & Hmodel).
  unfold runRole, mbind, Run_bind, lift. rewrite Hmodel. reflexivity.
Qed.

(** X7. When the provider cannot be constructed (its constructor throws,
    as it does without an API key), [runRole] throws that exception and
    makes no call and no pause, for every input. *)
Theorem runRole_without_provider_makes_no_call
    (env : Env) (defaultSystemPrompts : LlmRole -> jsstring)
    (input : RunRoleInput.t) (t : Thrown) (trace : list Event) :
  runRole env defaultSystemPrompts (Throws t) input trace = (Throws t, trace).
Proof. apply runRole_without_provider. Qed.

(* ===================================================================== *)
(** * 18. Messages and numerals *)
(* ===================================================================== *)

(** X8. Whatever the model, the messages built for it end with a [user]
    message whose content ends with the user prompt, and the system prompt
    occurs in one of them; a model that does not support system prompts is
    sent no [system] message. *)
Theorem buildMessagesForModel_carries_both_prompts
    (model systemPrompt userPrompt : jsstring) :
  let messages := buildMessagesForModel model systemPrompt userPrompt in
  (exists earlier lastMessage before,
     messages = earlier ++ [lastMessage] /\
     msg_role lastMessage = user /\
     msg_content lastMessage = before ++ userPrompt) /\
  (exists m, m ∈ messages /\ occursIn systemPrompt (msg_content m)) /\
  (supportsSystemPrompt model = false ->
   forall m, m ∈ messages -> msg_role m <> system).
Proof.
  cbv zeta. unfold buildMessagesForModel.
  destruct (supportsSystemPrompt model); repeat split.
  - eexists [_], _, []. repeat split.
  - eexists. split; [left|]. exists [], []. simpl. rewrite app_nil_r. reflexivity.
  - discriminate.
  - eexists [], _,
      (utf16 "System instruction:" ++ Js.nl ++ systemPrompt ++ Js.nl ++ Js.nl
         ++ utf16 "User prompt:" ++ Js.nl).
    split; [reflexivity|]. split; [reflexivity|].
    cbn [msg_content]. rewrite <- !app_assoc. reflexivity.
  - eexists. split; [left|]. cbn [msg_content].
    exists (utf16 "System instruction:" ++ Js.nl),
           (Js.nl ++ Js.nl ++ utf16 "User prompt:" ++ Js.nl ++ userPrompt).
    rewrite <- !app_assoc. reflexivity.
  - intros _ m Hm. apply list_elem_of_singleton in Hm. subst m. discriminate.
Qed.

(** ** Decimal numerals *)

Lemma decimalValue_fold ds : decimalValue ds = fold_left step10 ds 0.
Proof. reflexivity. Qed.

Lemma digit_isDigit d : 0 <= d < 10 -> isDigit (Js.digit d) = true.
Proof.
  intros H. assert (E : d = 0 \/ d = 1 \/ d = 2 \/ d = 3 \/ d = 4 \/ d = 5
                        \/ d = 6 \/ d = 7 \/ d = 8 \/ d = 9) by lia.
  repeat (destruct E as [-> | E]; [reflexivity|]). subst. reflexivity.
Qed.

Lemma digit_value d : 0 <= d < 10 -> Z.of_N (Js.digit d) - 48 = d.
Proof. intros H. unfold Js.digit. rewrite Z2N.id by lia. lia. Qed.

Lemma digits_fuel_spec f : forall n acc,
  0 <= n < 10 ^ Z.of_nat (S f) ->
  exists ds,
    Js.digits_fuel (S f) n acc = ds ++ acc /\ (ds <> []) /\
    forallb isDigit ds = true /\ fold_left step10 ds 0 = n.
Proof.
  induction f as [|f IH]; intros n acc Hn.
  - change (10 ^ Z.of_nat 1) with 10 in Hn.
    exists [Js.digit (n mod 10)]. simpl.
    assert (Hlt : (n <? 10) = true) by (apply Z.ltb_lt; lia).
    rewrite Hlt. rewrite Z.mod_small by lia.
    repeat split; [discriminate | rewrite digit_isDigit by lia; reflexivity |].
    unfold step10. rewrite digit_value by lia. lia.
  - change (Js.digits_fuel (S (S f)) n acc)
      with (if n <? 10 then Js.digit (n mod 10) :: acc
            else Js.digits_fuel (S f) (n / 10) (Js.digit (n mod 10) :: acc)).
    assert (Hm : 0 <= n mod 10 < 10) by (apply Z.mod_pos_bound; lia).
    destruct (n <? 10) eqn:Hlt.
    + apply Z.ltb_lt in Hlt. rewrite Z.mod_small by lia.
      exists [Js.digit n]. simpl.
      repeat split; [discriminate | rewrite digit_isDigit by lia; reflexivity |].
      unfold step10. rewrite digit_value by lia. lia.
    + apply Z.ltb_ge in Hlt.
      assert (Hq : 0 <= n / 10 < 10 ^ Z.of_nat (S f)).
      { split; [apply Z.div_pos; lia|].
        apply Z.div_lt_upper_bound; [lia|].
        replace (Z.of_nat (S (S f))) with (Z.succ (Z.of_nat (S f))) in Hn by lia.
        rewrite Z.pow_succ_r in Hn by lia. lia. }
      destruct (IH (n / 10) (Js.digit (n mod 10) :: acc) Hq) as (ds & E & Hne & Hd & Hv).
      exists (ds ++ [Js.digit (n mod 10)]). rewrite E, <- app_assoc.
      repeat split.
      * destruct ds; discriminate.
      * rewrite forallb_app, Hd. simpl. rewrite digit_isDigit by lia. reflexivity.
      * rewrite fold_left_app, Hv. simpl. unfold step10 at 1.
        rewrite digit_value by lia. pose proof (Z.div_mod n 10). lia.
Qed.

Lemma of_int_spec n :
  0 < n ->
  (Js.of_int n <> []) /\ forallb isDigit (Js.of_int n) = true /\
  decimalValue (Js.of_int n) = n.
Proof.
  intros Hn. unfold Js.of_int.
  assert (Hneg : (n <? 0) = false) by (apply Z.ltb_ge; lia). rewrite Hneg.
  destruct (digits_fuel_spec (Z.to_nat (Z.log2 n)) n []) as (ds & E & Hne & Hd & Hv).
  - split; [lia|].
    rewrite Nat2Z.inj_succ, Z2Nat.id by apply Z.log2_nonneg.
    destruct (Z.log2_spec n Hn) as [_ Hlt].
    eapply Z.lt_le_trans; [exact Hlt|].
    apply Z.pow_le_mono_l. pose proof (Z.log2_nonneg n). lia.
  - rewrite E, app_nil_r. repeat split; assumption.
Qed.

Lemma isDigit_not_whitespace c : isDigit c = true -> Js.isWhiteSpace c = false.
Proof.
  unfold isDigit. rewrite andb_true_iff, !N.leb_le. intros [H1 H2].
  assert (E : (c = 48 \/ c = 49 \/ c = 50 \/ c = 51 \/ c = 52 \/ c = 53
               \/ c = 54 \/ c = 55 \/ c = 56 \/ c = 57)%N) by lia.
  repeat (destruct E as [-> | E]; [reflexivity|]). subst. reflexivity.
Qed.

Lemma isDigit_not_sign c : isDigit c = true -> (c =? 45)%N = false /\ (c =? 43)%N = false.
Proof.
  unfold isDigit. rewrite andb_true_iff, !N.leb_le. intros [H1 H2].
  split; apply N.eqb_neq; lia.
Qed.

Lemma trimStart_digits ds : forallb isDigit ds = true -> Js.trimStart ds = ds.
Proof.
  destruct ds as [|c r]; [reflexivity|]. simpl. intros H.
  apply andb_true_iff in H as [Hc _].
  rewrite (isDigit_not_whitespace c Hc). reflexivity.
Qed.

Lemma trim_digits ds : forallb isDigit ds = true -> Js.trim ds = ds.
Proof.
  intros H. unfold Js.trim, Js.trimEnd. rewrite (trimStart_digits ds H).
  rewrite trimStart_digits, rev_involutive; [reflexivity|].
  rewrite forallb_forall in *. intros x Hx. apply H, in_rev. assumption.
Qed.

Lemma leadingDigits_digits ds : forallb isDigit ds = true -> leadingDigits ds = ds.
Proof.
  induction ds as [|c r IH]; [reflexivity|]. simpl. intros H.
  apply andb_true_iff in H as [Hc Hr]. rewrite Hc, IH by assumption. reflexivity.
Qed.

Lemma roundToDouble_exact m : 0 < m < 2 ^ 53 -> roundToDouble m = Some m.
Proof.
  intros [H0 H]. unfold roundToDouble. cbv zeta.
  assert (Hb : (Z.log2 m + 1 <=? 53) = true).
  { apply Z.leb_le. apply Z.log2_lt_pow2 in H; lia. }
  rewrite Hb. reflexivity.
Qed.

Lemma Number_parseInt10_digits ds :
  ds <> [] -> forallb isDigit ds = true ->
  Number_parseInt10 ds
  = match roundToDouble (decimalValue ds) with
    | None => ParsedInfinity false
    | Some v => ParsedInteger v
    end.
Proof.
  intros Hne Hd. unfold Number_parseInt10. rewrite (trimStart_digits ds Hd).
  destruct ds as [|c r]; [contradiction|].
  pose proof Hd as Hc. simpl in Hc. apply andb_true_iff in Hc as [Hc _].
  destruct (isDigit_not_sign c Hc) as [-> ->].
  rewrite (leadingDigits_digits _ Hd). reflexivity.
Qed.

(** X9. The decimal numeral of a positive integer below 2^53 is read back
    by [parsePositiveInt] as that integer. *)
Theorem parsePositiveInt_reads_decimal_numerals (n : Z) :
  0 < n < 2 ^ 53 -> parsePositiveInt (Some (Js.of_int n)) = Some n.
Proof.
  intros Hn. destruct (of_int_spec n) as (Hne & Hd & Hv); [lia|].
  unfold parsePositiveInt. rewrite (JsFacts.is_empty_true' _ Hne).
  rewrite (trim_digits _ Hd), (Number_parseInt10_digits _ Hne Hd), Hv.
  rewrite (roundToDouble_exact n Hn).
  assert (E : (n <=? 0) = false) by (apply Z.leb_gt; lia). rewrite E. reflexivity.
Qed.

Lemma parsePositiveInt_reads_decimal_numerals_witness :
  parsePositiveInt (Some (Js.of_int 4096)) = Some 4096.
Proof. apply (parsePositiveInt_reads_decimal_numerals 4096). lia. Defined.

Lemma decimalValue_nonneg_from ds acc :
  0 <= acc -> forallb isDigit ds = true -> 0 <= fold_left step10 ds acc.
Proof.
  revert acc. induction ds as [|c r IH]; intros acc Ha Hd; [assumption|].
  simpl in *. apply andb_true_iff in Hd as [Hc Hr]. apply IH; [|assumption].
  unfold isDigit in Hc. rewrite andb_true_iff, !N.leb_le in Hc.
  unfold step10. lia.
Qed.

Lemma leadingDigits_all_digits s : forallb isDigit (leadingDigits s) = true.
Proof.
  induction s as [|c r IH]; [reflexivity|]. simpl.
  destruct (isDigit c) eqn:E; [simpl; rewrite E, IH|]; reflexivity.
Qed.

Lemma roundToDouble_nonneg m v : 0 <= m -> roundToDouble m = Some v -> 0 <= v.
Proof.
  intros Hm. unfold roundToDouble. cbv zeta.
  destruct (Z.log2 m + 1 <=? 53) eqn:Hb; [intros [= <-]; assumption|].
  destruct (Z.shiftl 1 1024 <=? _); [discriminate|]. intros [= <-].
  apply Z.shiftl_nonneg.
  assert (0 <= Z.shiftr m (Z.log2 m + 1 - 53)) by (apply Z.shiftr_nonneg; assumption).
  destruct (_ || _); lia.
Qed.

(** X10. [parsePositiveInt] gives [undefined] for every text that, once
    trimmed, does not begin with a digit or a plus sign: a blank text, a
    word, and every numeral with a minus sign. *)
Theorem parsePositiveInt_needs_a_leading_digit (raw : jsstring) :
  (forall c r, Js.trim raw = c :: r -> isDigit c = false /\ c <> 43%N) ->
  parsePositiveInt (Some raw) = None.
Proof.
  intros H. unfold parsePositiveInt.
  destruct (Js.is_empty raw); [reflexivity|].
  destruct (Js.trim raw) as [|c r] eqn:E; [reflexivity|].
  destruct (H c r eq_refl) as [Hd Hplus].
  unfold Number_parseInt10.
  rewrite (JsFacts.trimStart_fixed c r (JsFacts.trim_head raw c r E)).
  apply N.eqb_neq in Hplus. rewrite Hplus.
  destruct (c =? 45)%N.
  - pose proof (leadingDigits_all_digits r) as Hall.
    destruct (Js.is_empty (leadingDigits r)); [reflexivity|].
    destruct (roundToDouble (decimalValue (leadingDigits r))) as [v|] eqn:Hr;
      [|reflexivity].
    apply roundToDouble_nonneg in Hr;
      [|rewrite decimalValue_fold; apply decimalValue_nonneg_from; [lia | assumption]].
    assert (Hle : (- v <=? 0) = true) by (apply Z.leb_le; lia).
    rewrite Hle. reflexivity.
  - simpl leadingDigits. rewrite Hd. reflexivity.
Qed.

Lemma parsePositiveInt_needs_a_leading_digit_witness :
  parsePositiveInt (Some (utf16 " -900 ")) = None.
Proof.
  apply (parsePositiveInt_needs_a_leading_digit (utf16 " -900 ")).
  intros c r E. vm_compute in E. injection E as <- <-.
  split; [reflexivity | discriminate].
Defined.

(* ===================================================================== *)
(** * 19. The provider: key and content *)
(* ===================================================================== *)

(** ** More on [trim] *)

Lemma trimStart_length s : (length (Js.trimStart s) <= length s)%nat.
Proof.
  induction s as [|c r IH]; simpl; [lia|].
  destruct (Js.isWhiteSpace c); simpl; lia.
Qed.

Lemma trimStart_fixed_head c r :
  Js.trimStart (c :: r) = c :: r -> Js.isWhiteSpace c = false.
Proof.
  simpl. destruct (Js.isWhiteSpace c); [|reflexivity].
  intros E. pose proof (trimStart_length r) as H. rewrite E in H. simpl in H. lia.
Qed.

Lemma trimStart_trim s : Js.trimStart (Js.trim s) = Js.trim s.
Proof.
  destruct (Js.trim s) as [|c r] eqn:E; [reflexivity|].
  apply JsFacts.trimStart_fixed. eapply JsFacts.trim_head; eassumption.
Qed.

Lemma trimEnd_trim s : Js.trimEnd (Js.trim s) = Js.trim s.
Proof. unfold Js.trim. apply JsFacts.trimEnd_idem. Qed.

Lemma trim_of_fixed s : Js.trimStart s = s -> Js.trimEnd s = s -> Js.trim s = s.
Proof. intros H1 H2. unfold Js.trim. rewrite H1. exact H2. Qed.

Lemma trimEnd_fixed_iff s : Js.trimEnd s = s <-> Js.trimStart (rev s) = rev s.
Proof.
  unfold Js.trimEnd. split; intros H.
  - rewrite <- H at 2. rewrite rev_involutive. reflexivity.
  - rewrite H. apply rev_involutive.
Qed.

Lemma trimEnd_suffix a b :
  Js.trimEnd (a ++ b) = a ++ b -> b <> [] -> Js.trimEnd b = b.
Proof.
  rewrite !trimEnd_fixed_iff, rev_app_distr. intros H Hb.
  destruct (rev b) as [|c r] eqn:E.
  - apply (f_equal (@rev _)) in E. rewrite rev_involutive in E. contradiction.
  - apply JsFacts.trimStart_fixed. simpl app in H.
    eapply trimStart_fixed_head. exact H.
Qed.

Lemma trimEnd_extend a b :
  Js.trimEnd b = b -> b <> [] -> Js.trimEnd (a ++ b) = a ++ b.
Proof.
  rewrite !trimEnd_fixed_iff, rev_app_distr. intros H Hb.
  destruct (rev b) as [|c r] eqn:E.
  - apply (f_equal (@rev _)) in E. rewrite rev_involutive in E. contradiction.
  - simpl app. apply JsFacts.trimStart_fixed.
    eapply trimStart_fixed_head. exact H.
Qed.

Lemma trimStart_keeps_end b :
  Js.trimEnd b = b -> b <> [] ->
  Js.trimStart b <> [] /\ Js.trimEnd (Js.trimStart b) = Js.trimStart b.
Proof.
  intros H Hb. destruct (JsFacts.trimStart_split b) as (ws & E & W).
  assert (Hne : Js.trimStart b <> []).
  { intros Hnil. rewrite Hnil, app_nil_r in E. subst ws.
    apply trimEnd_fixed_iff in H.
    destruct (rev b) as [|c r] eqn:Er.
    - apply (f_equal (@rev _)) in Er. rewrite rev_involutive in Er. contradiction.
    - apply trimStart_fixed_head in H.
      rewrite forallb_forall in W.
      rewrite W in H; [discriminate|].
      apply in_rev. rewrite Er. left. reflexivity. }
  split; [assumption|].
  apply (trimEnd_suffix ws); [|assumption]. rewrite <- E. assumption.
Qed.

(** ** The provider *)

Lemma startsWith_cons s prefix c r :
  prefix = c :: r -> Js.startsWith s prefix = true ->
  exists s', s = c :: s' /\ Js.startsWith s' r = true.
Proof.
  intros -> H. destruct s as [|a s']; simpl in H; [discriminate|].
  apply andb_true_iff in H as [Hc Hs]. apply JsFacts.eqb_cu_eq in Hc. subst a.
  exists s'. split; [reflexivity | assumption].
Qed.

Lemma normalizeApiKey_clean value :
  Js.trim value <> [] ->
  let key := OpenRouter.normalizeApiKey (Js.trim value) in
  key <> [] /\ Js.trim key = key /\ Js.startsWith key (utf16 "Sk-or-v1-") = false.
Proof.
  intros Hne. cbv zeta. unfold OpenRouter.normalizeApiKey. rewrite JsFacts.trim_idem.
  set (v := Js.trim value) in *.
  assert (Hs : Js.trimStart v = v) by apply trimStart_trim.
  assert (He : Js.trimEnd v = v) by apply trimEnd_trim.
  assert (H1 : exists key1,
             match OpenRouter.afterBearer v with Some rest => rest | None => v end = key1 /\
             key1 <> [] /\ Js.trimStart key1 = key1 /\ Js.trimEnd key1 = key1).
  { unfold OpenRouter.afterBearer.
    destruct (Js.eqb _ _ && _) eqn:Hb.
    - apply andb_true_iff in Hb as [_ Hw].
      destruct (skipn 6 v) as [|c r] eqn:Er; [discriminate|].
      assert (Hrest : Js.trimEnd (c :: r) = c :: r).
      { apply (trimEnd_suffix (firstn 6 v)); [|discriminate].
        rewrite <- Er, firstn_skipn. assumption. }
      destruct (trimStart_keeps_end (c :: r) Hrest) as [Hn Ht]; [discriminate|].
      eexists. split; [reflexivity|]. split; [assumption|].
      split; [apply JsFacts.trimStart_idem | assumption].
    - exists v. repeat split; assumption. }
  destruct H1 as (key1 & -> & Hn1 & Hs1 & He1).
  destruct (Js.startsWith key1 (utf16 "Sk-or-v1-")) eqn:Hsk.
  - destruct (startsWith_cons key1 _ _ _ eq_refl Hsk) as (r & -> & Hr).
    destruct (startsWith_cons r _ _ _ eq_refl Hr) as (r' & -> & _).
    change (utf16 "s" ++ skipn 1 (83%N :: 107%N :: r')) with (115%N :: 107%N :: r').
    split; [discriminate|]. split; [|reflexivity].
    apply trim_of_fixed; [reflexivity|].
    apply (trimEnd_extend [115%N]); [|discriminate].
    apply (trimEnd_suffix [83%N]); [assumption | discriminate].
  - split; [assumption|]. split; [|assumption].
    apply trim_of_fixed; assumption.
Qed.

(** X11. The provider that [new OpenRouterProvider()] constructs has a
    clean key: it is not empty, has no white space around it, is no URL
    (does not start with "http") and does not start with the mistyped
    "Sk-or-v1-"; and its base URL is not empty. *)
Theorem constructed_provider_has_clean_key (env : Env) (config : OpenRouter.Config) :
  OpenRouter.newOpenRouterProvider env = Returns config ->
  OpenRouter.apiKey config <> [] /\
  Js.trim (OpenRouter.apiKey config) = OpenRouter.apiKey config /\
  Js.startsWith (OpenRouter.apiKey config) (utf16 "http") = false /\
  Js.startsWith (OpenRouter.apiKey config) (utf16 "Sk-or-v1-") = false /\
  OpenRouter.baseUrl config <> [].
Proof.
  unfold OpenRouter.newOpenRouterProvider, OpenRouter.mustGetEnv.
  destruct (env !! utf16 "OPENROUTER_API_KEY") as [value|]; [|discriminate].
  destruct (Js.is_empty value || (length (Js.trim value) =? 0)%nat) eqn:Hblank;
    [discriminate|].
  apply orb_false_iff in Hblank as [_ Hlen].
  assert (Hne : Js.trim value <> []).
  { intros E. rewrite E in Hlen. discriminate. }
  destruct (normalizeApiKey_clean value Hne) as (Hk & Ht & Hsk).
  cbv zeta.
  destruct (Js.startsWith (OpenRouter.normalizeApiKey (Js.trim value)) (utf16 "http"))
    eqn:Hhttp; [discriminate|].
  intros [= <-]. cbn [OpenRouter.apiKey OpenRouter.baseUrl].
  repeat split; try assumption.
  destruct (Js.trim <$> env !! utf16 "OPENROUTER_BASE_URL") as [url|]; [|discriminate].
  destruct (Js.truthy url) eqn:Hu; [|discriminate].
  apply JsFacts.truthy_true. assumption.
Qed.

Lemma constructed_provider_has_clean_key_witness :
  exists config,
    OpenRouter.newOpenRouterProvider
      {[ utf16 "OPENROUTER_API_KEY" := utf16 " bearer  Sk-or-v1-abc " ]} = Returns config /\
    OpenRouter.apiKey config = utf16 "sk-or-v1-abc" /\
    Js.trim (OpenRouter.apiKey config) = OpenRouter.apiKey config.
Proof.
  eexists. split; [vm_compute; reflexivity|]. split; [reflexivity|].
  apply (constructed_provider_has_clean_key
           {[ utf16 "OPENROUTER_API_KEY" := utf16 " bearer  Sk-or-v1-abc " ]}).
  vm_compute. reflexivity.
Defined.



(* ===================================================================== *)
(** * 20. The routes *)
(* ===================================================================== *)

Lemma resolveModelForRole_without_map env r :
  resolveModelForRole env r None = Returns (DEFAULT_ROLE_MODEL_MAP r).
Proof.
  unfold resolveModelForRole, resolveModelForRoleWith.
  fold (isAllowedModel env (DEFAULT_ROLE_MODEL_MAP r)).
  rewrite default_allowed. reflexivity.
Qed.

Lemma resolveModelForRole_allowed env r roleModelMap model :
  resolveModelForRole env r roleModelMap = Returns model ->
  isAllowedModel env model = true.
Proof.
  unfold resolveModelForRole, resolveModelForRoleWith.
  fold (isAllowedModel env (DEFAULT_ROLE_MODEL_MAP r)).
  rewrite default_allowed.
  destruct (Js.trim <$> _) as [m|].
  - destruct (Js.truthy m && isAllowedModelIn (getAvailableModels env) m) eqn:E.
    + intros [= <-]. apply andb_true_iff in E as [_ E]. exact E.
    + intros [= <-]. apply default_allowed.
  - intros [= <-]. apply default_allowed.
Qed.

(** X13. [GET /api/llm/models] always answers, and the effective model it
    reports for a role is the static default of that role in every
    environment: the pool configured by [OPENROUTER_MODELS] does not change
    it, even when the pool does not hold that default. *)
Theorem models_route_reports_static_defaults (env : Env) :
  exists data,
    ModelsRoute.GET env = Returns data /\
    ModelsRoute.roles data = LLM_ROLES /\
    ModelsRoute.availableModels data = getAvailableModels env /\
    forall r,
      ModelsRoute.effectiveRoleModels data !! r = Some (DEFAULT_ROLE_MODEL_MAP r) /\
      ModelsRoute.defaultRoleModels data r = DEFAULT_ROLE_MODEL_MAP r.
Proof.
  unfold ModelsRoute.GET, LLM_ROLES. cbn [ModelsRoute.roleEntries].
  rewrite !resolveModelForRole_without_map.
  eexists. split; [reflexivity|]. cbn [ModelsRoute.roles ModelsRoute.availableModels
    ModelsRoute.effectiveRoleModels ModelsRoute.defaultRoleModels].
  split; [reflexivity|]. split; [reflexivity|].
  intros r. split; [|reflexivity].
  unfold ModelsRoute.fromEntries. cbn [fold_left fst snd].
  destruct r; reflexivity.
Qed.

Section RouteFacts.
Variable env : Env.
Variable defaultSystemPrompts : LlmRole -> jsstring.
Variable getProvider : Completion ModelProvider.

Local Abbreviation respond := (TestRoute.respond env defaultSystemPrompts getProvider).
Local Abbreviation POST := (TestRoute.POST env defaultSystemPrompts getProvider).

(** The handler either refuses with status 400 before anything is called,
    or calls [runRole] with an explicit model that is allowed when it is
    not blank. *)
Lemma respond_cases body t :
  (exists r, respond body t = (Returns r, t) /\ TestRoute.statusCode r = 400) \/
  (exists validRole p,
     let model := Js.trim <$> TestRoute.model body in
     (Js.truthy_opt model = true -> isAllowedModel env (default [] model) = true) /\
     (TestRoute.roleModelMap body ≫=
        List.find (fun entry => negb (isAllowedModel env entry.2)) = None) /\
     respond body t
     = match runRole env defaultSystemPrompts getProvider
               (TestRoute.runRoleInput body validRole model p) t with
       | (Returns result, t') =>
         (Returns {| TestRoute.statusCode := 200;
                     TestRoute.payload :=
                       TestSuccessResponse validRole (mr_model result) (mr_content result) |},
          t')
       | (Throws e, t') => (Throws e, t')
       end).
Proof.
  unfold TestRoute.respond.
  destruct (TestRoute.isValidRole _) as [validRole|];
    [|left; eexists; split; reflexivity].
  destruct (negb (Js.truthy_opt (Js.trim <$> TestRoute.prompt body)));
    [left; eexists; split; reflexivity|].
  destruct (Js.truthy_opt (Js.trim <$> TestRoute.model body)
            && negb (isAllowedModel env (default [] (Js.trim <$> TestRoute.model body))))
    eqn:Hm; [left; eexists; split; reflexivity|].
  destruct (TestRoute.roleModelMap body ≫= _) as [entry|] eqn:He;
    [left; eexists; split; reflexivity|].
  right. exists validRole, (default [] (Js.trim <$> TestRoute.prompt body)).
  cbv zeta. split; [|split; [reflexivity|]].
  - intros Ht. rewrite Ht in Hm. simpl in Hm. apply negb_false_iff in Hm. exact Hm.
  - unfold mbind, Run_bind, mret, Run_ret.
    destruct (runRole _ _ _ _ _) as [[result | e] t']; reflexivity.
Qed.
End RouteFacts.



(** X15. Every model the provider is called with on behalf of a request to
    [POST /api/llm/test] passes [isAllowedModel]: the explicit model is
    checked by the handler, a resolved model is allowed, and the fallback
    candidates are models of the pool. *)
Theorem route_calls_only_allowed_models
    (env : Env) (defaultSystemPrompts : LlmRole -> jsstring)
    (getProvider : Completion ModelProvider)
    (request : Completion TestRoute.TestRequestBody) (m : jsstring) :
  m ∈ calledModels (TestRoute.POST env defaultSystemPrompts getProvider request []).2 ->
  isAllowedModel env m = true.
Proof.
  unfold TestRoute.POST, mbind, Run_bind, lift.
  destruct request as [body | e]; [|simpl; intros H; inversion H].
  destruct (respond_cases env defaultSystemPrompts getProvider body [])
    as [(r & -> & _) | (validRole & p & Hmodel & _ & ->)];
    [simpl; intros H; inversion H|].
  cbv zeta in Hmodel.
  set (input := TestRoute.runRoleInput body validRole (Js.trim <$> TestRoute.model body) p).
  assert (Htrace :
            m ∈ calledModels (runRole env defaultSystemPrompts getProvider input []).2 ->
            isAllowedModel env m = true).
  { destruct getProvider as [provider | t].
    - destruct (runRole_trace env defaultSystemPrompts input provider)
        as (model & k & Hres & Ht & _).
      rewrite Ht.
      change (calledModels (ChatCall ?q :: ?t)) with (cp_model q :: calledModels t).
      rewrite calledModels_retryEvents. cbn [cp_model request].
      intros Hin. apply elem_of_cons in Hin as [-> | Hin].
      + unfold resolvedModel in Hres.
        assert (Hex : explicitModel input = Js.trim <$> TestRoute.model body).
        { unfold explicitModel, input. cbn [TestRoute.runRoleInput RunRoleInput.model].
          destruct (TestRoute.model body) as [x|]; [|reflexivity].
          simpl. rewrite JsFacts.trim_idem. reflexivity. }
        rewrite Hex in Hres.
        destruct (Js.trim <$> TestRoute.model body) as [x|] eqn:Ex.
        * destruct (Js.truthy x) eqn:Hx.
          -- injection Hres as <-. apply Hmodel. exact Hx.
          -- eapply resolveModelForRole_allowed. exact Hres.
        * eapply resolveModelForRole_allowed. exact Hres.
      + apply elem_of_take in Hin as (i & Hi & _).
        apply list_elem_of_lookup_2 in Hi.
        apply getFallbackModels_elem in Hi as [Hi _].
        apply listed_model_allowed. exact Hi.
    - rewrite runRole_without_provider. intros H. inversion H. }
  destruct (runRole env defaultSystemPrompts getProvider input []) as [[result | e] t'];
    exact Htrace.
Qed.

Lemma route_calls_only_allowed_models_witness :
  let body :=
    {| TestRoute.role := None; TestRoute.model := None;
       TestRoute.roleModelMap := None; TestRoute.allowFallback := None;
       TestRoute.prompt := Some (utf16 "hello"); TestRoute.systemPrompt := None;
       TestRoute.temperature := None |} in
  DEFAULT_ROLE_MODEL_MAP refiner
    ∈ calledModels (TestRoute.POST sampleEnv samplePrompts (Returns providerMN)
                      (Returns body) []).2 /\
  isAllowedModel sampleEnv (DEFAULT_ROLE_MODEL_MAP refiner) = true.
Proof.
  cbv zeta.
  assert (H : DEFAULT_ROLE_MODEL_MAP refiner
                ∈ calledModels
                    (TestRoute.POST sampleEnv samplePrompts (Returns providerMN)
                       (Returns
                          {| TestRoute.role := None; TestRoute.model := None;
                             TestRoute.roleModelMap := None;
                             TestRoute.allowFallback := None;
                             TestRoute.prompt := Some (utf16 "hello");
                             TestRoute.systemPrompt := None;
                             TestRoute.temperature := None |}) []).2).
  { apply JsFacts.array_includes_In. vm_compute. reflexivity. }
  split; [exact H|].
  exact (route_calls_only_allowed_models sampleEnv samplePrompts (Returns providerMN)
           _ _ H).
Defined.



(** On an input whose explicit model is allowed when it is not blank,
    [runRole] resolves the model as the stated precedence does. *)
Lemma resolvedModel_as_specified env input :
  (forall m, explicitModel input = Some m -> m <> [] -> isAllowedModel env m = true) ->
  resolvedModel env input = specifiedResolution env input.
Proof.
  intros H. unfold resolvedModel, specifiedResolution.
  destruct (explicitModel input) as [m|]; [|reflexivity].
  destruct (Js.truthy m) eqn:Ht; [|reflexivity].
  rewrite (H m eq_refl) by (apply JsFacts.truthy_true; assumption). reflexivity.
Qed.

(** C6. [runRole] is called by the handler of [POST /api/llm/test] only.
    For every request body, the handler either answers 400 without calling
    anything, or calls [runRole] with an input whose explicit model, when
    it is present and not blank, is allowed; and on every such input the
    model [runRole] resolves is the one of the stated precedence: the
    explicit model if present (not blank) and allowed, else what
    [resolveModelForRole] gives. That one, for any pool and any table of
    defaults, gives the trimmed entry of the role map when it is present,
    not blank and allowed; else the static default when it is allowed; else
    the first entry of the pool; and on a pool without empty strings it
    throws only when the pool is empty and the default is not allowed, the
    error being the no-available-models one. *)
Theorem model_resolution_follows_the_precedence :
  (forall (env : Env) (defaultSystemPrompts : LlmRole -> jsstring)
          (getProvider : Completion ModelProvider)
          (body : TestRoute.TestRequestBody) (trace : list Event),
      (exists reply,
          TestRoute.respond env defaultSystemPrompts getProvider body trace
          = (Returns reply, trace) /\
          TestRoute.statusCode reply = 400) \/
      (exists validRole prompt,
          let input :=
            TestRoute.runRoleInput body validRole (Js.trim <$> TestRoute.model body)
              prompt in
          (forall m, explicitModel input = Some m -> m <> [] ->
                     isAllowedModel env m = true) /\
          resolvedModel env input = specifiedResolution env input /\
          TestRoute.respond env defaultSystemPrompts getProvider body trace
          = match runRole env defaultSystemPrompts getProvider input trace with
            | (Returns result, t') =>
              (Returns {| TestRoute.statusCode := 200;
                          TestRoute.payload :=
                            TestSuccessResponse validRole
                              (mr_model result) (mr_content result) |},
               t')
            | (Throws e, t') => (Throws e, t')
            end)) /\
  (forall (env : Env) (input : RunRoleInput.t),
      (forall m, explicitModel input = Some m -> m <> [] ->
                 isAllowedModel env m = true) ->
      resolvedModel env input = specifiedResolution env input /\
      (forall m, explicitModel input = Some m -> m <> [] ->
                 resolvedModel env input = Returns m) /\
      ((forall m, explicitModel input = Some m -> m = []) ->
       resolvedModel env input
       = resolveModelForRole env (RunRoleInput.role input)
           (RunRoleInput.roleModelMap input))) /\
  (forall (available : list jsstring) (defaults : LlmRole -> jsstring)
          (r : LlmRole) (roleModelMap : option RoleModelMap),
      let usable entry :=
        Js.trim entry <> [] /\ isAllowedModelIn available (Js.trim entry) = true in
      let fromRequest := roleModelMap ≫= (fun m => m !! r) in
      let resolved := resolveModelForRoleWith available defaults r roleModelMap in
      (forall entry, fromRequest = Some entry -> usable entry ->
                     resolved = Returns (Js.trim entry)) /\
      ((forall entry, fromRequest = Some entry -> ~ usable entry) ->
       (isAllowedModelIn available (defaults r) = true ->
        resolved = Returns (defaults r)) /\
       (isAllowedModelIn available (defaults r) = false ->
        forall first rest, available = first :: rest -> first <> [] ->
                           resolved = Returns first)) /\
      (Forall (fun m => m <> []) available ->
       forall e, resolved = Throws e ->
                 available = [] /\ isAllowedModelIn available (defaults r) = false
                 /\ e = noModelsError)).
Proof.
  split; [|split].
  - intros env defaultSystemPrompts getProvider body trace.
    destruct (respond_cases env defaultSystemPrompts getProvider body trace)
      as [Hrefused | (validRole & p & Hmodel & _ & Hrun)]; [left; exact Hrefused|].
    right. exists validRole, p. cbv zeta in Hmodel |- *.
    assert (Hguard : forall m,
               explicitModel
                 (TestRoute.runRoleInput body validRole
                    (Js.trim <$> TestRoute.model body) p) = Some m ->
               m <> [] -> isAllowedModel env m = true).
    { unfold explicitModel. cbn [TestRoute.runRoleInput RunRoleInput.model].
      destruct (TestRoute.model body) as [x|]; [|discriminate].
      simpl. rewrite JsFacts.trim_idem. intros m [= <-] Hne.
      apply Hmodel. apply JsFacts.truthy_true. assumption. }
    split; [exact Hguard|]. split; [|exact Hrun].
    apply resolvedModel_as_specified. exact Hguard.
  - intros env input Hguard. split; [apply resolvedModel_as_specified; exact Hguard|].
    unfold resolvedModel. split.
    + intros m -> Hne. apply JsFacts.truthy_true in Hne. rewrite Hne. reflexivity.
    + intros H. destruct (explicitModel input) as [m|]; [|reflexivity].
      rewrite (H m eq_refl). reflexivity.
  - exact (proj2 model_resolution_precedence).
Qed.

(* ===================================================================== *)
(** * 21. The conversation history *)
(* ===================================================================== *)

Section HistoryFacts.
Variable Date_parse : jsstring -> option Z.

Local Abbreviation time :=
  (fun r => History.toTimeNumber Date_parse (History.updatedAt r)).
Local Abbreviation newerFirst :=
  (fun a b : History.ConversationHistoryRecord => time b <= time a).
Local Abbreviation byTime :=
  (fun a b : History.ConversationHistoryRecord =>
     History.toTimeNumber Date_parse (History.updatedAt b)
     - History.toTimeNumber Date_parse (History.updatedAt a)).

Lemma insertSorted_Permutation x l :
  Permutation (History.insertSorted byTime x l) (x :: l).
Proof.
  induction l as [|y rest IH]; simpl; [reflexivity|].
  destruct (0 <? _); [|reflexivity].
  rewrite IH. apply perm_swap.
Qed.

Lemma sort_Permutation l : Permutation (History.sort byTime l) l.
Proof.
  induction l as [|x l IH]; simpl; [reflexivity|].
  rewrite insertSorted_Permutation. constructor. exact IH.
Qed.

Lemma insertSorted_sorted x l :
  StronglySorted newerFirst l ->
  StronglySorted newerFirst (History.insertSorted byTime x l).
Proof.
  induction 1 as [|y rest Hs IH Hy]; simpl; [repeat constructor|].
  destruct (0 <? _) eqn:E.
  - apply Z.ltb_lt in E. constructor; [assumption|].
    apply List.Forall_forall. intros z Hz.
    apply (Permutation_in _ (insertSorted_Permutation x rest)) in Hz.
    destruct Hz as [<- | Hz]; [lia|].
    rewrite List.Forall_forall in Hy. apply Hy. assumption.
  - apply Z.ltb_ge in E. constructor; [constructor; assumption|].
    constructor; [lia|].
    rewrite List.Forall_forall in Hy |- *. intros z Hz. specialize (Hy z Hz). lia.
Qed.

Lemma sort_sorted l : StronglySorted newerFirst (History.sort byTime l).
Proof.
  induction l as [|x l IH]; simpl; [constructor|].
  apply insertSorted_sorted. exact IH.
Qed.

Lemma sort_of_sorted l :
  StronglySorted newerFirst l -> History.sort byTime l = l.
Proof.
  induction 1 as [|x l Hs IH Hx]; [reflexivity|].
  simpl. rewrite IH. destruct l as [|y rest]; [reflexivity|].
  simpl. inversion Hx as [|? ? Hxy _]; subst.
  assert (E : (0 <? time y - time x) = false) by (apply Z.ltb_ge; lia).
  rewrite E. reflexivity.
Qed.

Lemma StronglySorted_firstn n l :
  StronglySorted newerFirst l -> StronglySorted newerFirst (firstn n l).
Proof.
  intros H. revert n. induction H as [|x l Hs IH Hx]; intros [|n]; simpl;
    try constructor.
  - apply IH.
  - rewrite List.Forall_forall in Hx |- *. intros z Hz. apply Hx.
    rewrite <- (firstn_skipn n l). apply in_or_app. left. assumption.
Qed.

Lemma pruneToMaxHistory_sorted records maxHistory :
  StronglySorted newerFirst (History.pruneToMaxHistory Date_parse records maxHistory).
Proof. apply StronglySorted_firstn, sort_sorted. Qed.

Lemma pruneToMaxHistory_idem records maxHistory :
  History.pruneToMaxHistory Date_parse
    (History.pruneToMaxHistory Date_parse records maxHistory) maxHistory
  = History.pruneToMaxHistory Date_parse records maxHistory.
Proof.
  unfold History.pruneToMaxHistory at 1. cbv zeta.
  rewrite sort_of_sorted by apply pruneToMaxHistory_sorted.
  unfold History.pruneToMaxHistory. cbv zeta.
  rewrite firstn_firstn. f_equal. lia.
Qed.
End HistoryFacts.

Lemma StronglySorted_app_order {A} (R : A -> A -> Prop) (l1 l2 : list A) :
  StronglySorted R (l1 ++ l2) -> forall a b, a ∈ l1 -> b ∈ l2 -> R a b.
Proof.
  induction l1 as [|x l1 IH]; intros H a b Ha Hb; [inversion Ha|].
  simpl in H. inversion H as [|? ? Hs Hx]; subst.
  apply elem_of_cons in Ha as [-> | Ha].
  - rewrite List.Forall_forall in Hx. apply Hx, in_or_app. right.
    apply list_elem_of_In. assumption.
  - apply IH; assumption.
Qed.

Lemma elem_of_list_insert_inv {A} (l : list A) i x y :
  y ∈ <[i:=x]> l -> y = x \/ y ∈ l.
Proof.
  revert i. induction l as [|a l IH]; intros [|i]; simpl; intros H;
    try (right; assumption).
  - apply elem_of_cons in H as [-> | H]; [left; reflexivity | right; right; assumption].
  - apply elem_of_cons in H as [-> | H]; [right; left|].
    destruct (IH i H) as [-> | H']; [left; reflexivity | right; right; assumption].
Qed.

Lemma findIndex_Some {A} (p : A -> bool) (l : list A) i :
  History.findIndex p l = Some i ->
  exists x, l !! i = Some x /\ p x = true /\ List.find p l = Some x.
Proof.
  revert i. induction l as [|a l IH]; intros i; simpl; [discriminate|].
  destruct (p a) eqn:E.
  - intros [= <-]. exists a. repeat split; assumption.
  - destruct (History.findIndex p l) as [j|]; [|discriminate].
    intros [= <-]. destruct (IH j eq_refl) as (x & Hl & Hp & Hf).
    exists x. repeat split; assumption.
Qed.

Lemma findIndex_None {A} (p : A -> bool) (l : list A) :
  History.findIndex p l = None ->
  List.find p l = None /\ forall x, x ∈ l -> p x = false.
Proof.
  induction l as [|a l IH]; simpl.
  - intros _. split; [reflexivity | intros x H; inversion H].
  - destruct (p a) eqn:E; [discriminate|].
    destruct (History.findIndex p l); [discriminate|]. intros _.
    destruct (IH eq_refl) as [Hf Hall]. split; [assumption|].
    intros x Hx. apply elem_of_cons in Hx as [-> | Hx]; [assumption | apply Hall, Hx].
Qed.

Section UpsertFacts.
Variable Date_parse : jsstring -> option Z.

Local Abbreviation time :=
  (fun r => History.toTimeNumber Date_parse (History.updatedAt r)).

(** The list [upsertHistoryRecord] prunes. *)
Lemma upsert_current nowIso record b :
  exists current created,
    (History.upsertHistoryRecord Date_parse nowIso record b).1
    = History.pruneToMaxHistory Date_parse current None /\
    (History.upsertHistoryRecord Date_parse nowIso record b).2
    = History.writeHistoryList
        (History.pruneToMaxHistory Date_parse current None) b /\
    created
    = match List.find (fun item => Js.eqb (History.id item) (History.id record))
              (History.readRawHistoryList b) with
      | Some existing => History.createdAt existing
      | None => if Js.truthy (History.createdAt record) then History.createdAt record
                else nowIso
      end /\
    History.withTimes record created nowIso ∈ current /\
    (forall r, r ∈ current ->
               r = History.withTimes record created nowIso \/
               r ∈ History.readRawHistoryList b) /\
    (NoDup (History.id <$> History.readRawHistoryList b) ->
     NoDup (History.id <$> current)).
Proof.
  unfold History.upsertHistoryRecord. cbv zeta.
  set (stored := History.readRawHistoryList b).
  destruct (History.findIndex _ stored) as [i|] eqn:Ei.
  - destruct (findIndex_Some _ _ _ Ei) as (existing & Hl & Hp & Hf).
    rewrite Hl, Hf.
    eexists _, _. split; [reflexivity|]. split; [reflexivity|].
    split; [reflexivity|]. split; [|split].
    + apply list_elem_of_insert. eapply lookup_lt_Some. exact Hl.
    + intros r Hr. apply elem_of_list_insert_inv in Hr. exact Hr.
    + intros ND. rewrite list_fmap_insert. cbn [History.withTimes History.id].
      apply JsFacts.eqb_eq in Hp. rewrite <- Hp.
      rewrite list_insert_id; [assumption|].
      rewrite list_lookup_fmap, Hl. reflexivity.
  - destruct (findIndex_None _ _ Ei) as [Hf Hall]. rewrite Hf.
    eexists _, _. split; [reflexivity|]. split; [reflexivity|].
    split; [reflexivity|]. split; [|split].
    + apply elem_of_app. right. left.
    + intros r Hr. apply elem_of_app in Hr as [Hr | Hr]; [right; assumption|].
      apply list_elem_of_singleton in Hr. left. assumption.
    + intros ND. rewrite fmap_app. apply list.NoDup_app. split; [assumption|].
      split; [|apply NoDup_singleton].
      intros x Hx Hx'. cbn in Hx'. apply list_elem_of_singleton in Hx'. subst x.
      apply list_elem_of_fmap in Hx as (r & Hid & Hr).
      specialize (Hall r Hr). apply JsFacts.eqb_neq in Hall. congruence.
Qed.
End UpsertFacts.

(** X17. [pruneToMaxHistory] keeps the most recent records: it returns
    [min (length records) (max 0 maxHistory)] records, newest first, and
    every record it drops is at most as recent as every record it keeps. *)
Theorem pruneToMaxHistory_keeps_the_most_recent
    (Date_parse : jsstring -> option Z)
    (records : list History.ConversationHistoryRecord) (maxHistory : option Z) :
  let time r := History.toTimeNumber Date_parse (History.updatedAt r) in
  let kept := History.pruneToMaxHistory Date_parse records maxHistory in
  length kept
  = Nat.min (length records)
      (Z.to_nat (Z.max 0 (default History.MAX_HISTORY maxHistory))) /\
  StronglySorted (fun a b => time b <= time a) kept /\
  exists dropped,
    Permutation records (kept ++ dropped) /\
    forall a b, a ∈ kept -> b ∈ dropped -> time b <= time a.
Proof.
  cbv zeta. split; [|split].
  - unfold History.pruneToMaxHistory. cbv zeta.
    rewrite length_firstn, (Permutation_length (sort_Permutation Date_parse records)).
    lia.
  - apply pruneToMaxHistory_sorted.
  - unfold History.pruneToMaxHistory. cbv zeta.
    eexists (skipn _ _). rewrite firstn_skipn. split.
    + symmetry. apply sort_Permutation.
    + apply (StronglySorted_app_order
               (fun a b => History.toTimeNumber Date_parse (History.updatedAt b)
                           <= History.toTimeNumber Date_parse (History.updatedAt a))).
      rewrite firstn_skipn. apply sort_sorted.
Qed.

Lemma sorted_head_is_newest (Date_parse : jsstring -> option Z) l x :
  x ∈ l ->
  (forall r, r ∈ l -> r = x \/
     History.toTimeNumber Date_parse (History.updatedAt r)
     < History.toTimeNumber Date_parse (History.updatedAt x)) ->
  forall maxHistory, 1 <= default History.MAX_HISTORY maxHistory ->
  exists rest,
    History.pruneToMaxHistory Date_parse l maxHistory = x :: rest /\
    (length rest <= Z.to_nat (default History.MAX_HISTORY maxHistory) - 1)%nat.
Proof.
  intros Hx Hnew maxHistory Hmax. unfold History.pruneToMaxHistory. cbv zeta.
  pose proof (sort_Permutation Date_parse l) as Hperm.
  pose proof (sort_sorted Date_parse l) as Hsorted.
  destruct (History.sort _ l) as [|h rest].
  - apply Permutation_nil in Hperm. subst l. inversion Hx.
  - assert (Hh : h = x).
    { assert (Hin : h ∈ l).
      { apply list_elem_of_In. eapply Permutation_in; [exact Hperm | left; reflexivity]. }
      destruct (Hnew h Hin) as [-> | Hlt]; [reflexivity|].
      assert (Hxs : In x (h :: rest)).
      { eapply Permutation_in; [symmetry; exact Hperm | apply list_elem_of_In, Hx]. }
      destruct Hxs as [-> | Hxr]; [reflexivity|].
      inversion Hsorted as [|? ? _ Hall]; subst.
      rewrite List.Forall_forall in Hall. specialize (Hall x Hxr). cbv beta in Hall. exfalso. lia. }
    subst h. rewrite Z.max_r by lia.
    destruct (Z.to_nat (default History.MAX_HISTORY maxHistory)) as [|n] eqn:En; [lia|].
    simpl firstn. eexists. split; [reflexivity|].
    rewrite length_firstn. lia.
Qed.

(** X18. When every stored record is older than the clock, the record
    [upsertHistoryRecord] writes comes first in the list it returns, with
    the clock as its [updatedAt] and with the [createdAt] of the stored
    record of the same id when there is one (else its own [createdAt], or
    the clock when that is empty); and at most three records are
    returned. *)
Theorem upsertHistoryRecord_puts_the_record_first
    (Date_parse : jsstring -> option Z) (nowIso : jsstring)
    (record : History.ConversationHistoryRecord) (b : History.Browser) :
  (forall r, r ∈ History.readRawHistoryList b ->
             History.toTimeNumber Date_parse (History.updatedAt r)
             < History.toTimeNumber Date_parse nowIso) ->
  let created :=
    match List.find (fun item => Js.eqb (History.id item) (History.id record))
            (History.readRawHistoryList b) with
    | Some existing => History.createdAt existing
    | None => if Js.truthy (History.createdAt record) then History.createdAt record
              else nowIso
    end in
  exists rest,
    (History.upsertHistoryRecord Date_parse nowIso record b).1
    = History.withTimes record created nowIso :: rest /\
    (length rest <= 2)%nat.
Proof.
  intros Hold. cbv zeta.
  destruct (upsert_current Date_parse nowIso record b)
    as (current & created & -> & _ & -> & Hin & Hall & _).
  apply (sorted_head_is_newest Date_parse current _ Hin); [|vm_compute; discriminate].
  intros r Hr. destruct (Hall r Hr) as [-> | Hs]; [left; reflexivity|].
  right. apply Hold. assumption.
Qed.

Lemma upsertHistoryRecord_puts_the_record_first_witness :
  exists rest,
    (History.upsertHistoryRecord sampleDateParse (utf16 "50")
       (sampleRecord (utf16 "c") (utf16 "0")) sampleBrowser).1
    = History.withTimes (sampleRecord (utf16 "c") (utf16 "0")) (utf16 "1") (utf16 "50")
        :: rest /\
    (length rest <= 2)%nat.
Proof.
  apply (upsertHistoryRecord_puts_the_record_first sampleDateParse (utf16 "50")
           (sampleRecord (utf16 "c") (utf16 "0")) sampleBrowser).
  intros r Hr. cbn in Hr.
  repeat (apply elem_of_cons in Hr as [-> | Hr]; [vm_compute; reflexivity|]).
  inversion Hr.
Defined.

(** X19. [upsertHistoryRecord] keeps the ids distinct: when no two stored
    records share an id, no two records of the list it returns and writes
    share one. *)
Theorem upsertHistoryRecord_keeps_ids_distinct
    (Date_parse : jsstring -> option Z) (nowIso : jsstring)
    (record : History.ConversationHistoryRecord) (b : History.Browser) :
  NoDup (History.id <$> History.readRawHistoryList b) ->
  NoDup (History.id <$> (History.upsertHistoryRecord Date_parse nowIso record b).1).
Proof.
  intros ND.
  destruct (upsert_current Date_parse nowIso record b)
    as (current & created & -> & _ & _ & _ & _ & Hnd).
  specialize (Hnd ND). unfold History.pruneToMaxHistory. cbv zeta.
  eapply sublist_NoDup; [|apply fmap_sublist, sublist_take].
  eapply NoDup_Permutation_proper; [|exact Hnd].
  apply fmap_Permutation, sort_Permutation.
Qed.

Lemma upsertHistoryRecord_keeps_ids_distinct_witness :
  NoDup (History.id <$>
           (History.upsertHistoryRecord sampleDateParse (utf16 "50")
              (sampleRecord (utf16 "c") (utf16 "0")) sampleBrowser).1).
Proof.
  apply (upsertHistoryRecord_keeps_ids_distinct sampleDateParse (utf16 "50")
           (sampleRecord (utf16 "c") (utf16 "0")) sampleBrowser).
  cbn. repeat (apply list.NoDup_cons; split;
               [rewrite ?elem_of_cons, elem_of_nil; vm_compute; intuition discriminate|]).
  apply NoDup_nil_2.
Defined.

(** X20. What [upsertHistoryRecord] returns is what [listHistoryRecords]
    reads back afterwards, when the browser has a local storage: the list
    written is already pruned and in order. *)
Theorem listHistoryRecords_reads_back_the_upsert
    (Date_parse : jsstring -> option Z) (nowIso : jsstring)
    (record : History.ConversationHistoryRecord) (b : History.Browser) :
  History.canUseBrowserStorage b = true ->
  History.listHistoryRecords Date_parse
    (History.upsertHistoryRecord Date_parse nowIso record b).2
  = (History.upsertHistoryRecord Date_parse nowIso record b).1.
Proof.
  intros Hcan.
  destruct (upsert_current Date_parse nowIso record b)
    as (current & created & -> & -> & _).
  unfold History.listHistoryRecords, History.writeHistoryList,
    History.readRawHistoryList.
  rewrite Hcan. cbn [History.canUseBrowserStorage History.stored].
  apply pruneToMaxHistory_idem.
Qed.

Lemma listHistoryRecords_reads_back_the_upsert_witness :
  History.listHistoryRecords sampleDateParse
    (History.upsertHistoryRecord sampleDateParse (utf16 "50")
       (sampleRecord (utf16 "c") (utf16 "0")) sampleBrowser).2
  = (History.upsertHistoryRecord sampleDateParse (utf16 "50")
       (sampleRecord (utf16 "c") (utf16 "0")) sampleBrowser).1.
Proof.
  apply (listHistoryRecords_reads_back_the_upsert sampleDateParse (utf16 "50")
           (sampleRecord (utf16 "c") (utf16 "0")) sampleBrowser).
  reflexivity.
Defined.


(** X22. A record that was just written is found by its id: when every
    stored record is older than the clock, the browser has a local storage,
    and the id is not empty and has no white space around it,
    [getHistoryRecordById] gives the record [upsertHistoryRecord] wrote. *)
Theorem getHistoryRecordById_finds_the_upsert
    (Date_parse : jsstring -> option Z) (nowIso : jsstring)
    (record : History.ConversationHistoryRecord) (b : History.Browser) :
  History.canUseBrowserStorage b = true ->
  (forall r, r ∈ History.readRawHistoryList b ->
             History.toTimeNumber Date_parse (History.updatedAt r)
             < History.toTimeNumber Date_parse nowIso) ->
  History.id record <> [] ->
  Js.trim (History.id record) = History.id record ->
  exists found,
    History.getHistoryRecordById Date_parse
      (History.upsertHistoryRecord Date_parse nowIso record b).2 (History.id record)
    = Some found /\
    History.id found = History.id record /\
    History.updatedAt found = nowIso /\
    (History.upsertHistoryRecord Date_parse nowIso record b).1 !! 0%nat = Some found.
Proof.
  intros Hcan Hold Hne Htrim.
  destruct (upsert_current Date_parse nowIso record b)
    as (current & created & Hfst & Hsnd & _ & Hin & Hall & _).
  assert (Hhead : exists rest,
             History.pruneToMaxHistory Date_parse current None
             = History.withTimes record created nowIso :: rest).
  { destruct (sorted_head_is_newest Date_parse current _ Hin) with (maxHistory := @None Z)
      as (rest & E & _); [|vm_compute; discriminate|exists rest; exact E].
    intros r Hr. destruct (Hall r Hr) as [-> | Hs]; [left; reflexivity|].
    right. apply Hold. assumption. }
  destruct Hhead as (rest & Hhead).
  exists (History.withTimes record created nowIso).
  unfold History.getHistoryRecordById. cbv zeta.
  rewrite Htrim, (JsFacts.is_empty_true' _ Hne).
  unfold History.listHistoryRecords. rewrite Hsnd, Hfst.
  unfold History.writeHistoryList, History.readRawHistoryList.
  rewrite Hcan. cbn [History.canUseBrowserStorage History.stored].
  rewrite pruneToMaxHistory_idem, Hhead.
  cbn [List.find History.withTimes History.id History.updatedAt].
  rewrite JsFacts.eqb_refl. repeat split.
Qed.

Lemma getHistoryRecordById_finds_the_upsert_witness :
  exists found,
    History.getHistoryRecordById sampleDateParse
      (History.upsertHistoryRecord sampleDateParse (utf16 "50")
         (sampleRecord (utf16 "c") (utf16 "0")) sampleBrowser).2 (utf16 "c")
    = Some found /\
    History.id found = utf16 "c" /\
    History.updatedAt found = utf16 "50" /\
    (History.upsertHistoryRecord sampleDateParse (utf16 "50")
       (sampleRecord (utf16 "c") (utf16 "0")) sampleBrowser).1 !! 0%nat = Some found.
Proof.
  apply (getHistoryRecordById_finds_the_upsert sampleDateParse (utf16 "50")
           (sampleRecord (utf16 "c") (utf16 "0")) sampleBrowser).
  - reflexivity.
  - intros r Hr. cbn in Hr.
    repeat (apply elem_of_cons in Hr as [-> | Hr]; [vm_compute; reflexivity|]).
    inversion Hr.
  - vm_compute. discriminate.
  - vm_compute. reflexivity.
Defined.

(* ===================================================================== *)
(** * 22. The page: texts, prompts and guards *)
(* ===================================================================== *)

(** X23. The message [getErrorMessage] makes of a reply is never empty,
    and it begins with the error text of the reply when there is one. *)
Theorem getErrorMessage_is_never_empty (raw : TestResponse) :
  getErrorMessage raw <> [] /\
  forall e d, raw = TestErrorResponse (Some e) d -> e <> [] ->
              exists rest, getErrorMessage raw = e ++ rest.
Proof.
  split.
  - destruct raw as [r m c | [e|] [d|]]; simpl; try discriminate.
    + destruct e as [|c e]; simpl; [discriminate|].
      destruct (Js.truthy d); discriminate.
    + destruct e; simpl; discriminate.
  - intros e d -> He. destruct e as [|c e]; [contradiction|].
    destruct d as [d|]; simpl.
    + destruct (Js.truthy d); [eexists; reflexivity|].
      exists []. rewrite app_nil_r. reflexivity.
    + exists []. rewrite app_nil_r. reflexivity.
Qed.

(** X24. [normalizeOptionalText] gives [null] exactly for a text that is
    absent or blank, and otherwise the trimmed text, which is not empty and
    has no white space around it. *)
Theorem normalizeOptionalText_characterised (raw : option jsstring) :
  (normalizeOptionalText raw = None <->
   raw = None \/ exists r, raw = Some r /\ Js.trim r = []) /\
  (forall t, normalizeOptionalText raw = Some t ->
             t <> [] /\ Js.trim t = t /\ exists r, raw = Some r /\ t = Js.trim r).
Proof.
  destruct raw as [r|]; simpl.
  - destruct r as [|c r]; simpl.
    + split; [split; [intros _; right; exists []; split; reflexivity | reflexivity]|].
      discriminate.
    + destruct (Js.trim (c :: r)) as [|c' t'] eqn:E; simpl.
      * split; [split; [intros _; right; exists (c :: r); split; [reflexivity | exact E]
                       | reflexivity]|].
        discriminate.
      * split.
        -- split; [discriminate|]. intros [H | (r' & [= <-] & H)]; [discriminate|].
           rewrite E in H. discriminate.
        -- intros t [= <-]. split; [discriminate|]. split.
           ++ rewrite <- E. apply JsFacts.trim_idem.
           ++ exists (c :: r). split; [reflexivity | symmetry; exact E].
  - split; [split; [intros _; left; reflexivity | reflexivity]|]. discriminate.
Qed.

Section ParsedFacts.
Variable JSON_parse : jsstring -> option JsonValue.

Lemma readContentsArray_clean value item :
  item ∈ readContentsArray value -> item <> [] /\ Js.trim item = item.
Proof.
  unfold readContentsArray.
  destruct value as [[| | | |items|]|]; try solve [intros H; inversion H].
  rewrite list_elem_of_In, filter_In, in_map_iff, JsFacts.length_pos_nonempty.
  intros [(it & E & _) Hne]. split; [assumption|].
  subst item. destruct it as [| | | | |props]; try reflexivity.
  destruct (props !! utf16 "contents") as [[| | |s| |]|]; try reflexivity.
  apply JsFacts.trim_idem.
Qed.

(** X25. A structured output that [parseDebaterOutput] returns has at
    least one entry, each of its entries is a non-empty text without white
    space around it, and its speaker is the fallback speaker or such a
    text; and the parser gives the same for a text and for that text
    trimmed. *)
Theorem parseDebaterOutput_entries_are_clean
    (raw fallbackSpeaker : jsstring) (output : DebaterParsedOutput) :
  parseDebaterOutput JSON_parse raw fallbackSpeaker = Some output ->
  (newPerspectives output <> [] \/ counterpoints output <> []) /\
  (forall item, item ∈ newPerspectives output ++ counterpoints output ->
                item <> [] /\ Js.trim item = item) /\
  (speaker output = fallbackSpeaker \/
   speaker output <> [] /\ Js.trim (speaker output) = speaker output) /\
  parseDebaterOutput JSON_parse (Js.trim raw) fallbackSpeaker = Some output.
Proof.
  intros H.
  assert (Htrim : parseDebaterOutput JSON_parse (Js.trim raw) fallbackSpeaker
                  = parseDebaterOutput JSON_parse raw fallbackSpeaker).
  { unfold parseDebaterOutput, parseJsonObject. rewrite JsFacts.trim_idem. reflexivity. }
  rewrite Htrim. split; [|split; [|split; [|exact H]]];
    unfold parseDebaterOutput in H;
    destruct (parseJsonObject JSON_parse raw) as [obj|]; try discriminate;
    cbv zeta in H;
    destruct ((length (readContentsArray (obj !! utf16 "new_perspectives")) =? 0)%nat
              && (length (readContentsArray (obj !! utf16 "counterpoints")) =? 0)%nat)
      eqn:E; try discriminate;
    injection H as <-; cbn [newPerspectives counterpoints speaker].
  - apply andb_false_iff in E as [E | E]; [left | right];
      intros Hnil; rewrite Hnil in E; discriminate.
  - intros item Hin. apply elem_of_app in Hin as [Hin | Hin];
      eapply readContentsArray_clean; exact Hin.
  - destruct (obj !! utf16 "speaker") as [[| | |s| |]|]; try (left; reflexivity).
    destruct (0 <? length (Js.trim s))%nat eqn:Hs; [|left; reflexivity].
    right. split; [apply JsFacts.length_pos_nonempty; assumption | apply JsFacts.trim_idem].
Qed.
End ParsedFacts.

Lemma parseDebaterOutput_entries_are_clean_witness :
  let output :=
    {| speaker := utf16 "Debater 1"; newPerspectives := [utf16 "x"]; counterpoints := [] |} in
  parseDebaterOutput sampleParse (utf16 " {} ") (utf16 "Debater 1") = Some output /\
  (forall item, item ∈ newPerspectives output ++ counterpoints output ->
                item <> [] /\ Js.trim item = item).
Proof.
  cbv zeta.
  assert (H : parseDebaterOutput sampleParse (utf16 " {} ") (utf16 "Debater 1")
              = Some {| speaker := utf16 "Debater 1"; newPerspectives := [utf16 "x"];
                        counterpoints := [] |}).
  { unfold parseDebaterOutput.
    assert (Hobj : parseJsonObject sampleParse (utf16 " {} ") = Some sampleObject)
      by reflexivity.
    rewrite Hobj. reflexivity. }
  split; [exact H|].
  apply (parseDebaterOutput_entries_are_clean sampleParse (utf16 " {} ")
           (utf16 "Debater 1") _ H).
Defined.

(** X26. An addendum that is blank counts as no addendum: the prompt of a
    debater and the prompt of the summary are the same with it as without
    any. And in round 1 the prompt of a debater does not depend on the
    addendum or on earlier round-1 results at all. *)
Theorem blank_addendum_is_no_addendum
    (basePrompt blank : jsstring) (r : DebaterRole) (round : DebateRound)
    (round1Results current : RoundResults) (round2Results : option RoundResults) :
  Js.trim blank = [] ->
  buildPromptForRole basePrompt r round round1Results current (Some blank)
  = buildPromptForRole basePrompt r round round1Results current None /\
  buildSummaryPrompt basePrompt round1Results round2Results (Some blank)
  = buildSummaryPrompt basePrompt round1Results round2Results None /\
  forall addendum earlier,
    buildPromptForRole basePrompt r Round1 earlier current addendum
    = buildPromptForRole basePrompt r Round1 ∅ current None.
Proof.
  intros Hblank.
  assert (Hn : normalizeOptionalText (Some blank) = None).
  { unfold normalizeOptionalText. rewrite Hblank.
    destruct (Js.is_empty blank); reflexivity. }
  split; [|split].
  - unfold buildPromptForRole. destruct round; [reflexivity|]. rewrite Hn. reflexivity.
  - unfold buildSummaryPrompt. rewrite Hn. reflexivity.
  - reflexivity.
Qed.

Lemma blank_addendum_is_no_addendum_witness :
  buildPromptForRole (utf16 "q") debater_b Round2 sampleRound1 ∅ (Some (utf16 "  "))
  = buildPromptForRole (utf16 "q") debater_b Round2 sampleRound1 ∅ None.
Proof.
  apply (blank_addendum_is_no_addendum (utf16 "q") (utf16 "  ") debater_b Round2
           sampleRound1 ∅ None).
  reflexivity.
Defined.

Lemma occursIn_app_r needle pre s : occursIn needle s -> occursIn needle (pre ++ s).
Proof.
  intros (a & b & ->). exists (pre ++ a), b. rewrite <- app_assoc. reflexivity.
Qed.

(** X27. The summary block reports every debater: the chunk of each of
    the three roles occurs in it. The chunk of a debater without a result
    says so, and the chunk of a debater whose result carries an error text
    is its internal label and that text, whatever output the result
    holds. *)
Theorem buildSummaryBlock_reports_every_debater
    (roundLabel : jsstring) (results : RoundResults) (r : DebaterRole) :
  occursIn (summaryChunk results r) (buildSummaryBlock roundLabel results) /\
  (results !! r = None ->
   summaryChunk results r = INTERNAL_ROLE_LABELS r ++ utf16 ": 无输出") /\
  (forall result e,
     results !! r = Some result -> error result = Some e -> e <> [] ->
     summaryChunk results r = INTERNAL_ROLE_LABELS r ++ utf16 ": 调用失败 -> " ++ e).
Proof.
  split; [|split].
  - unfold buildSummaryBlock. cbv zeta.
    apply (occursIn_app_r _ roundLabel), (occursIn_app_r _ Js.nl).
    apply JsFacts.occursIn_join. apply list_elem_of_fmap.
    exists r. split; [reflexivity|]. destruct r; unfold DEBATER_ROLES;
      rewrite !elem_of_cons; tauto.
  - intros H. unfold summaryChunk. rewrite H. reflexivity.
  - intros result e H He Hne. unfold summaryChunk. rewrite H, He.
    destruct e; [contradiction | reflexivity].
Qed.

Section HandlerFacts.
Variable JSON_parse : jsstring -> option JsonValue.
Variable toLowerCase : jsstring -> jsstring.
Variable roundAwarePrompts : DebaterRole -> DebateRound -> jsstring.
Variable fetchTest : TestRequestBody.t -> FetchOutcome.

Local Abbreviation runRound1 w :=
  (handleRunRound1 JSON_parse toLowerCase roundAwarePrompts fetchTest w).
Local Abbreviation runRound2 w :=
  (handleRunRound2 JSON_parse toLowerCase roundAwarePrompts fetchTest w).
Local Abbreviation generateSummary w :=
  (handleGenerateSummary toLowerCase fetchTest w).

(** A round 1 that is not disturbed leaves the cells of round 2 and of the
    summary as they are. *)
Lemma roundLoop_round1_frame snap prompt addendum roles currentResults live :
  afterRound1 (page (roundLoop JSON_parse toLowerCase roundAwarePrompts fetchTest
                       undisturbed snap Round1 prompt addendum
                       roles currentResults live).2)
  = afterRound1 (page live).
Proof.
  revert currentResults live.
  induction roles as [|r rest IH]; intros currentResults live; [reflexivity|].
  rewrite roundLoop_cons, IH. reflexivity.
Qed.

(** X28. Round 2 does not start before round 1 is complete: when a result
    of round 1 is missing in the render, [handleRunRound2] sends no request,
    leaves the results of both rounds and the busy flags as they are, and
    sets the error text that asks for round 1. *)
Theorem round2_needs_a_complete_round1 whileAwaiting (snap : PageState) (live : Live) :
  hasRoundCompleted (round1Results snap) = false ->
  let after := (runRound2 whileAwaiting snap live).2 in
  requests after = requests live /\
  round1Results (page after) = round1Results (page live) /\
  round2Results (page after) = round2Results (page live) /\
  round2Started (page after) = round2Started (page live) /\
  busy (page after) = busy (page live) /\
  debateError (page after)
  = tr snap (utf16 "请先完成第一轮讨论。") (utf16 "Please complete Round 1 first.").
Proof.
  intros H. cbv zeta. unfold handleRunRound2, round1Completed. rewrite H.
  repeat split.
Qed.

(** What [handleRunRound1] does when its guards pass. *)
Lemma handleRunRound1_runs whileAwaiting (snap : PageState) (live : Live) :
  pageError snap = [] ->
  Js.trim (finalPrompt snap) <> [] ->
  (forall r, debaterModels snap r <> []) ->
  exists live0 live1,
    afterRound1 (page live0) = (∅, [], None, false, [], None, hidden) /\
    live1 = (runDebateRound JSON_parse toLowerCase roundAwarePrompts fetchTest
               whileAwaiting snap Round1 (Js.trim (finalPrompt snap)) None live0).2 /\
    busy (page (runRound1 whileAwaiting snap live).2) = (false, None, None) /\
    afterRound1 (page (runRound1 whileAwaiting snap live).2) = afterRound1 (page live1).
Proof.
  intros He Hp Hm.
  assert (Hfind : List.find (fun r => Js.is_empty (debaterModels snap r)) DEBATER_ROLES
                  = None).
  { unfold DEBATER_ROLES. simpl.
    rewrite !JsFacts.is_empty_true' by apply Hm. reflexivity. }
  unfold handleRunRound1. rewrite He, Hfind.
  apply JsFacts.is_empty_true' in Hp. rewrite Hp. cbn [Js.truthy Js.is_empty negb].
  unfold mbind, Act_bind, modify.
  match goal with
  | |- context [runDebateRound _ _ _ _ _ _ _ _ _ ?l] => set (live0 := l)
  end.
  exists live0.
  destruct (runDebateRound JSON_parse toLowerCase roundAwarePrompts fetchTest
              whileAwaiting snap Round1 (Js.trim (finalPrompt snap)) None live0)
    as [res live1] eqn:E.
  exists live1. repeat split.
Qed.

(** X29. When the guards of [handleRunRound1] pass (no page error, a
    prompt that is not blank, a model chosen for each debater), the handler
    ends with the busy flags released, whatever the server answers and
    whatever other handlers do meanwhile; and if nothing else runs
    meanwhile, round 2, the addendum and the summary are reset. *)
Theorem round1_releases_the_page_and_resets_round2 whileAwaiting
    (snap : PageState) (live : Live) :
  pageError snap = [] ->
  Js.trim (finalPrompt snap) <> [] ->
  (forall r, debaterModels snap r <> []) ->
  busy (page (runRound1 whileAwaiting snap live).2) = (false, None, None) /\
  afterRound1 (page (runRound1 undisturbed snap live).2)
  = (∅, [], None, false, [], None, hidden).
Proof.
  intros He Hp Hm. split.
  - destruct (handleRunRound1_runs whileAwaiting snap live He Hp Hm)
      as (live0 & live1 & _ & _ & Hbusy & _).
    exact Hbusy.
  - destruct (handleRunRound1_runs undisturbed snap live He Hp Hm)
      as (live0 & live1 & H0 & H1 & _ & Hafter).
    rewrite Hafter, H1. unfold runDebateRound.
    rewrite roundLoop_round1_frame. exact H0.
Qed.

(** X30. A summary is not asked for before its rounds are complete: when
    a result of round 1 is missing, or a result of round 2 is missing and
    both rounds are to be summarised, [handleGenerateSummary] sends no
    request, leaves the summary empty and sets an error text. *)
Theorem summary_needs_complete_rounds whileAwaiting
    (snap : PageState) (useRound2 : bool) (live : Live) :
  hasRoundCompleted (round1Results snap) = false \/
  useRound2 = true /\ hasRoundCompleted (round2Results snap) = false ->
  let after := (generateSummary whileAwaiting snap useRound2 live).2 in
  requests after = requests live /\
  summaryResult (page after) = [] /\
  summaryError (page after) <> [] /\
  isRunningSummary (page after) = isRunningSummary (page live).
Proof.
  intros H. cbv zeta.
  assert (E : exists msg,
             msg <> [] /\
             generateSummary whileAwaiting snap useRound2 live
             = (tt, {| page := setSummaryError msg
                                 (setSummaryResult [] (setSummaryError [] (page live)));
                       requests := requests live |})).
  { unfold handleGenerateSummary, round1Completed, round2Completed.
    destruct (hasRoundCompleted (round1Results snap)) eqn:H1.
    - destruct H as [H | [-> H2]]; [discriminate|]. rewrite H2.
      eexists. split; [|reflexivity].
      unfold tr. destruct (uiLang snap); intros E; vm_compute in E; discriminate E.
    - eexists. split; [|reflexivity].
      unfold tr. destruct (uiLang snap); intros E; vm_compute in E; discriminate E. }
  destruct E as (msg & Hmsg & ->).
  split; [reflexivity|]. split; [reflexivity|]. split; [exact Hmsg | reflexivity].
Qed.
End HandlerFacts.

Lemma round2_needs_a_complete_round1_witness :
  let snap := setRound1Results {[ debater_a := goodResult ]} sampleSnap in
  let after :=
    (handleRunRound2 sampleParse sampleLower samplePromptTable sampleFetch undisturbed
       snap sampleLive).2 in
  requests after = requests sampleLive /\
  round1Results (page after) = round1Results (page sampleLive) /\
  round2Results (page after) = round2Results (page sampleLive) /\
  round2Started (page after) = round2Started (page sampleLive) /\
  busy (page after) = busy (page sampleLive) /\
  debateError (page after)
  = tr snap (utf16 "请先完成第一轮讨论。") (utf16 "Please complete Round 1 first.").
Proof.
  apply (round2_needs_a_complete_round1 sampleParse sampleLower samplePromptTable
           sampleFetch undisturbed
           (setRound1Results {[ debater_a := goodResult ]} sampleSnap) sampleLive).
  reflexivity.
Defined.

Lemma round1_releases_the_page_and_resets_round2_witness :
  busy (page (handleRunRound1 sampleParse sampleLower samplePromptTable sampleFetch
                undisturbed sampleSnap sampleLive).2) = (false, None, None) /\
  afterRound1 (page (handleRunRound1 sampleParse sampleLower samplePromptTable
                       sampleFetch undisturbed sampleSnap sampleLive).2)
  = (∅, [], None, false, [], None, hidden).
Proof.
  apply (round1_releases_the_page_and_resets_round2 sampleParse sampleLower
           samplePromptTable sampleFetch undisturbed sampleSnap sampleLive).
  - reflexivity.
  - vm_compute. discriminate.
  - intros r. vm_compute. discriminate.
Defined.

Lemma summary_needs_complete_rounds_witness :
  let after :=
    (handleGenerateSummary sampleLower sampleFetch undisturbed sampleSnap true
       sampleLive).2 in
  requests after = requests sampleLive /\
  summaryResult (page after) = [] /\
  summaryError (page after) <> [] /\
  isRunningSummary (page after) = isRunningSummary (page sampleLive).
Proof.
  apply (summary_needs_complete_rounds sampleLower sampleFetch undisturbed
           sampleSnap true sampleLive).
  right. split; reflexivity.
Defined.
